(** * The PIMS file importer: [pims/importer/importer.py]

    A shallow embedding of [FileImporter] (notification of listeners, the
    [run] pipeline, spatial and histogram deployment, the collection
    importer) and of [decode_key], with the properties the specification
    states about them.

    Everything the importer calls outside its own file (the filesystem, the
    format registry, archives, images, histograms, the task queue, the
    listeners' handlers) is an answer of a [World] record or a field of the
    value involved, so that the importer itself is a function that can be
    evaluated. What the importer does is recorded as a trace of [Effect]s. *)

From Stdlib Require Import List String Ascii Bool Arith NArith Lia.
Import ListNotations.
Open Scope string_scope.
Open Scope list_scope.
Open Scope nat_scope.

Set Implicit Arguments.

(** ** Paths *)

(** A path is its list of components; [p / q] appends. *)
Definition Path := list string.

Definition pjoin (p q : Path) : Path := (p ++ q)%list.
Definition parent (p : Path) : Path := removelast p.
Definition name (p : Path) : string := last p "".

Definition path_eq_dec : forall p q : Path, {p = q} + {p <> q} :=
  list_eq_dec string_dec.
Definition path_eqb (p q : Path) : bool :=
  if path_eq_dec p q then true else false.

Lemma path_eqb_refl p : path_eqb p p = true.
Proof. unfold path_eqb. destruct (path_eq_dec p p); congruence. Qed.

Lemma path_eqb_eq p q : path_eqb p q = true <-> p = q.
Proof.
  unfold path_eqb. destruct (path_eq_dec p q); split; congruence.
Qed.

(** ** Exceptions *)

Inductive exn : Type :=
| FilepathNotFoundProblem (p : Path)
| NoMatchingFormatProblem (p : option Path)
| FileErrorProblem (p : option Path)
| ImageParsingProblem (p : Path)
| FormatConversionProblem
| NotImplementedError
| AssertionError
| AttributeError
| TypeError
| ValueError (msg : string)
| ArchiveError
| FileNotFoundError
| FileExistsError
| OSError
| OtherException (tag : string).

(** [except AttributeError] *)
Definition is_AttributeError (e : exn) : bool :=
  match e with AttributeError => true | _ => false end.

(** [except (FileNotFoundError, FileExistsError, OSError)] *)
Definition is_OSError (e : exn) : bool :=
  match e with
  | FileNotFoundError | FileExistsError | OSError => true
  | _ => false
  end.

(** [except (FileNotFoundError, FileExistsError)] *)
Definition is_FileNotFound_or_Exists (e : exn) : bool :=
  match e with
  | FileNotFoundError | FileExistsError => true
  | _ => false
  end.

(** [except ArchiveError] *)
Definition is_ArchiveError (e : exn) : bool :=
  match e with ArchiveError => true | _ => false end.

Inductive result (A : Type) : Type :=
| Ok (a : A)
| Raise (e : exn).
Arguments Ok {A} a.
Arguments Raise {A} e.

(** ** Formats, archives, images *)

(** The capability contract of a format that the importer calls. *)
Record Format : Type := {
  get_identifier : string;
  is_spatial : bool;
  need_conversion : bool;
  (* format.conversion_format().get_identifier() *)
  conversion_identifier : result string;
  (* format.convert(path) *)
  convert : Path -> result bool
}.

Record Archive : Type := {
  archive_format : Format;
  (* archive.extract(path): None when it returns *)
  extract : Path -> option exn
}.

Record Image : Type := {
  image_path : Path;
  image_format : Format
}.

Record Histogram : Type := {
  histogram_file : Path
}.

(** ** Events and listeners *)

Inductive ImportEventType : Type :=
| START_DATA_EXTRACTION | END_DATA_EXTRACTION
| MOVED_PENDING_FILE | FILE_NOT_FOUND | FILE_NOT_MOVED
| FILE_ERROR | END_SUCCESSFUL_IMPORT
| START_FORMAT_DETECTION | END_FORMAT_DETECTION | ERROR_NO_FORMAT
| START_UNPACKING | END_UNPACKING | ERROR_UNPACKING | REGISTER_FILE
| START_INTEGRITY_CHECK | END_INTEGRITY_CHECK | ERROR_INTEGRITY_CHECK
| START_CONVERSION | END_CONVERSION | ERROR_CONVERSION
| START_SPATIAL_DEPLOY | END_SPATIAL_DEPLOY
| START_HISTOGRAM_DEPLOY | END_HISTOGRAM_DEPLOY | ERROR_HISTOGRAM.

Definition event_eq_dec : forall a b : ImportEventType, {a = b} + {a <> b}.
Proof. decide equality. Defined.

Definition event_eqb (a b : ImportEventType) : bool :=
  if event_eq_dec a b then true else false.

(** The arguments of a notification, positional and keyword alike. *)
Inductive Arg : Type :=
| APath (p : option Path)
| AImage (i : option Image)
| AFormat (f : Format)
| AExn (e : exn)
| AErrors (errors : list string)
| AFlag (b : bool).

(** What calling [getattr(listener, method)] on the arguments does. *)
Inductive Handler : Type :=
| NoMethod              (* getattr raises AttributeError *)
| Returns
| Throws (e : exn).

(** The listener a [CytomineListener] builds for a registered child. *)
Record ChildListener : Type := {
  child_auth : string;
  child_of : Path
}.

Record CytomineOps : Type := {
  new_listener_from_registered_child : Path -> result ChildListener
}.

Record ImportListener : Type := {
  listener_name : string;
  handler : ImportEventType -> list Arg -> Handler;
  (* isinstance(listener, CytomineListener) *)
  cytomine_ops : option CytomineOps
}.

(** ** Tasks *)

Inductive Task : Type := IMPORT | IMPORT_WITH_CYTOMINE.

Inductive TaskArgs : Type :=
| ImportArgs (filepath : Path) (child_name : string) (prefer_copy : bool)
| CytomineImportArgs (auth : string) (filepath : Path) (child_name : string)
    (listener : ChildListener) (prefer_copy : bool).

Definition TaskCall : Type := (Task * TaskArgs)%type.

(** ** Effects *)

Inductive FsOp : Type :=
| OpMkdir (directory : Path)
| OpMove (origin dest : Path)
| OpCopy (origin dest : Path)
| OpSymlink (path target : Path)
| OpExtract (dest : Path)
| OpConvert (dest : Path)
| OpHistogram (dest : Path).

Inductive Effect : Type :=
| Notify (ev : ImportEventType) (args : list Arg)   (* a call of self.notify *)
| Handle (listener : string) (ev : ImportEventType) (* a handler was called *)
| LogError (e : exn)
| LogWarning (listener : string) (ev : ImportEventType)
| Fs (op : FsOp) (failure : option exn)            (* a filesystem call *)
| Submit (batch : list TaskCall)                    (* group(...).apply_async() *)
| RunWorker (position : nat)                        (* a task run by a worker *)
| RunLocal (position : nat) (call : TaskCall).      (* a task run in-process *)

(** ** The importer object and its monad *)

Record FileImporter : Type := {
  listeners : list ImportListener;
  pending_file : Path;
  pending_name : option string;
  upload_dir : option Path;
  processed_dir : option Path;
  extracted_dir : option Path;
  upload_path : option Path;
  original_path : option Path;
  original : option Image;
  spatial_path : option Path;
  spatial : option Image;
  histogram_path : option Path;
  histogram : option Histogram
}.

(** [FileImporter.__init__] *)
Definition new_importer (pending : Path) (pname : option string)
    (ls : option (list ImportListener)) : FileImporter :=
  {| listeners := match ls with Some l => l | None => [] end;
     pending_file := pending;
     pending_name := pname;
     upload_dir := None; processed_dir := None; extracted_dir := None;
     upload_path := None;
     original_path := None; original := None;
     spatial_path := None; spatial := None;
     histogram_path := None; histogram := None |}.

Definition set_upload_dir (v : option Path) (s : FileImporter) :=
  {| listeners := listeners s; pending_file := pending_file s;
     pending_name := pending_name s; upload_dir := v;
     processed_dir := processed_dir s; extracted_dir := extracted_dir s;
     upload_path := upload_path s; original_path := original_path s;
     original := original s; spatial_path := spatial_path s;
     spatial := spatial s; histogram_path := histogram_path s;
     histogram := histogram s |}.

Definition set_processed_dir (v : option Path) (s : FileImporter) :=
  {| listeners := listeners s; pending_file := pending_file s;
     pending_name := pending_name s; upload_dir := upload_dir s;
     processed_dir := v; extracted_dir := extracted_dir s;
     upload_path := upload_path s; original_path := original_path s;
     original := original s; spatial_path := spatial_path s;
     spatial := spatial s; histogram_path := histogram_path s;
     histogram := histogram s |}.

Definition set_extracted_dir (v : option Path) (s : FileImporter) :=
  {| listeners := listeners s; pending_file := pending_file s;
     pending_name := pending_name s; upload_dir := upload_dir s;
     processed_dir := processed_dir s; extracted_dir := v;
     upload_path := upload_path s; original_path := original_path s;
     original := original s; spatial_path := spatial_path s;
     spatial := spatial s; histogram_path := histogram_path s;
     histogram := histogram s |}.

Definition set_upload_path (v : option Path) (s : FileImporter) :=
  {| listeners := listeners s; pending_file := pending_file s;
     pending_name := pending_name s; upload_dir := upload_dir s;
     processed_dir := processed_dir s; extracted_dir := extracted_dir s;
     upload_path := v; original_path := original_path s;
     original := original s; spatial_path := spatial_path s;
     spatial := spatial s; histogram_path := histogram_path s;
     histogram := histogram s |}.

Definition set_original_path (v : option Path) (s : FileImporter) :=
  {| listeners := listeners s; pending_file := pending_file s;
     pending_name := pending_name s; upload_dir := upload_dir s;
     processed_dir := processed_dir s; extracted_dir := extracted_dir s;
     upload_path := upload_path s; original_path := v;
     original := original s; spatial_path := spatial_path s;
     spatial := spatial s; histogram_path := histogram_path s;
     histogram := histogram s |}.

Definition set_original (v : option Image) (s : FileImporter) :=
  {| listeners := listeners s; pending_file := pending_file s;
     pending_name := pending_name s; upload_dir := upload_dir s;
     processed_dir := processed_dir s; extracted_dir := extracted_dir s;
     upload_path := upload_path s; original_path := original_path s;
     original := v; spatial_path := spatial_path s;
     spatial := spatial s; histogram_path := histogram_path s;
     histogram := histogram s |}.

Definition set_spatial_path (v : option Path) (s : FileImporter) :=
  {| listeners := listeners s; pending_file := pending_file s;
     pending_name := pending_name s; upload_dir := upload_dir s;
     processed_dir := processed_dir s; extracted_dir := extracted_dir s;
     upload_path := upload_path s; original_path := original_path s;
     original := original s; spatial_path := v;
     spatial := spatial s; histogram_path := histogram_path s;
     histogram := histogram s |}.

Definition set_spatial (v : option Image) (s : FileImporter) :=
  {| listeners := listeners s; pending_file := pending_file s;
     pending_name := pending_name s; upload_dir := upload_dir s;
     processed_dir := processed_dir s; extracted_dir := extracted_dir s;
     upload_path := upload_path s; original_path := original_path s;
     original := original s; spatial_path := spatial_path s;
     spatial := v; histogram_path := histogram_path s;
     histogram := histogram s |}.

Definition set_histogram_path (v : option Path) (s : FileImporter) :=
  {| listeners := listeners s; pending_file := pending_file s;
     pending_name := pending_name s; upload_dir := upload_dir s;
     processed_dir := processed_dir s; extracted_dir := extracted_dir s;
     upload_path := upload_path s; original_path := original_path s;
     original := original s; spatial_path := spatial_path s;
     spatial := spatial s; histogram_path := v;
     histogram := histogram s |}.

Definition set_histogram (v : option Histogram) (s : FileImporter) :=
  {| listeners := listeners s; pending_file := pending_file s;
     pending_name := pending_name s; upload_dir := upload_dir s;
     processed_dir := processed_dir s; extracted_dir := extracted_dir s;
     upload_path := upload_path s; original_path := original_path s;
     original := original s; spatial_path := spatial_path s;
     spatial := spatial s; histogram_path := histogram_path s;
     histogram := v |}.

(** What a method call leaves behind: the effects in order, the importer
    object, and the value returned or the exception raised. *)
Record Run (A : Type) : Type := {
  trace : list Effect;
  final : FileImporter;
  outcome : result A
}.

Definition M (A : Type) : Type := FileImporter -> Run A.

Definition ret {A} (a : A) : M A :=
  fun s => {| trace := []; final := s; outcome := Ok a |}.

Definition raise {A} (e : exn) : M A :=
  fun s => {| trace := []; final := s; outcome := Raise e |}.

Definition bind {A B} (m : M A) (k : A -> M B) : M B :=
  fun s =>
    let r := m s in
    match outcome r with
    | Ok a =>
        let r' := k a (final r) in
        {| trace := trace r ++ trace r'; final := final r';
           outcome := outcome r' |}
    | Raise e => {| trace := trace r; final := final r; outcome := Raise e |}
    end.

(** [try: m except ...: h e]; [h] re-raises what its clause does not catch. *)
Definition try_except {A} (m : M A) (h : exn -> M A) : M A :=
  fun s =>
    let r := m s in
    match outcome r with
    | Ok a => r
    | Raise e =>
        let r' := h e (final r) in
        {| trace := trace r ++ trace r'; final := final r';
           outcome := outcome r' |}
    end.

Definition tell (e : Effect) : M unit :=
  fun s => {| trace := [e]; final := s; outcome := Ok tt |}.

Definition read {A} (f : FileImporter -> A) : M A :=
  fun s => {| trace := []; final := s; outcome := Ok (f s) |}.

Definition modify (f : FileImporter -> FileImporter) : M unit :=
  fun s => {| trace := []; final := f s; outcome := Ok tt |}.

Definition lift {A} (r : result A) : M A :=
  match r with
  | Ok a => ret a
  | Raise e => raise e
  end.

Declare Scope importer_scope.
Delimit Scope importer_scope with importer.
Notation "x <- m ;; k" := (bind m (fun x => k))
  (at level 61, m at next level, right associativity) : importer_scope.
Notation "m ;; k" := (bind m (fun _ => k))
  (at level 61, right associativity) : importer_scope.
Open Scope importer_scope.

(** ** [FileImporter.notify] *)

(** The loop over the listeners: the effects, and the exception that left
    the loop if one did. *)
Fixpoint deliver (method : ImportEventType) (args : list Arg)
    (ls : list ImportListener) : list Effect * option exn :=
  match ls with
  | [] => ([], None)
  | listener :: rest =>
      match handler listener method args with
      | NoMethod =>
          let r := deliver method args rest in
          (LogError AttributeError
             :: LogWarning (listener_name listener) method :: fst r, snd r)
      | Returns =>
          let r := deliver method args rest in
          (Handle (listener_name listener) method :: fst r, snd r)
      | Throws e =>
          if is_AttributeError e then
            let r := deliver method args rest in
            (Handle (listener_name listener) method
               :: LogError e
               :: LogWarning (listener_name listener) method :: fst r, snd r)
          else ([Handle (listener_name listener) method], Some e)
      end
  end.

Definition notify (method : ImportEventType) (args : list Arg) : M unit :=
  fun s =>
    let r := deliver method args (listeners s) in
    {| trace := Notify method args :: fst r;
       final := s;
       outcome := match snd r with None => Ok tt | Some e => Raise e end |}.

Definition assert_ (b : bool) : M unit :=
  if b then ret tt else raise AssertionError.

(** An attribute used where [None] would raise [e]. *)
Definition need {A} (e : exn) (o : option A) : M A :=
  match o with
  | Some a => ret a
  | None => raise e
  end.

(** ** The world around the importer *)

Record World : Type := {
  (* get_settings() *)
  FILE_ROOT_PATH : Path;
  PENDING_PATH : Path;
  WRITING_PATH : Path;
  task_queue_enabled : bool;
  (* the constants of pims.files.file *)
  UPLOAD_DIR_PREFIX : string;
  PROCESSED_DIR : string;
  EXTRACTED_DIR : string;
  ORIGINAL_STEM : string;
  SPATIAL_STEM : string;
  HISTOGRAM_STEM : string;
  (* str(unique_name_generator()) *)
  unique_name_generator : string;
  (* Path methods; a failure is the exception raised *)
  is_extracted : Path -> bool;
  path_exists : Path -> bool;
  os_mkdir : Path -> option exn;
  os_symlink : Path -> Path -> option exn;
  shutil_move : Path -> Path -> option exn;
  shutil_copy : Path -> Path -> option exn;
  has_original_role : Path -> bool;
  has_spatial_role : Path -> bool;
  has_histogram_role : Path -> bool;
  get_extracted_children : Path -> list Path;
  (* ImportableFormatFactory().match, SpatialReadableFormatFactory().match,
     Archive.from_path *)
  importable_match : Path -> option Format;
  spatial_readable_match : Path -> option Format;
  archive_from_path : Path -> option Archive;
  (* Image.check_integrity(check_metadata=True), Image.get_spatial() *)
  check_integrity : Image -> list string;
  get_spatial : Image -> option Image;
  (* build_histogram_file(image, path, HistogramType.FAST) *)
  build_histogram_file : option Image -> Path -> result Histogram;
  (* func_from_str(BG_TASK_MAPPING.get(name)) applied to the arguments *)
  bg_task : TaskCall -> option exn;
  (* group([...]).apply_async() followed by get(): the positions of the
     tasks the workers ran, and the exception raised if any *)
  celery_group : list TaskCall -> list nat * option exn
}.

Section Importer.

Variable W : World.

(** ** [mkdir], [move], [mksymlink] *)

Definition mkdir (directory : Path) : M unit :=
  tell (Fs (OpMkdir directory) (os_mkdir W directory));;
  match os_mkdir W directory with
  | None => ret tt
  | Some e =>
      if is_OSError e then
        notify FILE_ERROR [APath (Some directory); AExn e];;
        raise (FileErrorProblem (Some directory))
      else raise e
  end.

Definition move (origin dest : Path) (prefer_copy : bool) : M unit :=
  let r := if prefer_copy then shutil_copy W origin dest
           else shutil_move W origin dest in
  tell (Fs (if prefer_copy then OpCopy origin dest else OpMove origin dest) r);;
  match r with
  | None => ret tt
  | Some e =>
      if is_OSError e then
        notify FILE_NOT_MOVED [APath (Some origin); AExn e];;
        raise (FileErrorProblem (Some origin))
      else raise e
  end.

Definition mksymlink (path target : Path) : M unit :=
  tell (Fs (OpSymlink path target) (os_symlink W path target));;
  match os_symlink W path target with
  | None => ret tt
  | Some e =>
      if is_OSError e then
        notify FILE_ERROR [APath (Some path); AExn e];;
        raise (FileErrorProblem (Some path))
      else raise e
  end.

(** ** [deploy_spatial] *)

Definition stem_dot (stem ext : string) : string :=
  (stem ++ "." ++ ext)%string.

(** The [try] block of the conversion branch. *)
Definition convert_block (format : Format) : M unit :=
  ext <- lift (conversion_identifier format);;
  pd <- read processed_dir;;
  pd <- need TypeError pd;;
  let sp := pjoin pd [stem_dot (SPATIAL_STEM W) ext] in
  modify (set_spatial_path (Some sp));;
  up <- read upload_path;;
  notify START_CONVERSION [APath (Some sp); APath up];;
  tell (Fs (OpConvert sp)
          (match convert format sp with Ok _ => None | Raise e => Some e end));;
  r <- lift (convert format sp);;
  if negb r || negb (path_exists W sp) then
    notify ERROR_CONVERSION [APath (Some sp)];;
    raise FormatConversionProblem
  else ret tt.

Definition deploy_spatial (format : Format) : M Image :=
  op <- read original_path;;
  notify START_SPATIAL_DEPLOY [APath op];;
  (if need_conversion format then
     try_except (convert_block format)
       (fun e =>
          sp <- read spatial_path;;
          notify ERROR_CONVERSION [APath sp; AExn e];;
          raise FormatConversionProblem);;
     sp <- read spatial_path;;
     notify END_CONVERSION [APath sp];;
     notify START_FORMAT_DETECTION [APath sp];;
     spath <- need TypeError sp;;
     match spatial_readable_match W spath with
     | None =>
         notify ERROR_NO_FORMAT [APath sp];;
         raise (NoMatchingFormatProblem sp)
     | Some spatial_format =>
         notify END_FORMAT_DETECTION [APath sp; AFormat spatial_format];;
         let img := {| image_path := spath; image_format := spatial_format |} in
         modify (set_spatial (Some img));;
         notify START_INTEGRITY_CHECK [APath sp];;
         let errors := check_integrity W img in
         if 0 <? List.length errors then
           notify ERROR_INTEGRITY_CHECK [APath sp; AErrors errors];;
           raise (ImageParsingProblem spath)
         else notify END_INTEGRITY_CHECK [AImage (Some img)]
     end
   else
     pd <- read processed_dir;;
     pd <- need TypeError pd;;
     let sp := pjoin pd [stem_dot (SPATIAL_STEM W) (get_identifier format)] in
     modify (set_spatial_path (Some sp));;
     op <- read original_path;;
     op <- need AttributeError op;;
     mksymlink sp op;;
     modify (set_spatial (Some {| image_path := sp; image_format := format |})));;
  img <- read spatial;;
  img <- need AttributeError img;;
  assert_ (has_spatial_role W (image_path img));;
  notify END_SPATIAL_DEPLOY [AImage (Some img)];;
  ret img.

(** ** [deploy_histogram] *)

Definition deploy_histogram (image : option Image) : M Histogram :=
  pd <- read processed_dir;;
  pd <- need TypeError pd;;
  let hp := pjoin pd [HISTOGRAM_STEM W] in
  modify (set_histogram_path (Some hp));;
  notify START_HISTOGRAM_DEPLOY [APath (Some hp); AImage image];;
  tell (Fs (OpHistogram hp)
          (match build_histogram_file W image hp with
           | Ok _ => None | Raise e => Some e end));;
  match build_histogram_file W image hp with
  | Raise e =>
      if is_FileNotFound_or_Exists e then
        notify ERROR_HISTOGRAM [APath (Some hp); AImage image; AExn e];;
        raise (FileErrorProblem (Some hp))
      else raise e
  | Ok h =>
      modify (set_histogram (Some h));;
      assert_ (has_histogram_role W (histogram_file h));;
      notify END_HISTOGRAM_DEPLOY [APath (Some hp); AImage image];;
      ret h
  end.

(** ** [import_collection] *)

(** The first listener that is a [CytomineListener]. *)
Fixpoint find_cytomine (ls : list ImportListener) : option CytomineOps :=
  match ls with
  | [] => None
  | listener :: rest =>
      match cytomine_ops listener with
      | Some c => Some c
      | None => find_cytomine rest
      end
  end.

(** The body of the [try] of the loop over the children: the task list
    after the child; an exception leaves the list as it was. *)
Definition add_task (cytomine : option CytomineOps) (task : Task)
    (prefer_copy : bool) (child : Path) (tasks : list TaskCall)
    : list TaskCall :=
  match cytomine with
  | Some c =>
      match new_listener_from_registered_child c child with
      | Ok new_listener =>
          tasks ++ [(task, CytomineImportArgs (child_auth new_listener) child
                             (name child) new_listener prefer_copy)]
      | Raise _ => tasks
      end
  | None => tasks ++ [(task, ImportArgs child (name child) prefer_copy)]
  end.

Fixpoint register_children (cytomine : option CytomineOps) (task : Task)
    (prefer_copy : bool) (children : list Path) (tasks : list TaskCall)
    : M (list TaskCall) :=
  match children with
  | [] => ret tasks
  | child :: rest =>
      up <- read upload_path;;
      notify REGISTER_FILE [APath (Some child); APath up];;
      register_children cytomine task prefer_copy rest
        (add_task cytomine task prefer_copy child tasks)
  end.

(** [_sequential_imports], from the task at [position] on. *)
Fixpoint sequential_imports (position : nat) (tasks : list TaskCall)
    : M unit :=
  match tasks with
  | [] => ret tt
  | call :: rest =>
      tell (RunLocal position call);;
      match bg_task W call with
      | None => sequential_imports (S position) rest
      | Some e => raise e
      end
  end.

Fixpoint tell_all (es : list Effect) : M unit :=
  match es with
  | [] => ret tt
  | e :: rest => tell e;; tell_all rest
  end.

(** The [try] block of the distributed dispatch. *)
Definition celery_block (tasks : list TaskCall) : M unit :=
  tell (Submit tasks);;
  tell_all (map RunWorker (fst (celery_group W tasks)));;
  match snd (celery_group W tasks) with
  | None => ret tt
  | Some e => raise e
  end.

Definition dispatch (tasks : list TaskCall) : M unit :=
  if negb (task_queue_enabled W) then sequential_imports 0 tasks
  else try_except (celery_block tasks)
         (fun _ => sequential_imports 0 tasks).

Definition import_collection (collection : Path) (prefer_copy : bool)
    : M (list Path) :=
  ls <- read listeners;;
  let cytomine := find_cytomine ls in
  let task := match cytomine with
              | Some _ => IMPORT_WITH_CYTOMINE
              | None => IMPORT
              end in
  let imported : list Path := [] in
  tasks <- register_children cytomine task prefer_copy
             (get_extracted_children W collection) [];;
  dispatch tasks;;
  ret imported.

(** ** [run] *)

(** From the integrity check of the original to the end of the [try]. *)
Definition check_and_deploy (format : Format) (op up : Path)
    : M (list Path) :=
  notify START_INTEGRITY_CHECK [APath (Some op)];;
  let img := {| image_path := op; image_format := format |} in
  modify (set_original (Some img));;
  let errors := check_integrity W img in
  if 0 <? List.length errors then
    notify ERROR_INTEGRITY_CHECK [APath (Some op); AErrors errors];;
    raise (ImageParsingProblem op)
  else
    notify END_INTEGRITY_CHECK [AImage (Some img)];;
    (if is_spatial format then deploy_spatial format;; ret tt
     else raise NotImplementedError);;
    deploy_histogram (get_spatial W img);;
    notify END_SUCCESSFUL_IMPORT [APath (Some up); AImage (Some img)];;
    ret [up].

(** The condition under which the pending file is refused. *)
Definition not_importable (pf : Path) : bool :=
  (negb (is_extracted W pf)
   && (negb (path_eqb (parent pf) (WRITING_PATH W))
       && negb (path_eqb (parent pf) (PENDING_PATH W))))
  || negb (path_exists W pf).

(** [if self.pending_name: ... else: ...] *)
Definition upload_name (pn : option string) (pf : Path) : string :=
  match pn with
  | Some n => if string_dec n "" then name pf else n
  | None => name pf
  end.

(** The archive branch, after the processed directory is made. *)
Definition unpack (archive : Archive) (pd op up : Path) (prefer_copy : bool)
    : M (list Path) :=
  try_except
    (notify START_UNPACKING [APath (Some up)];;
     tell (Fs (OpExtract op) (extract archive op));;
     match extract archive op with
     | None => ret tt
     | Some e => raise e
     end)
    (fun e =>
       if is_ArchiveError e then
         notify ERROR_UNPACKING [APath (Some up); AExn e];;
         raise (FileErrorProblem (Some up))
       else raise e);;
  match importable_match W op with
  | Some format =>
      (* a multi-file format *)
      let new_original_path :=
        pjoin pd [stem_dot (ORIGINAL_STEM W) (get_identifier format)] in
      move op new_original_path false;;
      modify (set_original_path (Some new_original_path));;
      notify END_UNPACKING [APath (Some up); APath (Some new_original_path);
                            AFormat format; AFlag false];;
      modify (set_upload_path (Some new_original_path));;
      check_and_deploy format new_original_path new_original_path
  | None =>
      let ed := pjoin pd [EXTRACTED_DIR W] in
      modify (set_extracted_dir (Some ed));;
      mksymlink ed op;;
      collection <- import_collection op prefer_copy;;
      notify END_UNPACKING [APath (Some up); APath (Some op); AFlag true];;
      ret collection
  end.

(** The [try] block of [run]. *)
Definition run_body (prefer_copy : bool) : M (list Path) :=
  pf <- read pending_file;;
  notify START_DATA_EXTRACTION [APath (Some pf)];;
  if not_importable pf then
    notify FILE_NOT_FOUND [APath (Some pf)];;
    raise (FilepathNotFoundProblem pf)
  else
    let ud := pjoin (FILE_ROOT_PATH W)
                [(UPLOAD_DIR_PREFIX W ++ unique_name_generator W)%string] in
    modify (set_upload_dir (Some ud));;
    mkdir ud;;
    pn <- read pending_name;;
    let up := pjoin ud [upload_name pn pf] in
    modify (set_upload_path (Some up));;
    move pf up prefer_copy;;
    (if negb prefer_copy && is_extracted W pf then mksymlink pf up
     else ret tt);;
    notify MOVED_PENDING_FILE [APath (Some pf); APath (Some up)];;
    notify END_DATA_EXTRACTION [APath (Some up)];;
    notify START_FORMAT_DETECTION [APath (Some up)];;
    let matched := importable_match W up in
    let archive := match matched with
                   | None => archive_from_path W up
                   | Some _ => None
                   end in
    let format := match matched with
                  | None => option_map archive_format archive
                  | Some f => Some f
                  end in
    match format with
    | None =>
        notify ERROR_NO_FORMAT [APath (Some up)];;
        raise (NoMatchingFormatProblem (Some up))
    | Some format =>
        notify END_FORMAT_DETECTION [APath (Some up); AFormat format];;
        let pd := pjoin ud [PROCESSED_DIR W] in
        modify (set_processed_dir (Some pd));;
        mkdir pd;;
        let op := pjoin pd [stem_dot (ORIGINAL_STEM W) (get_identifier format)] in
        modify (set_original_path (Some op));;
        match archive with
        | Some a => unpack a pd op up prefer_copy
        | None =>
            mksymlink op up;;
            assert_ (has_original_role W op);;
            check_and_deploy format op up
        end
    end.

Definition run (prefer_copy : bool) : M (list Path) :=
  try_except (run_body prefer_copy)
    (fun e =>
       up <- read upload_path;;
       notify FILE_ERROR [APath up; AExn e];;
       raise e).

End Importer.

(** ** Reading a trace *)

Definition emitted (t : list Effect) : list ImportEventType :=
  flat_map (fun e => match e with Notify ev _ => [ev] | _ => [] end) t.

Definition fs_ops (t : list Effect) : list FsOp :=
  flat_map (fun e => match e with Fs op _ => [op] | _ => [] end) t.



Definition local_runs (t : list Effect) : list nat :=
  flat_map (fun e => match e with RunLocal i _ => [i] | _ => [] end) t.

Definition worker_runs (t : list Effect) : list nat :=
  flat_map (fun e => match e with RunWorker i => [i] | _ => [] end) t.

Definition count_event (ev : ImportEventType) (evs : list ImportEventType)
    : nat :=
  count_occ event_eq_dec evs ev.

(** The terminal events: successful import and generic file error. *)
Definition is_terminal (ev : ImportEventType) : bool :=
  match ev with
  | END_SUCCESSFUL_IMPORT | FILE_ERROR => true
  | _ => false
  end.

Definition terminal_events (t : list Effect) : list ImportEventType :=
  filter is_terminal (emitted t).

(** How often the task at a position of the batch was run, by a worker or
    in-process. *)
Definition executions (position : nat) (t : list Effect) : nat :=
  count_occ Nat.eq_dec (worker_runs t) position
  + count_occ Nat.eq_dec (local_runs t) position.

(** ** A world to run the importer in *)

Module Demo.

Definition tiff : Format :=
  {| get_identifier := "TIFF"; is_spatial := true; need_conversion := false;
     conversion_identifier := Raise AttributeError;
     convert := fun _ => Ok false |}.

Definition jpeg : Format :=
  {| get_identifier := "JPEG"; is_spatial := true; need_conversion := true;
     conversion_identifier := Ok "TIFF";
     convert := fun _ => Ok true |}.

(** [jpeg], with a conversion that reports failure. *)
Definition jpeg_failing : Format :=
  {| get_identifier := "JPEG"; is_spatial := true; need_conversion := true;
     conversion_identifier := Ok "TIFF";
     convert := fun _ => Ok false |}.

Definition plot : Format :=
  {| get_identifier := "PLOT"; is_spatial := false; need_conversion := false;
     conversion_identifier := Raise AttributeError;
     convert := fun _ => Ok false |}.

Definition zip : Archive :=
  {| archive_format :=
       {| get_identifier := "ZIP"; is_spatial := false;
          need_conversion := false;
          conversion_identifier := Raise AttributeError;
          convert := fun _ => Ok false |};
     extract := fun _ => None |}.

Definition pending : Path := ["tmp"; "uploaded"].
Definition slide : Path := ["tmp"; "uploaded"; "slide.tif"].
Definition stray : Path := ["home"; "user"; "slide.tif"].
Definition child : Path :=
  ["data"; "upload0"; "processed"; "extracted"; "a.tif"].
Definition child2 : Path :=
  ["data"; "upload0"; "processed"; "extracted"; "b.tif"].
Definition extracted : Path := ["data"; "upload0"; "processed"; "original.ZIP"].

(** Every call succeeds; [formats] is the importable format registry,
    [archives] is [Archive.from_path], [queue] the task queue switch. *)
Definition world (queue : bool) (mkdirs : Path -> option exn)
    (formats : Path -> option Format)
    (archives : Path -> option Archive) (children : list Path)
    (bg : TaskCall -> option exn)
    (celery : list TaskCall -> list nat * option exn) : World :=
  {| FILE_ROOT_PATH := ["data"];
     PENDING_PATH := pending;
     WRITING_PATH := ["tmp"; "writing"];
     task_queue_enabled := queue;
     UPLOAD_DIR_PREFIX := "upload";
     PROCESSED_DIR := "processed";
     EXTRACTED_DIR := "extracted";
     ORIGINAL_STEM := "original";
     SPATIAL_STEM := "spatial";
     HISTOGRAM_STEM := "histogram";
     unique_name_generator := "0";
     is_extracted := fun p => existsb (String.eqb "extracted") p;
     path_exists := fun _ => true;
     os_mkdir := mkdirs;
     os_symlink := fun _ _ => None;
     shutil_move := fun _ _ => None;
     shutil_copy := fun _ _ => None;
     has_original_role := fun _ => true;
     has_spatial_role := fun _ => true;
     has_histogram_role := fun _ => true;
     get_extracted_children := fun _ => children;
     importable_match := formats;
     spatial_readable_match := fun _ => Some tiff;
     archive_from_path := archives;
     check_integrity := fun _ => [];
     get_spatial := fun i => Some i;
     build_histogram_file := fun _ p => Ok {| histogram_file := p |};
     bg_task := bg;
     celery_group := celery |}.

Definition all_tiff : World :=
  world false (fun _ => None) (fun _ => Some tiff) (fun _ => None) []
    (fun _ => None) (fun _ => ([], None)).

(** Every file is of the format [plot], which is not spatial. *)
Definition all_plot : World :=
  world false (fun _ => None) (fun _ => Some plot) (fun _ => None) []
    (fun _ => None) (fun _ => ([], None)).

(** No directory can be made. *)
Definition read_only : World :=
  world false (fun _ => Some OSError) (fun _ => Some tiff) (fun _ => None) []
    (fun _ => None) (fun _ => ([], None)).

(** Only [child] has an image format; anything else is an archive that
    holds the [children]. *)
Definition archives_of (queue : bool) (children : list Path)
    (bg : TaskCall -> option exn)
    (celery : list TaskCall -> list nat * option exn) : World :=
  world queue (fun _ => None)
    (fun p => if path_eqb p child then Some tiff else None)
    (fun _ => Some zip) children bg celery.

(** A listener with every handler, none raising. *)
Definition stdout : ImportListener :=
  {| listener_name := "stdout"; handler := fun _ _ => Returns;
     cytomine_ops := None |}.


(** A [CytomineListener] that cannot register [child2]. *)
Definition cytomine : ImportListener :=
  {| listener_name := "cytomine"; handler := fun _ _ => Returns;
     cytomine_ops :=
       Some {| new_listener_from_registered_child :=
                 fun c =>
                   if path_eqb c child2 then Raise (OtherException "no parent")
                   else Ok {| child_auth := "key"; child_of := c |} |} |}.

(** A listener whose handler for [ev] raises [e]. *)
Definition faulty_on (ev : ImportEventType) (e : exn) : ImportListener :=
  {| listener_name := "faulty";
     handler := fun method _ =>
                  if event_eqb method ev then Throws e else Returns;
     cytomine_ops := None |}.


(** An importer as [run] leaves it before it deploys the spatial
    representation. *)
Definition deploying (ls : list ImportListener) : FileImporter :=
  set_original_path (Some ["data"; "upload0"; "processed"; "original.TIFF"])
    (set_processed_dir (Some ["data"; "upload0"; "processed"])
       (set_upload_path (Some ["data"; "upload0"; "slide.tif"])
          (new_importer slide None (Some ls)))).

End Demo.

(** ** Delivery of one event to the listeners *)

(** The handler does not stop the delivery: there is none, it returns, or
    it raises [AttributeError]. *)
Definition calm (h : Handler) : bool :=
  match h with
  | Throws e => is_AttributeError e
  | _ => true
  end.



Definition quiet (ls : list ImportListener) : Prop :=
  forall l method args, In l ls -> calm (handler l method args) = true.

(** Some handler of [ls] raises [e], which [notify] does not catch. *)
Definition thrown (ls : list ImportListener) (e : exn) : Prop :=
  exists l method args,
    In l ls /\ handler l method args = Throws e /\ is_AttributeError e = false.

(** A piece of trace with no notification, filesystem call or task in it. *)
Definition chatter (t : list Effect) : Prop :=
  emitted t = [] /\ fs_ops t = [] /\ local_runs t = [] /\ worker_runs t = [].


Lemma emitted_app t u : emitted (t ++ u) = emitted t ++ emitted u.
Proof. apply flat_map_app. Qed.

Lemma fs_ops_app t u : fs_ops (t ++ u) = fs_ops t ++ fs_ops u.
Proof. apply flat_map_app. Qed.

Lemma local_runs_app t u : local_runs (t ++ u) = local_runs t ++ local_runs u.
Proof. apply flat_map_app. Qed.

Lemma worker_runs_app t u :
  worker_runs (t ++ u) = worker_runs t ++ worker_runs u.
Proof. apply flat_map_app. Qed.

Lemma quiet_not_thrown ls e : quiet ls -> thrown ls e -> False.
Proof.
  intros Hq (l & method & args & Hin & Hh & Hne).
  specialize (Hq l method args Hin). rewrite Hh in Hq. simpl in Hq.
  congruence.
Qed.

Lemma deliver_chatter method args ls : chatter (fst (deliver method args ls)).
Proof.
  unfold chatter.
  induction ls as [|l ls IH]; simpl; [tauto|].
  destruct (handler l method args) as [| |e]; simpl; try exact IH.
  destruct (is_AttributeError e); simpl; [exact IH | tauto].
Qed.

Lemma deliver_thrown method args ls e :
  snd (deliver method args ls) = Some e -> thrown ls e.
Proof.
  induction ls as [|l ls IH]; simpl; [discriminate|].
  assert (Hmono : thrown ls e -> thrown (l :: ls) e).
  { intros (l' & m' & a' & Hin & H). exists l', m', a'. simpl. tauto. }
  destruct (handler l method args) as [| |e'] eqn:Hh; simpl; auto.
  destruct (is_AttributeError e') eqn:Ha; simpl; auto.
  intros [= <-]. exists l, method, args. simpl. auto.
Qed.


(** ** Weakest preconditions over the importer monad *)

Definition wp {A} (m : M A)
    (Q : list Effect -> FileImporter -> result A -> Prop)
    (s : FileImporter) : Prop :=
  Q (trace (m s)) (final (m s)) (outcome (m s)).

Lemma wp_ret A (a : A) Q s : Q [] s (Ok a) -> wp (ret a) Q s.
Proof. exact (fun H => H). Qed.

Lemma wp_raise A (e : exn) (Q : _ -> _ -> result A -> Prop) s :
  Q [] s (Raise e) -> wp (raise e) Q s.
Proof. exact (fun H => H). Qed.

Lemma wp_tell e Q s : Q [e] s (Ok tt) -> wp (tell e) Q s.
Proof. exact (fun H => H). Qed.

Lemma wp_read A (f : FileImporter -> A) Q s :
  Q [] s (Ok (f s)) -> wp (read f) Q s.
Proof. exact (fun H => H). Qed.

Lemma wp_modify f Q s : Q [] (f s) (Ok tt) -> wp (modify f) Q s.
Proof. exact (fun H => H). Qed.

Lemma wp_bind A B (m : M A) (k : A -> M B) Q s :
  wp m (fun t s' r =>
          match r with
          | Ok a => wp (k a) (fun t' s'' r' => Q (t ++ t') s'' r') s'
          | Raise e => Q t s' (Raise e)
          end) s ->
  wp (bind m k) Q s.
Proof.
  unfold wp, bind. destruct (outcome (m s)); simpl; auto.
Qed.

Lemma wp_try_except A (m : M A) (h : exn -> M A) Q s :
  wp m (fun t s' r =>
          match r with
          | Ok a => Q t s' (Ok a)
          | Raise e => wp (h e) (fun t' s'' r' => Q (t ++ t') s'' r') s'
          end) s ->
  wp (try_except m h) Q s.
Proof.
  unfold wp, try_except. destruct (m s) as [t s' [a|e]]; simpl; auto.
Qed.

Lemma wp_notify method args Q s :
  (forall t, chatter t -> Q (Notify method args :: t) s (Ok tt)) ->
  (forall t e, chatter t -> thrown (listeners s) e ->
               Q (Notify method args :: t) s (Raise e)) ->
  wp (notify method args) Q s.
Proof.
  intros Hok Hraise. unfold wp, notify. simpl.
  pose proof (deliver_chatter method args (listeners s)) as Hc.
  pose proof (@deliver_thrown method args (listeners s)) as Ht.
  destruct (deliver method args (listeners s)) as [t [e|]]; simpl in *; auto.
Qed.


(** ** Stepping through a method *)

Ltac simpl_state :=
  cbn [listeners pending_file pending_name upload_dir processed_dir
       extracted_dir upload_path original_path original spatial_path spatial
       histogram_path histogram
       set_upload_dir set_processed_dir set_extracted_dir set_upload_path
       set_original_path set_original set_spatial_path set_spatial
       set_histogram_path set_histogram new_importer] in *.

Ltac wp_step :=
  lazymatch goal with
  | |- wp (bind _ _) _ _ => apply wp_bind
  | |- wp (try_except _ _) _ _ => apply wp_try_except
  | |- wp (ret _) _ _ => apply wp_ret
  | |- wp (raise _) _ _ => apply wp_raise
  | |- wp (tell _) _ _ => apply wp_tell
  | |- wp (read _) _ _ => apply wp_read
  | |- wp (modify _) _ _ => apply wp_modify
  | |- wp (notify _ _) _ _ =>
      apply wp_notify; [intros ?t ?Hc | intros ?t ?e ?Hc ?Hthrown]
  | |- wp (need _ _) _ _ => unfold need
  | |- wp (lift _) _ _ => unfold lift
  | |- wp (assert_ _) _ _ => unfold assert_
  | |- wp (mkdir _ _) _ _ => unfold mkdir
  | |- wp (move _ _ _ _) _ _ => unfold move
  | |- wp (mksymlink _ _ _) _ _ => unfold mksymlink
  | |- wp (let _ := _ in _) _ _ => cbv zeta
  | |- wp (match ?x with _ => _ end) _ _ => destruct x eqn:?
  end; cbv beta iota; simpl_state.

(** A listener that is [quiet] throws nothing. *)
Ltac not_thrown :=
  lazymatch goal with
  | Hq : quiet ?ls, Ht : thrown ?ls _ |- _ =>
      exfalso; exact (quiet_not_thrown Hq Ht)
  end.

Ltac use_chatter :=
  repeat match goal with
  | H : chatter _ |- _ =>
      let He := fresh "He" in let Hf := fresh "Hf" in
      let Hl := fresh "Hl" in let Hw := fresh "Hw" in
      destruct H as (He & Hf & Hl & Hw)
  end.

(** Normal form of a projection of a trace built by [wp_step]. *)
Ltac split_cons P :=
  repeat match goal with
  | |- context [P (?e :: ?t)] =>
      lazymatch t with
      | [] => fail
      | _ => change (P (e :: t)) with (P [e] ++ P t)
      end
  end.

Ltac trace_norm :=
  use_chatter;
  rewrite ?emitted_app, ?fs_ops_app, ?local_runs_app, ?worker_runs_app;
  split_cons emitted; split_cons fs_ops;
  split_cons local_runs; split_cons worker_runs;
  repeat match goal with
  | H : emitted ?t = _ |- context [emitted ?t] => rewrite H
  | H : fs_ops ?t = _ |- context [fs_ops ?t] => rewrite H
  | H : local_runs ?t = _ |- context [local_runs ?t] => rewrite H
  | H : worker_runs ?t = _ |- context [worker_runs ?t] => rewrite H
  end;
  cbn [emitted fs_ops local_runs worker_runs flat_map app].

(** ** The collection importer, as [run] sees it *)

(** A piece of trace that holds no filesystem call and, of notifications,
    only child registrations. *)
Definition registering (t : list Effect) : Prop :=
  fs_ops t = [] /\ exists n, emitted t = repeat REGISTER_FILE n.

Section Collection.

Variable W : World.

Lemma wp_sequential_imports tasks : forall position s Q,
  (forall t r, emitted t = [] -> fs_ops t = [] -> Q t s r) ->
  wp (sequential_imports W position tasks) Q s.
Proof.
  induction tasks as [|call rest IH]; intros position s Q HQ;
    cbn [sequential_imports].
  - wp_step. apply HQ; reflexivity.
  - do 2 wp_step. destruct (bg_task W call).
    + wp_step. apply HQ; reflexivity.
    + apply IH. intros t r He Hf. apply HQ.
      * rewrite emitted_app, He. reflexivity.
      * rewrite fs_ops_app, Hf. reflexivity.
Qed.

Lemma wp_tell_workers positions : forall s (Q : _ -> _ -> result unit -> Prop),
  (forall t, emitted t = [] -> fs_ops t = [] -> Q t s (Ok tt)) ->
  wp (tell_all (map RunWorker positions)) Q s.
Proof.
  induction positions as [|i rest IH]; intros s Q HQ; cbn [map tell_all].
  - wp_step. apply HQ; reflexivity.
  - do 2 wp_step. apply IH. intros t He Hf. apply HQ.
    + rewrite emitted_app, He. reflexivity.
    + rewrite fs_ops_app, Hf. reflexivity.
Qed.

Lemma wp_dispatch tasks s Q :
  (forall t r, emitted t = [] -> fs_ops t = [] -> Q t s r) ->
  wp (dispatch W tasks) Q s.
Proof.
  intros HQ. unfold dispatch.
  destruct (negb (task_queue_enabled W)).
  - apply wp_sequential_imports. exact HQ.
  - unfold celery_block. do 4 wp_step.
    apply wp_tell_workers. intros t He Hf. cbv beta iota.
    destruct (snd (celery_group W tasks)).
    + wp_step. apply wp_sequential_imports. intros t' r He' Hf'.
      apply HQ.
      * rewrite !emitted_app, He, He'. reflexivity.
      * rewrite !fs_ops_app, Hf, Hf'. reflexivity.
    + wp_step. apply HQ.
      * rewrite !emitted_app, He. reflexivity.
      * rewrite !fs_ops_app, Hf. reflexivity.
Qed.

(** The tasks the loop over the children builds when no notification
    raises. *)
Definition build_tasks (cytomine : option CytomineOps) (task : Task)
    (prefer_copy : bool) (children : list Path) (tasks : list TaskCall)
    : list TaskCall :=
  fold_left (fun acc child => add_task cytomine task prefer_copy child acc)
    children tasks.

Lemma wp_register_children cytomine task prefer_copy children :
  forall tasks s (Q : _ -> _ -> result (list TaskCall) -> Prop),
  (forall t, registering t ->
     Q t s (Ok (build_tasks cytomine task prefer_copy children tasks))) ->
  (forall t e, registering t -> thrown (listeners s) e -> Q t s (Raise e)) ->
  wp (register_children cytomine task prefer_copy children tasks) Q s.
Proof.
  induction children as [|child rest IH]; intros tasks s Q Hok Hraise;
    cbn [register_children build_tasks fold_left].
  - wp_step. apply Hok. split; [reflexivity | exists 0; reflexivity].
  - do 4 wp_step.
    + apply IH.
      * intros t' (Hf & n & He). apply Hok. split.
        -- trace_norm. reflexivity.
        -- exists (S n). trace_norm. reflexivity.
      * intros t' e (Hf & n & He) Ht. apply Hraise; auto. split.
        -- trace_norm. reflexivity.
        -- exists (S n). trace_norm. reflexivity.
    + apply Hraise; auto. split.
      * trace_norm. reflexivity.
      * exists 1. trace_norm. reflexivity.
Qed.

Lemma wp_import_collection collection prefer_copy s
    (Q : _ -> _ -> result (list Path) -> Prop) :
  (forall t, registering t -> Q t s (Ok [])) ->
  (forall t e, registering t -> Q t s (Raise e)) ->
  wp (import_collection W collection prefer_copy) Q s.
Proof.
  intros Hok Hraise. unfold import_collection.
  do 3 wp_step. apply wp_register_children.
  - intros t (Hf & n & He). cbv beta iota. wp_step.
    apply wp_dispatch. intros t' r He' Hf'.
    assert (Hreg : registering ([] ++ t ++ t' ++ [])).
    { split.
      - rewrite !fs_ops_app, Hf, Hf'. reflexivity.
      - exists n. rewrite !emitted_app, He, He'. cbn. apply app_nil_r. }
    destruct r as [[]|e]; cbv beta iota.
    + wp_step. apply Hok. exact Hreg.
    + rewrite <- (app_nil_r t') at 1.
      change (Q ([] ++ t ++ t' ++ []) s (Raise e)). apply Hraise. exact Hreg.
  - intros t e Hreg _. cbv beta iota. apply Hraise.
    destruct Hreg as (Hf & n & He). split.
    + rewrite fs_ops_app. exact Hf.
    + exists n. rewrite emitted_app. exact He.
Qed.

End Collection.

(** ** Weakest preconditions over the events and the filesystem calls *)

(** [wpe m Q s]: [Q] holds of the events [m] notifies, the filesystem calls
    it makes, the importer it leaves and its outcome. *)
Definition wpe {A} (m : M A)
    (Q : list ImportEventType -> list FsOp -> FileImporter -> result A -> Prop)
    (s : FileImporter) : Prop :=
  Q (emitted (trace (m s))) (fs_ops (trace (m s))) (final (m s))
    (outcome (m s)).

Lemma wpe_ret A (a : A) Q s : Q [] [] s (Ok a) -> wpe (ret a) Q s.
Proof. exact (fun H => H). Qed.

Lemma wpe_raise A (e : exn) (Q : _ -> _ -> _ -> result A -> Prop) s :
  Q [] [] s (Raise e) -> wpe (raise e) Q s.
Proof. exact (fun H => H). Qed.

Lemma wpe_tell e Q s :
  Q (emitted [e]) (fs_ops [e]) s (Ok tt) -> wpe (tell e) Q s.
Proof. exact (fun H => H). Qed.

Lemma wpe_read A (f : FileImporter -> A) v Q s :
  f s = v -> Q [] [] s (Ok v) -> wpe (read f) Q s.
Proof. intros <-. exact (fun H => H). Qed.

Lemma wpe_modify f Q s : Q [] [] (f s) (Ok tt) -> wpe (modify f) Q s.
Proof. exact (fun H => H). Qed.

Lemma wpe_bind A B (m : M A) (k : A -> M B) Q s :
  wpe m (fun evs ops s' r =>
           match r with
           | Ok a =>
               wpe (k a)
                 (fun evs' ops' s'' r' => Q (evs ++ evs') (ops ++ ops') s'' r')
                 s'
           | Raise e => Q evs ops s' (Raise e)
           end) s ->
  wpe (bind m k) Q s.
Proof.
  unfold wpe, bind. destruct (outcome (m s)); cbn [trace final outcome]; auto.
  rewrite emitted_app, fs_ops_app. auto.
Qed.

Lemma wpe_try_except A (m : M A) (h : exn -> M A) Q s :
  wpe m (fun evs ops s' r =>
           match r with
           | Ok a => Q evs ops s' (Ok a)
           | Raise e =>
               wpe (h e)
                 (fun evs' ops' s'' r' => Q (evs ++ evs') (ops ++ ops') s'' r')
                 s'
           end) s ->
  wpe (try_except m h) Q s.
Proof.
  unfold wpe, try_except.
  destruct (m s) as [t s' [a|e]]; cbn [trace final outcome]; auto.
  rewrite emitted_app, fs_ops_app. auto.
Qed.

Lemma wpe_notify ls method args Q s :
  listeners s = ls ->
  Q [method] [] s (Ok tt) ->
  (forall e, thrown ls e -> Q [method] [] s (Raise e)) ->
  wpe (notify method args) Q s.
Proof.
  intros <- Hok Hraise. unfold wpe, notify. cbn [trace final outcome].
  destruct (deliver_chatter method args (listeners s)) as (He & Hf & _).
  pose proof (@deliver_thrown method args (listeners s)) as Ht.
  change (emitted (Notify method args :: ?t)) with (method :: emitted t).
  change (fs_ops (Notify method args :: ?t)) with (fs_ops t).
  rewrite He, Hf.
  destruct (snd (deliver method args (listeners s))); auto.
Qed.

Lemma wpe_import_collection W collection prefer_copy s
    (Q : _ -> _ -> _ -> result (list Path) -> Prop) :
  (forall n, Q (repeat REGISTER_FILE n) [] s (Ok [])) ->
  (forall n e, Q (repeat REGISTER_FILE n) [] s (Raise e)) ->
  wpe (import_collection W collection prefer_copy) Q s.
Proof.
  intros Hok Hraise.
  apply (@wp_import_collection W collection prefer_copy s
           (fun t s' r => Q (emitted t) (fs_ops t) s' r)).
  - intros t (-> & n & ->). apply Hok.
  - intros t e (-> & n & ->). apply Hraise.
Qed.

Ltac state_refl :=
  cbn [listeners pending_file pending_name upload_dir processed_dir
       extracted_dir upload_path original_path original spatial_path spatial
       histogram_path histogram
       set_upload_dir set_processed_dir set_extracted_dir set_upload_path
       set_original_path set_original set_spatial_path set_spatial
       set_histogram_path set_histogram new_importer];
  reflexivity.

(** One step into the method at the head of a [wpe] goal. *)
Ltac wpe_step :=
  lazymatch goal with
  | |- wpe (bind _ _) _ _ => apply wpe_bind
  | |- wpe (try_except _ _) _ _ => apply wpe_try_except
  | |- wpe (ret _) _ _ => apply wpe_ret; cbv beta iota
  | |- wpe (raise _) _ _ => apply wpe_raise; cbv beta iota
  | |- wpe (tell _) _ _ =>
      apply wpe_tell; cbn [emitted fs_ops flat_map app]; cbv beta iota
  | |- wpe (read _) _ _ => eapply wpe_read; [state_refl | cbv beta iota]
  | |- wpe (modify _) _ _ => apply wpe_modify; cbv beta iota
  | |- wpe (notify _ _) _ _ =>
      eapply wpe_notify;
      [state_refl | cbv beta iota | intros ?e ?Hthrown; cbv beta iota]
  | |- wpe (import_collection _ _ _) _ _ =>
      apply wpe_import_collection; [intros ?n | intros ?n ?e]; cbv beta iota
  | |- wpe (need _ _) _ _ => unfold need
  | |- wpe (lift _) _ _ => unfold lift
  | |- wpe (assert_ _) _ _ => unfold assert_
  | |- wpe (mkdir _ _) _ _ => unfold mkdir
  | |- wpe (move _ _ _ _) _ _ => unfold move
  | |- wpe (mksymlink _ _ _) _ _ => unfold mksymlink
  | |- wpe (deploy_spatial _ _) _ _ => unfold deploy_spatial
  | |- wpe (convert_block _ _) _ _ => unfold convert_block
  | |- wpe (deploy_histogram _ _) _ _ => unfold deploy_histogram
  | |- wpe (check_and_deploy _ _ _ _) _ _ => unfold check_and_deploy
  | |- wpe (unpack _ _ _ _ _ _) _ _ => unfold unpack
  | |- wpe (run_body _ _) _ _ => unfold run_body
  | |- wpe (run _ _) _ _ => unfold run
  | |- wpe (let x := ?v in @?b x) ?Q ?s =>
      change (wpe (b v) Q s); cbv beta
  | |- wpe (match ?x with _ => _ end) _ _ => destruct x eqn:?
  end.

(** Steps to the leaves; listeners are [quiet] when the context says so.
    [wpe_run_with tac] runs [tac] after each step, to use what is known of
    the world. *)
Ltac wpe_run := repeat (wpe_step; try not_thrown).

Ltac wpe_run_with tac := repeat (wpe_step; try not_thrown; tac).

Lemma filter_repeat_none A (p : A -> bool) x n :
  p x = false -> filter p (repeat x n) = [].
Proof. intros H. induction n; simpl; [|rewrite H]; auto. Qed.

(** * Properties *)

(** ** Notification of the listeners *)

Section Notify.

Variables (method : ImportEventType) (args : list Arg).




End Notify.




(** ** The pipeline: [run] *)

Lemma filter_nil_not_in (x : ImportEventType) (l : list ImportEventType) :
  filter (event_eqb x) l = [] -> ~ In x l.
Proof.
  intros H Hin.
  assert (Hf : In x (filter (event_eqb x) l)).
  { apply filter_In. split; [exact Hin|].
    unfold event_eqb. destruct (event_eq_dec x x); congruence. }
  rewrite H in Hf. exact Hf.
Qed.

Lemma quiet_stdout : quiet [Demo.stdout].
Proof. intros l method args [<-|[]]. reflexivity. Qed.

Section Run.

Variable W : World.

(** The pending file lies in the pending area, in the writing area, or
    comes from an extracted archive. *)
Definition sanctioned (pf : Path) : Prop :=
  is_extracted W pf = true
  \/ parent pf = PENDING_PATH W
  \/ parent pf = WRITING_PATH W.

Definition importable (pf : Path) : Prop :=
  sanctioned pf /\ path_exists W pf = true.

Lemma not_importable_false pf :
  not_importable W pf = false <-> importable pf.
Proof.
  unfold not_importable, importable, sanctioned.
  rewrite orb_false_iff, andb_false_iff, andb_false_iff, !negb_false_iff.
  rewrite !path_eqb_eq. tauto.
Qed.

Lemma not_importable_true pf :
  not_importable W pf = true <-> ~ importable pf.
Proof.
  rewrite <- not_importable_false.
  destruct (not_importable W pf); split; congruence.
Qed.

(** The upload directory and the upload path [run] computes. *)
Definition upload_dir_of : Path :=
  pjoin (FILE_ROOT_PATH W)
    [(UPLOAD_DIR_PREFIX W ++ unique_name_generator W)%string].

Definition upload_path_of (s : FileImporter) : Path :=
  pjoin upload_dir_of [upload_name (pending_name s) (pending_file s)].

Definition processed_dir_of : Path := pjoin upload_dir_of [PROCESSED_DIR W].

(** Whatever the listeners do, a refused pending file leaves the filesystem
    alone and [run] raises. *)
Lemma run_refusal_makes_no_filesystem_call prefer_copy s :
  ~ importable (pending_file s) ->
  fs_ops (trace (run W prefer_copy s)) = []
  /\ exists e, outcome (run W prefer_copy s) = Raise e.
Proof.
  intros H. apply not_importable_true in H.
  change (wpe (run W prefer_copy)
            (fun _ ops _ r => ops = [] /\ exists e, r = Raise e) s).
  do 7 wpe_step; try rewrite H; wpe_run; split; eauto.
Qed.

(** C5, as the code has it: when no handler of a listener raises anything
    but [AttributeError], a pending file that does not exist or lies in no
    sanctioned area makes [run] raise [FilepathNotFoundProblem], after the
    events START_DATA_EXTRACTION, FILE_NOT_FOUND and FILE_ERROR and without
    any filesystem call, the importer's upload directory and path still
    unset; a pending file that exists in a sanctioned area passes: no
    FILE_NOT_FOUND is notified and the first filesystem call makes the
    upload directory. *)
Theorem run_validates_pending_file prefer_copy s :
  quiet (listeners s) ->
  let pf := pending_file s in
  let r := run W prefer_copy s in
  (~ importable pf ->
     outcome r = Raise (FilepathNotFoundProblem pf)
     /\ fs_ops (trace r) = []
     /\ emitted (trace r) = [START_DATA_EXTRACTION; FILE_NOT_FOUND; FILE_ERROR]
     /\ upload_dir (final r) = upload_dir s
     /\ upload_path (final r) = upload_path s)
  /\ (importable pf ->
        ~ In FILE_NOT_FOUND (emitted (trace r))
        /\ exists rest, fs_ops (trace r) = OpMkdir upload_dir_of :: rest).
Proof.
  intros Hq pf r. split.
  - intros H. apply not_importable_true in H. subst pf r.
    change (wpe (run W prefer_copy)
              (fun evs ops s' r =>
                 r = Raise (FilepathNotFoundProblem (pending_file s))
                 /\ ops = []
                 /\ evs = [START_DATA_EXTRACTION; FILE_NOT_FOUND; FILE_ERROR]
                 /\ upload_dir s' = upload_dir s
                 /\ upload_path s' = upload_path s) s).
    do 7 wpe_step; try rewrite H; wpe_run. auto.
  - intros H. apply not_importable_false in H. subst pf r.
    enough (Hwp : wpe (run W prefer_copy)
              (fun evs ops _ _ =>
                 filter (event_eqb FILE_NOT_FOUND) evs = []
                 /\ exists rest, ops = OpMkdir upload_dir_of :: rest) s).
    { destruct Hwp as (Hf & Hops). split; [|exact Hops].
      apply filter_nil_not_in. exact Hf. }
    do 7 wpe_step; try rewrite H; wpe_run.
    all: split;
      [ simpl; rewrite ?filter_app, ?filter_repeat_none by reflexivity;
        reflexivity
      | eexists; reflexivity ].
Qed.

End Run.

(** A file outside the pending and writing areas is refused; a file in the
    pending area goes through. *)
Lemma run_validates_pending_file_witness :
  let s := new_importer Demo.stray None (Some [Demo.stdout]) in
  let s' := new_importer Demo.slide None (Some [Demo.stdout]) in
  (quiet (listeners s)
   /\ ~ importable Demo.all_tiff (pending_file s)
   /\ outcome (run Demo.all_tiff false s)
      = Raise (FilepathNotFoundProblem Demo.stray)
   /\ fs_ops (trace (run Demo.all_tiff false s)) = [])
  /\ (quiet (listeners s')
      /\ importable Demo.all_tiff (pending_file s')
      /\ ~ In FILE_NOT_FOUND (emitted (trace (run Demo.all_tiff false s')))).
Proof.
  cbv zeta.
  assert (Hno : ~ importable Demo.all_tiff Demo.stray).
  { intros [[H|[H|H]] _]; discriminate H. }
  assert (Hyes : importable Demo.all_tiff Demo.slide).
  { split; [right; left|]; reflexivity. }
  split.
  - split; [exact quiet_stdout|]. split; [exact Hno|].
    destruct (@run_validates_pending_file Demo.all_tiff false
                (new_importer Demo.stray None (Some [Demo.stdout]))
                quiet_stdout) as [H _].
    destruct (H Hno) as (H1 & H2 & _). split; assumption.
  - split; [exact quiet_stdout|]. split; [exact Hyes|].
    destruct (@run_validates_pending_file Demo.all_tiff false
                (new_importer Demo.slide None (Some [Demo.stdout]))
                quiet_stdout) as [_ H].
    destruct (H Hyes) as (H1 & _). exact H1.
Defined.

(** C5 as the specification has it fails: the handler of a listener for
    FILE_NOT_FOUND raises, and [run] raises that exception instead of
    [FilepathNotFoundProblem]. *)
Lemma run_file_not_found_lost_to_listener :
  let s := new_importer Demo.stray None
             (Some [Demo.faulty_on FILE_NOT_FOUND (OtherException "offline")]) in
  ~ importable Demo.all_tiff (pending_file s)
  /\ outcome (run Demo.all_tiff false s) = Raise (OtherException "offline")
  /\ outcome (run Demo.all_tiff false s)
     <> Raise (FilepathNotFoundProblem Demo.stray).
Proof.
  cbv zeta. split; [|split].
  - intros [[H|[H|H]] _]; discriminate H.
  - reflexivity.
  - discriminate.
Qed.

Section Relocation.

Variable W : World.


End Relocation.



(** ** The events of a run *)

(** [l] ends with [suffix]. *)
Definition has_suffix {A} (suffix l : list A) : Prop :=
  exists before, l = before ++ suffix.

Lemma has_suffix_refl A (l : list A) : has_suffix l l.
Proof. exists []. reflexivity. Qed.

Lemma has_suffix_cons A (a : A) suffix l :
  has_suffix suffix l -> has_suffix suffix (a :: l).
Proof. intros [before ->]. exists (a :: before). reflexivity. Qed.

Lemma has_suffix_app A (l1 : list A) suffix l :
  has_suffix suffix l -> has_suffix suffix (l1 ++ l).
Proof. intros [before ->]. exists (l1 ++ before). apply app_assoc. Qed.

Ltac suffix :=
  solve [repeat first [ apply has_suffix_refl
                      | apply has_suffix_app
                      | apply has_suffix_cons ]].

(** The events of spatial and histogram deployment. *)
Definition deployment_event (ev : ImportEventType) : bool :=
  match ev with
  | START_SPATIAL_DEPLOY | END_SPATIAL_DEPLOY
  | START_CONVERSION | END_CONVERSION | ERROR_CONVERSION
  | START_HISTOGRAM_DEPLOY | END_HISTOGRAM_DEPLOY | ERROR_HISTOGRAM => true
  | _ => false
  end.

(** The filesystem calls of spatial and histogram deployment that make a
    new artifact. *)
Definition deployment_op (op : FsOp) : bool :=
  match op with
  | OpConvert _ | OpHistogram _ => true
  | _ => false
  end.

(** Normal form of the events at a leaf. *)
Ltac events :=
  simpl; rewrite ?filter_app, ?filter_repeat_none by reflexivity; simpl.

Section Events.

Variable W : World.

(** C10, as the code has it: when format detection on the upload path
    gives a format that is not spatial (so no archive is looked for), no
    event and no artifact of spatial or histogram deployment occurs and
    [run] never returns normally; and when moreover the integrity check of
    the original ended well and no handler of a listener raises, [run]
    raises [NotImplementedError], the only event after END_INTEGRITY_CHECK
    being the FILE_ERROR of the handler of [run]. *)
Theorem run_raises_not_implemented_for_non_spatial_format prefer_copy s f :
  importable_match W (upload_path_of W s) = Some f ->
  is_spatial f = false ->
  let r := run W prefer_copy s in
  filter deployment_event (emitted (trace r)) = []
  /\ filter deployment_op (fs_ops (trace r)) = []
  /\ (forall paths, outcome r <> Ok paths)
  /\ (quiet (listeners s) ->
      In END_INTEGRITY_CHECK (emitted (trace r)) ->
      outcome r = Raise NotImplementedError
      /\ has_suffix [END_INTEGRITY_CHECK; FILE_ERROR] (emitted (trace r))).
Proof.
  intros Hm Hsp r. subst r. unfold upload_path_of, upload_dir_of in Hm.
  change (wpe (run W prefer_copy)
            (fun evs ops _ r =>
               filter deployment_event evs = []
               /\ filter deployment_op ops = []
               /\ (forall paths, r <> Ok paths)
               /\ (quiet (listeners s) ->
                   In END_INTEGRITY_CHECK evs ->
                   r = Raise NotImplementedError
                   /\ has_suffix [END_INTEGRITY_CHECK; FILE_ERROR] evs)) s).
  destruct prefer_copy;
    wpe_run_with ltac:(rewrite ?Hm, ?Hsp; cbv beta iota).
  all: split; [reflexivity|]; split; [reflexivity|];
    split; [discriminate|]; intros Hq Hin;
    first [ not_thrown
          | exfalso; simpl in Hin; intuition discriminate
          | split; [reflexivity | cbn [app]; suffix] ].
Qed.

(** C1, as the code has it, for any listeners. When [run] returns, either
    it imported one image, notified END_SUCCESSFUL_IMPORT once and no
    FILE_ERROR, and returns the upload path; or it imported a collection,
    END_UNPACKING is its last event, it notified no terminal event at all
    and returns the empty list. When [run] raises, its last event is the
    FILE_ERROR of its own handler, and at most one terminal event comes
    before it: the FILE_ERROR that a failed [mkdir] or [mksymlink] notifies
    itself, or END_SUCCESSFUL_IMPORT when a listener raised on it. *)
Theorem run_terminal_events prefer_copy s :
  let r := run W prefer_copy s in
  match outcome r with
  | Ok paths =>
      (terminal_events (trace r) = [END_SUCCESSFUL_IMPORT]
       /\ exists up, upload_path (final r) = Some up /\ paths = [up])
      \/ (terminal_events (trace r) = []
          /\ paths = []
          /\ has_suffix [END_UNPACKING] (emitted (trace r)))
  | Raise e =>
      (terminal_events (trace r) = [FILE_ERROR]
       \/ terminal_events (trace r) = [FILE_ERROR; FILE_ERROR]
       \/ (terminal_events (trace r) = [END_SUCCESSFUL_IMPORT; FILE_ERROR]
           /\ thrown (listeners s) e))
      /\ has_suffix [FILE_ERROR] (emitted (trace r))
  end.
Proof.
  intros r. subst r. unfold terminal_events.
  change (wpe (run W prefer_copy)
            (fun evs _ s' r =>
               match r with
               | Ok paths =>
                   (filter is_terminal evs = [END_SUCCESSFUL_IMPORT]
                    /\ exists up, upload_path s' = Some up /\ paths = [up])
                   \/ (filter is_terminal evs = []
                       /\ paths = []
                       /\ has_suffix [END_UNPACKING] evs)
               | Raise e =>
                   (filter is_terminal evs = [FILE_ERROR]
                    \/ filter is_terminal evs = [FILE_ERROR; FILE_ERROR]
                    \/ (filter is_terminal evs
                        = [END_SUCCESSFUL_IMPORT; FILE_ERROR]
                        /\ thrown (listeners s) e))
                   /\ has_suffix [FILE_ERROR] evs
               end) s).
  wpe_run.
  all: cbn [app];
    first
      [ (* a raise *)
        split;
        [ events;
          first [ left; reflexivity
                | right; left; reflexivity
                | right; right; split; [reflexivity | assumption] ]
        | suffix ]
      | (* one image *)
        left; split; [reflexivity | eexists; split; [state_refl | reflexivity]]
      | (* a collection *)
        right; split; [events; reflexivity | split; [reflexivity | suffix]] ].
Qed.

End Events.

(** A run that imports a collection ends without a terminal event, and a
    run that cannot make its upload directory notifies FILE_ERROR twice:
    C1 as the specification has it fails both ways. *)
Lemma run_terminal_events_not_exactly_one :
  let archive := new_importer ["tmp"; "uploaded"; "a.zip"] None
                   (Some [Demo.stdout]) in
  let w := Demo.archives_of false [Demo.child; Demo.child] (fun _ => None)
             (fun _ => ([], None)) in
  let slide := new_importer Demo.slide None (Some [Demo.stdout]) in
  (outcome (run w false archive) = Ok []
   /\ terminal_events (trace (run w false archive)) = []
   /\ emitted (trace (run w false archive))
      = [START_DATA_EXTRACTION; MOVED_PENDING_FILE; END_DATA_EXTRACTION;
         START_FORMAT_DETECTION; END_FORMAT_DETECTION; START_UNPACKING;
         REGISTER_FILE; REGISTER_FILE; END_UNPACKING])
  /\ (outcome (run Demo.read_only false slide)
      = Raise (FileErrorProblem (Some ["data"; "upload0"]))
      /\ terminal_events (trace (run Demo.read_only false slide))
         = [FILE_ERROR; FILE_ERROR]).
Proof.
  cbv zeta. repeat split; vm_compute; reflexivity.
Qed.

(** A file of a format that is not spatial, in the pending area. *)
Lemma run_raises_not_implemented_for_non_spatial_format_witness :
  let s := new_importer Demo.slide None (Some [Demo.stdout]) in
  let r := run Demo.all_plot false s in
  outcome r = Raise NotImplementedError
  /\ filter deployment_event (emitted (trace r)) = []
  /\ has_suffix [END_INTEGRITY_CHECK; FILE_ERROR] (emitted (trace r)).
Proof.
  cbv zeta.
  destruct (@run_raises_not_implemented_for_non_spatial_format Demo.all_plot
              false (new_importer Demo.slide None (Some [Demo.stdout]))
              Demo.plot eq_refl eq_refl) as (Hev & _ & _ & Hraise).
  assert (Hin : In END_INTEGRITY_CHECK
                  (emitted (trace (run Demo.all_plot false
                     (new_importer Demo.slide None (Some [Demo.stdout])))))).
  { match goal with
    | |- In _ ?evs =>
        assert (Hevs : evs
                       = [START_DATA_EXTRACTION; MOVED_PENDING_FILE;
                          END_DATA_EXTRACTION; START_FORMAT_DETECTION;
                          END_FORMAT_DETECTION; START_INTEGRITY_CHECK;
                          END_INTEGRITY_CHECK; FILE_ERROR])
          by (vm_compute; reflexivity)
    end.
    rewrite Hevs. simpl. tauto. }
  destruct (Hraise quiet_stdout Hin) as (Ho & Hs).
  split; [exact Ho|]. split; [exact Hev | exact Hs].
Defined.

(** C10 as the specification has it fails: the handler of a listener for
    FILE_ERROR raises, and [run] raises that exception, not
    [NotImplementedError]. *)
Lemma run_not_implemented_lost_to_listener :
  let s := new_importer Demo.slide None
             (Some [Demo.faulty_on FILE_ERROR (OtherException "offline")]) in
  let r := run Demo.all_plot false s in
  importable_match Demo.all_plot (upload_path_of Demo.all_plot s)
  = Some Demo.plot
  /\ is_spatial Demo.plot = false
  /\ emitted (trace r)
     = [START_DATA_EXTRACTION; MOVED_PENDING_FILE; END_DATA_EXTRACTION;
        START_FORMAT_DETECTION; END_FORMAT_DETECTION; START_INTEGRITY_CHECK;
        END_INTEGRITY_CHECK; FILE_ERROR]
  /\ outcome r = Raise (OtherException "offline")
  /\ outcome r <> Raise NotImplementedError.
Proof.
  cbv zeta.
  assert (Ho : outcome (run Demo.all_plot false
                 (new_importer Demo.slide None
                    (Some [Demo.faulty_on FILE_ERROR (OtherException "offline")])))
               = Raise (OtherException "offline"))
    by (vm_compute; reflexivity).
  split; [reflexivity|]. split; [reflexivity|].
  split; [vm_compute; reflexivity|]. split; [exact Ho|].
  rewrite Ho. discriminate.
Qed.

(** ** Spatial deployment *)

Section Spatial.

Variable W : World.

Definition spatial_path_of (pd : Path) (ext : string) : Path :=
  pjoin pd [stem_dot (SPATIAL_STEM W) ext].

(** The conversion of [f] to a spatial file under [pd] fails: the
    conversion raises (when asked for its target format, or converting),
    reports failure, or leaves no file at the target path. *)
Inductive conversion_failure (f : Format) (pd : Path) : Prop :=
| no_conversion_format e :
    conversion_identifier f = Raise e -> conversion_failure f pd
| convert_raises ext e :
    conversion_identifier f = Ok ext ->
    convert f (spatial_path_of pd ext) = Raise e ->
    conversion_failure f pd
| convert_reports_failure ext :
    conversion_identifier f = Ok ext ->
    convert f (spatial_path_of pd ext) = Ok false ->
    conversion_failure f pd
| target_missing ext :
    conversion_identifier f = Ok ext ->
    convert f (spatial_path_of pd ext) = Ok true ->
    path_exists W (spatial_path_of pd ext) = false ->
    conversion_failure f pd.

Ltac conversion_failed :=
  first [ eapply no_conversion_format; eassumption
        | eapply convert_raises; eassumption
        | eapply convert_reports_failure; eassumption
        | eapply target_missing; eassumption ].

Ltac conversion_succeeded Hf :=
  destruct Hf; unfold spatial_path_of in *; congruence.

(** C6, as the code has it: when no handler of a listener raises and the
    processed directory is set (as [run] leaves it), [deploy_spatial] of a
    format that needs conversion raises [FormatConversionProblem] exactly
    when the conversion fails; and when the conversion succeeds and the
    converted file matches no spatially readable format it raises
    [NoMatchingFormatProblem] of the spatial path. *)
Theorem deploy_spatial_conversion_problem f s pd :
  quiet (listeners s) ->
  processed_dir s = Some pd ->
  need_conversion f = true ->
  let r := deploy_spatial W f s in
  (outcome r = Raise FormatConversionProblem <-> conversion_failure f pd)
  /\ (forall ext,
        conversion_identifier f = Ok ext ->
        convert f (spatial_path_of pd ext) = Ok true ->
        path_exists W (spatial_path_of pd ext) = true ->
        spatial_readable_match W (spatial_path_of pd ext) = None ->
        outcome r
        = Raise (NoMatchingFormatProblem (Some (spatial_path_of pd ext)))).
Proof.
  intros Hq Hpd Hneed r. subst r.
  change (wpe (deploy_spatial W f)
    (fun _ _ _ r =>
       (r = Raise FormatConversionProblem <-> conversion_failure f pd)
       /\ (forall ext,
             conversion_identifier f = Ok ext ->
             convert f (spatial_path_of pd ext) = Ok true ->
             path_exists W (spatial_path_of pd ext) = true ->
             spatial_readable_match W (spatial_path_of pd ext) = None ->
             r = Raise (NoMatchingFormatProblem
                          (Some (spatial_path_of pd ext))))) s).
  wpe_run_with ltac:(rewrite ?Hneed, ?Hpd; cbv beta iota).
  all: repeat match goal with
       | H : negb _ || negb _ = true |- _ =>
           apply orb_true_iff in H; rewrite !negb_true_iff in H
       | H : negb _ || negb _ = false |- _ =>
           apply orb_false_iff in H; rewrite !negb_false_iff in H;
           destruct H; subst
       | H : Ok _ = Ok _ |- _ => injection H as <-
       end.
  all: split;
    [ split;
      [ first
          [ discriminate
          | intros _;
            first
              [ conversion_failed
              | match goal with
                | H : _ = false \/ _ = false |- _ =>
                    destruct H as [->|H]; [conversion_failed|]
                end;
                match goal with
                | H : convert _ _ = Ok ?b |- _ =>
                    destruct b; conversion_failed
                end ] ]
      | first [ reflexivity | intros Hf; exfalso; conversion_succeeded Hf ] ]
    | intros ext H1 H2 H3 H4;
      first [ discriminate H1
            | injection H1 as <-;
              first [ reflexivity
                    | exfalso; unfold spatial_path_of in *;
                      match goal with
                      | H : _ = false \/ _ = false |- _ => destruct H
                      end; congruence
                    | exfalso; unfold spatial_path_of in *; congruence ] ] ].
Qed.

End Spatial.

(** A conversion that reports failure. *)
Lemma deploy_spatial_conversion_problem_witness :
  let s := Demo.deploying [Demo.stdout] in
  conversion_failure Demo.all_tiff Demo.jpeg_failing
    ["data"; "upload0"; "processed"]
  /\ outcome (deploy_spatial Demo.all_tiff Demo.jpeg_failing s)
     = Raise FormatConversionProblem.
Proof.
  cbv zeta.
  assert (Hfail : conversion_failure Demo.all_tiff Demo.jpeg_failing
                    ["data"; "upload0"; "processed"]).
  { eapply convert_reports_failure; reflexivity. }
  split; [exact Hfail|].
  destruct (@deploy_spatial_conversion_problem Demo.all_tiff Demo.jpeg_failing
              (Demo.deploying [Demo.stdout]) ["data"; "upload0"; "processed"]
              quiet_stdout eq_refl eq_refl) as ((_ & H) & _).
  exact (H Hfail).
Defined.

(** C6 as the specification has it fails: the conversion would succeed,
    but the handler of a listener for START_CONVERSION raises inside the
    [try] block, before the conversion is called, and [deploy_spatial]
    raises [FormatConversionProblem]. *)
Lemma deploy_spatial_conversion_problem_without_failure :
  let s := Demo.deploying
             [Demo.faulty_on START_CONVERSION (OtherException "offline")] in
  let r := deploy_spatial Demo.all_tiff Demo.jpeg s in
  need_conversion Demo.jpeg = true
  /\ ~ conversion_failure Demo.all_tiff Demo.jpeg
        ["data"; "upload0"; "processed"]
  /\ fs_ops (trace r) = []
  /\ outcome r = Raise FormatConversionProblem.
Proof.
  cbv zeta. split; [reflexivity|]. split.
  - intros H. destruct H as [e H|ext e _ H|ext _ H|ext _ _ H];
      discriminate H.
  - split; vm_compute; reflexivity.
Qed.

(** *** The filesystem under the importer *)

(** A place in the filesystem: the names from the root down. *)
Definition Place : Type := list string.

(** A path is absolute when its first component is the root. *)
Definition absolute (p : Path) : bool :=
  match p with
  | root :: _ => String.eqb root "/"
  | [] => false
  end.

(** What a place holds: the bytes of a file, or a link with its target as
    it was given to [symlink_to]. *)
Inductive Node : Type :=
| File (content : list Byte.byte)
| Link (target : Path).

(** The files and links of a filesystem. Directories hold no bytes and are
    not listed; the paths are without [..] and their directories are no
    links. *)
Definition FileSystem : Type := Place -> option Node.

(** The place a path names for a process that works in [cwd]. *)
Definition place (cwd : Place) (p : Path) : Place :=
  if absolute p then tl p else cwd ++ p.


(** The filesystem after [path.symlink_to(target)] returned:
    [os.symlink(target, path)] stores the target as it is given. *)
Definition symlink_to (cwd : Place) (fs : FileSystem) (path target : Path)
    : FileSystem :=
  fun q => if path_eqb q (place cwd path) then Some (Link target) else fs q.



(** The filesystem calls of a trace, each with its failure. *)
Definition calls (t : list Effect) : list (FsOp * option exn) :=
  flat_map (fun e => match e with
                     | Fs op failure => [(op, failure)]
                     | _ => []
                     end) t.

(** The filesystem after the calls. A link that was made is there; a link
    that could not be made and a directory change no file. What a move, a
    copy, an extraction, a conversion or a histogram writes is not the
    importer's to say: there is no answer after one of them. *)
Fixpoint after (cwd : Place) (fs : FileSystem)
    (cs : list (FsOp * option exn)) : option FileSystem :=
  match cs with
  | [] => Some fs
  | (OpSymlink path target, None) :: rest =>
      after cwd (symlink_to cwd fs path target) rest
  | (OpSymlink _ _, Some _) :: rest => after cwd fs rest
  | (OpMkdir _, _) :: rest => after cwd fs rest
  | _ => None
  end.








Section SpatialLink.

Variable W : World.



End SpatialLink.






(** ** The collection importer *)

Definition task_path (call : TaskCall) : Path :=
  match snd call with
  | ImportArgs filepath _ _ => filepath
  | CytomineImportArgs _ filepath _ _ _ => filepath
  end.

(** The tasks run in-process, with their positions, in order. *)
Definition local_calls (t : list Effect) : list (nat * TaskCall) :=
  flat_map (fun e => match e with RunLocal i c => [(i, c)] | _ => [] end) t.

Lemma local_calls_app t u : local_calls (t ++ u) = local_calls t ++ local_calls u.
Proof. apply flat_map_app. Qed.

Lemma local_runs_calls t : local_runs t = map fst (local_calls t).
Proof.
  induction t as [|e t IH]; [reflexivity|].
  destruct e; cbn [local_runs local_calls flat_map app map fst];
    fold (local_runs t); fold (local_calls t); rewrite IH; reflexivity.
Qed.

Lemma count_occ_seq start len i :
  count_occ Nat.eq_dec (seq start len) i
  = if (start <=? i) && (i <? start + len) then 1 else 0.
Proof.
  revert start. induction len as [|len IH]; intros start; cbn [seq count_occ].
  - destruct (start <=? i) eqn:E1; cbn [andb]; [|reflexivity].
    destruct (i <? start + 0) eqn:E2; [|reflexivity].
    apply Nat.leb_le in E1. apply Nat.ltb_lt in E2. lia.
  - rewrite IH. destruct (Nat.eq_dec start i) as [->|Hne].
    + rewrite Nat.leb_refl.
      replace (S i <=? i) with false by (symmetry; apply Nat.leb_gt; lia).
      replace (i <? i + S len) with true by (symmetry; apply Nat.ltb_lt; lia).
      reflexivity.
    + destruct (start <=? i) eqn:E1, (S start <=? i) eqn:E2;
        destruct (i <? S start + len) eqn:E3, (i <? start + S len) eqn:E4;
        cbn [andb]; try reflexivity; exfalso;
        rewrite ?Nat.leb_le, ?Nat.leb_gt, ?Nat.ltb_lt, ?Nat.ltb_ge in *; lia.
Qed.

Lemma combine_app A B (l1 : list A) : forall (l1' : list B) l2 l2',
  List.length l1 = List.length l1' ->
  combine (l1 ++ l2) (l1' ++ l2') = combine l1 l1' ++ combine l2 l2'.
Proof.
  induction l1 as [|a l1 IH]; intros [|b l1'] l2 l2' Hlen;
    try discriminate Hlen; [reflexivity|].
  cbn [app combine]. rewrite IH; [reflexivity|].
  injection Hlen as Hlen. exact Hlen.
Qed.

Section Dispatch.

Variable W : World.





(** The tasks in [ran] are run in-process from [position] on, one after
    the other. *)
Definition run_locally (position : nat) (ran : list TaskCall)
    : list (nat * TaskCall) :=
  combine (seq position (List.length ran)) ran.

Lemma sequential_imports_done done : forall position tail s,
  (forall call, In call done -> bg_task W call = None) ->
  let r := sequential_imports W position (done ++ tail) s in
  let r' := sequential_imports W (position + List.length done) tail s in
  local_calls (trace r) = run_locally position done ++ local_calls (trace r')
  /\ worker_runs (trace r) = worker_runs (trace r')
  /\ outcome r = outcome r'.
Proof.
  induction done as [|call done IH]; intros position tail s Hok.
  - cbn [app List.length]. rewrite Nat.add_0_r. cbv zeta. auto.
  - cbn [app sequential_imports].
    rewrite (Hok call (or_introl eq_refl)).
    destruct (IH (S position) tail s) as (H1 & H2 & H3).
    { intros c Hc. apply Hok. right. exact Hc. }
    cbv zeta in *. cbn [List.length]. rewrite Nat.add_succ_r.
    cbn [bind tell trace final outcome].
    change (local_calls ([RunLocal position call] ++ ?t))
      with ((position, call) :: local_calls t).
    change (worker_runs ([RunLocal position call] ++ ?t)) with (worker_runs t).
    rewrite H1, H2, H3. auto.
Qed.

(** Where the sequential path ends: after all of [done] when [stop] is
    [None], at the task of [stop] that raises otherwise. *)
Definition batch (done : list TaskCall) (stop : option (TaskCall * exn))
    (rest : list TaskCall) : list TaskCall :=
  done ++ match stop with Some (bad, _) => bad :: rest | None => [] end.

Definition ran (done : list TaskCall) (stop : option (TaskCall * exn))
    : list TaskCall :=
  done ++ match stop with Some (bad, _) => [bad] | None => [] end.

Definition ending (stop : option (TaskCall * exn)) : result unit :=
  match stop with Some (_, e) => Raise e | None => Ok tt end.

Lemma sequential_imports_spec done stop rest s position :
  (forall call, In call done -> bg_task W call = None) ->
  (forall bad e, stop = Some (bad, e) -> bg_task W bad = Some e) ->
  let r := sequential_imports W position (batch done stop rest) s in
  local_calls (trace r) = run_locally position (ran done stop)
  /\ worker_runs (trace r) = []
  /\ outcome r = ending stop.
Proof.
  intros Hdone Hstop. unfold batch, ran.
  destruct (@sequential_imports_done done position
              (match stop with Some (bad, _) => bad :: rest | None => [] end)
              s Hdone) as (H1 & H2 & H3).
  cbv zeta in *. rewrite H1, H2, H3. clear H1 H2 H3.
  unfold run_locally. rewrite length_app, seq_app, combine_app
    by apply length_seq.
  destruct stop as [[bad e]|]; cbn [sequential_imports ending].
  - rewrite (Hstop bad e eq_refl). cbn. auto.
  - cbn. auto.
Qed.

Lemma tell_all_run es s :
  tell_all es s = {| trace := es; final := s; outcome := Ok tt |}.
Proof.
  induction es as [|e es IH]; [reflexivity|].
  cbn [tell_all]. unfold bind. cbn [tell outcome final trace].
  rewrite IH. reflexivity.
Qed.

Lemma worker_runs_workers positions :
  worker_runs (map RunWorker positions) = positions.
Proof.
  induction positions as [|i rest IH]; [reflexivity|].
  cbn [map]. change (worker_runs (RunWorker i :: ?t)) with (i :: worker_runs t).
  rewrite IH. reflexivity.
Qed.

Lemma local_calls_workers positions :
  local_calls (map RunWorker positions) = [].
Proof. induction positions as [|i rest IH]; [reflexivity|exact IH]. Qed.

Lemma map_fst_run_locally position tasks :
  map fst (run_locally position tasks) = seq position (List.length tasks).
Proof.
  unfold run_locally. revert position.
  induction tasks as [|call rest IH]; intros position; [reflexivity|].
  cbn [List.length seq combine map fst]. rewrite IH. reflexivity.
Qed.

(** C4, as the code has it. The batch is [done], whose tasks return,
    followed, when [stop] is [Some (bad, e)], by the first task that raises
    and the [rest]. With the task queue disabled the tasks run in-process
    in listing order up to and including [bad], whose exception leaves the
    call. With the queue enabled the workers run what they run; if
    submission or join raises nothing, nothing runs in-process; if it
    raises, the whole batch is run in-process in the same way, whatever the
    workers ran. So every task runs exactly once when no task raises
    in-process and either the queue is disabled or the failed dispatch ran
    no task. *)
Theorem dispatch_runs_the_batch_sequentially done stop rest s :
  (forall call, In call done -> bg_task W call = None) ->
  (forall bad e, stop = Some (bad, e) -> bg_task W bad = Some e) ->
  let tasks := batch done stop rest in
  let r := dispatch W tasks s in
  (task_queue_enabled W = false ->
     local_calls (trace r) = run_locally 0 (ran done stop)
     /\ worker_runs (trace r) = []
     /\ outcome r = ending stop)
  /\ (task_queue_enabled W = true ->
      worker_runs (trace r) = fst (celery_group W tasks)
      /\ (snd (celery_group W tasks) = None ->
          local_calls (trace r) = [] /\ outcome r = Ok tt)
      /\ (snd (celery_group W tasks) <> None ->
          local_calls (trace r) = run_locally 0 (ran done stop)
          /\ outcome r = ending stop))
  /\ (stop = None ->
      task_queue_enabled W = false
      \/ (snd (celery_group W tasks) <> None
          /\ fst (celery_group W tasks) = []) ->
      forall i, i < List.length tasks -> executions i (trace r) = 1).
Proof.
  intros Hdone Hstop tasks r.
  destruct (@sequential_imports_spec done stop rest s 0 Hdone Hstop)
    as (Hl & Hw & Ho).
  cbv zeta in Hl, Hw, Ho. fold tasks in Hl, Hw, Ho.
  assert (Hoff : task_queue_enabled W = false ->
            local_calls (trace r) = run_locally 0 (ran done stop)
            /\ worker_runs (trace r) = []
            /\ outcome r = ending stop).
  { intros Hq. subst r. unfold dispatch. rewrite Hq. cbn [negb]. auto. }
  assert (Hon : task_queue_enabled W = true ->
            worker_runs (trace r) = fst (celery_group W tasks)
            /\ (snd (celery_group W tasks) = None ->
                local_calls (trace r) = [] /\ outcome r = Ok tt)
            /\ (snd (celery_group W tasks) <> None ->
                local_calls (trace r) = run_locally 0 (ran done stop)
                /\ outcome r = ending stop)).
  { intros Hq. subst r. unfold dispatch. rewrite Hq. cbn [negb].
    unfold try_except, celery_block, bind.
    cbn [tell outcome final trace]. rewrite tell_all_run.
    cbn [outcome final trace].
    destruct (snd (celery_group W tasks)) as [e|];
      cbn [raise ret outcome final trace].
    - rewrite !worker_runs_app, !local_calls_app, Hw, Hl, Ho.
      rewrite worker_runs_workers, local_calls_workers.
      cbn. rewrite !app_nil_r.
      split; [reflexivity|]. split; [discriminate|]. auto.
    - rewrite !worker_runs_app, !local_calls_app.
      rewrite worker_runs_workers, local_calls_workers.
      cbn. rewrite !app_nil_r.
      split; [reflexivity|]. split; [auto|].
      intros Habs. contradiction Habs. reflexivity. }
  split; [exact Hoff|]. split; [exact Hon|].
  intros -> Hcase i Hi. unfold executions.
  assert (Hran : ran done None = tasks).
  { unfold ran, tasks, batch. reflexivity. }
  assert (Hruns : local_calls (trace r) = run_locally 0 tasks
                  /\ worker_runs (trace r) = []).
  { rewrite <- Hran. destruct Hcase as [Hq|(Hraise & Hnone)].
    - destruct (Hoff Hq) as (H1 & H2 & _). auto.
    - destruct (task_queue_enabled W) eqn:Hq.
      + destruct (Hon eq_refl) as (H1 & _ & H3).
        destruct (H3 Hraise) as (H4 & _). rewrite H1, Hnone. auto.
      + destruct (Hoff eq_refl) as (H1 & H2 & _). auto. }
  destruct Hruns as (Hlc & Hwr).
  rewrite Hwr, local_runs_calls, Hlc, map_fst_run_locally, count_occ_seq.
  cbn [count_occ Nat.add Nat.leb andb].
  apply Nat.ltb_lt in Hi. rewrite Hi. reflexivity.
Qed.






End Dispatch.




(** Two tasks, the broker down: both run once, in-process. *)
Lemma dispatch_runs_the_batch_sequentially_witness :
  let w := Demo.archives_of true [] (fun _ => None)
             (fun _ => ([], Some OSError)) in
  let tasks := [(IMPORT, ImportArgs Demo.child "a.tif" false);
                (IMPORT, ImportArgs Demo.child2 "b.tif" false)] in
  let r := dispatch w tasks (Demo.deploying [Demo.stdout]) in
  local_calls (trace r) = [(0, (IMPORT, ImportArgs Demo.child "a.tif" false));
                           (1, (IMPORT, ImportArgs Demo.child2 "b.tif" false))]
  /\ executions 0 (trace r) = 1
  /\ executions 1 (trace r) = 1
  /\ outcome r = Ok tt.
Proof.
  cbv zeta.
  destruct (@dispatch_runs_the_batch_sequentially
              (Demo.archives_of true [] (fun _ => None)
                 (fun _ => ([], Some OSError)))
              [(IMPORT, ImportArgs Demo.child "a.tif" false);
               (IMPORT, ImportArgs Demo.child2 "b.tif" false)]
              None [] (Demo.deploying [Demo.stdout]))
    as (_ & Hon & Honce).
  - intros call _. reflexivity.
  - discriminate.
  - destruct (Hon eq_refl) as (_ & _ & Hfall).
    destruct Hfall as (Hcalls & Hout); [discriminate|].
    split; [exact Hcalls|].
    split; [apply (Honce eq_refl); [right; split; [discriminate|reflexivity] | cbn; lia]|].
    split; [apply (Honce eq_refl); [right; split; [discriminate|reflexivity] | cbn; lia]|].
    exact Hout.
Defined.

(** C4 as the specification has it fails. With the queue enabled, a worker
    runs the only task, the task fails, the join raises, and the fallback
    runs the task a second time. With the queue disabled, the first of two
    tasks raises and the second one never runs. *)
Lemma import_collection_repeats_or_drops_a_task :
  let s := Demo.deploying [Demo.stdout] in
  let joined := Demo.archives_of true [Demo.child] (fun _ => None)
                  (fun _ => ([0], Some (ImageParsingProblem Demo.child))) in
  let failing := Demo.archives_of false [Demo.child; Demo.child2]
                   (fun call =>
                      if path_eqb (task_path call) Demo.child
                      then Some (ImageParsingProblem Demo.child) else None)
                   (fun _ => ([], None)) in
  (executions 0 (trace (import_collection joined Demo.extracted false s)) = 2
   /\ outcome (import_collection joined Demo.extracted false s) = Ok [])
  /\ (executions 1 (trace (import_collection failing Demo.extracted false s))
      = 0
      /\ outcome (import_collection failing Demo.extracted false s)
         = Raise (ImageParsingProblem Demo.child)).
Proof.
  cbv zeta. repeat split; vm_compute; reflexivity.
Qed.

(** * [decode_key] *)

(** ** Base64 *)

Module Base64.

(** The value of a character of the base64 alphabet ([table_a2b_base64]
    of Python's binascii); [None] for any other character. *)
Definition value (c : ascii) : option N :=
  let n := N_of_ascii c in
  (if (65 <=? n) && (n <=? 90) then Some (n - 65)
   else if (97 <=? n) && (n <=? 122) then Some (n - 71)
   else if (48 <=? n) && (n <=? 57) then Some (n + 4)
   else if n =? 43 then Some 62
   else if n =? 47 then Some 63
   else None)%N.

Definition is_pad (c : ascii) : bool := (N_of_ascii c =? 61)%N.

(** The low eight bits, as a byte. *)
Definition octet (n : N) : Byte.byte := byte_of_ascii (ascii_of_N n).

(** [binascii.a2b_base64] without strict mode: characters outside the
    alphabet are skipped, a complete padding ends the data, and data
    that ends inside a quad is an error. [out] is reversed. *)
Fixpoint a2b_base64 (data : string) (quad_pos : nat) (leftchar : N)
    (pads : nat) (out : list Byte.byte) : result (list Byte.byte) :=
  match data with
  | EmptyString =>
      match quad_pos with
      | 0 => Ok (rev out)
      | 1 => Raise (ValueError "Invalid base64-encoded string")
      | _ => Raise (ValueError "Incorrect padding")
      end
  | String c rest =>
      if is_pad c then
        if 2 <=? quad_pos then
          if 4 <=? quad_pos + S pads then Ok (rev out)
          else a2b_base64 rest quad_pos leftchar (S pads) out
        else a2b_base64 rest quad_pos leftchar pads out
      else
        match value c with
        | None => a2b_base64 rest quad_pos leftchar pads out
        | Some v =>
            match quad_pos with
            | 0 => a2b_base64 rest 1 v 0 out
            | 1 =>
                a2b_base64 rest 2 (N.land v 15) 0
                  (octet (N.lor (N.shiftl leftchar 2) (N.shiftr v 4)) :: out)
            | 2 =>
                a2b_base64 rest 3 (N.land v 3) 0
                  (octet (N.lor (N.shiftl leftchar 4) (N.shiftr v 2)) :: out)
            | _ =>
                a2b_base64 rest 0 0 0
                  (octet (N.lor (N.shiftl leftchar 6) v) :: out)
            end
        end
  end.

(** [base64.b64decode] of a [str]. *)
Definition b64decode (s : string) : result (list Byte.byte) :=
  if forallb (fun c => (N_of_ascii c <? 128)%N) (list_ascii_of_string s)
  then a2b_base64 s 0 0 0 []
  else Raise (ValueError "string argument should contain only ASCII characters").

End Base64.

(** ** The key *)

Module SecretBox.
(** [nacl.secret.SecretBox.KEY_SIZE] *)
Definition KEY_SIZE : nat := 32.
End SecretBox.

Record PrivateKey : Type := { private_bytes : list Byte.byte }.

(** [nacl.public.PrivateKey(private_key)]: a key of [PrivateKey.SIZE]
    bytes, or [TypeError]. *)
Definition new_PrivateKey (private_key : list Byte.byte) : result PrivateKey :=
  if List.length private_key =? 32 then Ok {| private_bytes := private_key |}
  else Raise TypeError.

(** The slice [b[-n:]]. *)
Definition last_bytes (n : nat) (b : list Byte.byte) : list Byte.byte :=
  if n =? 0 then b else skipn (List.length b - n) b.

Definition key_length_message : string :=
  "The extracted key is not 32 bytes long!".

Section DecodeKey.

(** [base64.b64decode], whatever it does with text that is not base64. *)
Variable b64decode : string -> result (list Byte.byte).

Definition decode_key (key : string) : result PrivateKey :=
  let NACL_KEY_LENGTH := SecretBox.KEY_SIZE in
  match b64decode key with
  | Raise e => Raise e
  | Ok decoded =>
      let secret_key := last_bytes NACL_KEY_LENGTH decoded in
      if negb (List.length secret_key =? NACL_KEY_LENGTH) then
        Raise (ValueError key_length_message)
      else new_PrivateKey secret_key
  end.

(** C9, as the code has it: of the decoded material [decode_key] keeps
    the last [KEY_SIZE] bytes. Material of at least [KEY_SIZE] bytes gives
    a key of exactly [KEY_SIZE] bytes, the last ones; shorter material
    raises the [ValueError] about the length. *)
Theorem decode_key_keeps_the_last_bytes key decoded :
  b64decode key = Ok decoded ->
  (SecretBox.KEY_SIZE <= List.length decoded ->
     decode_key key
     = Ok {| private_bytes :=
               skipn (List.length decoded - SecretBox.KEY_SIZE) decoded |}
     /\ List.length (skipn (List.length decoded - SecretBox.KEY_SIZE) decoded)
        = SecretBox.KEY_SIZE)
  /\ (List.length decoded < SecretBox.KEY_SIZE ->
      decode_key key = Raise (ValueError key_length_message)).
Proof.
  intros Hdec. unfold decode_key. rewrite Hdec. cbv zeta.
  unfold last_bytes, SecretBox.KEY_SIZE. cbn [Nat.eqb].
  split.
  - intros Hlen.
    assert (Hkey : List.length (skipn (List.length decoded - 32) decoded) = 32)
      by (rewrite length_skipn; lia).
    split; [|exact Hkey].
    unfold new_PrivateKey. rewrite Hkey. reflexivity.
  - intros Hlen.
    replace (List.length decoded - 32) with 0 by lia. cbn [skipn].
    destruct (List.length decoded =? 32) eqn:E; [|reflexivity].
    apply Nat.eqb_eq in E. lia.
Qed.

End DecodeKey.

(** The bytes 1 to 33, and their base64 text. *)
Definition bytes_1_to_33 : list Byte.byte :=
  map (fun n => Base64.octet (N.of_nat n)) (seq 1 33).

Definition text_1_to_33 : string :=
  "AQIDBAUGBwgJCgsMDQ4PEBESExQVFhcYGRobHB0eHyAh".

(** A key of 32 bytes and one of 31. *)
Lemma decode_key_keeps_the_last_bytes_witness :
  (exists k,
     decode_key Base64.b64decode "AQIDBAUGBwgJCgsMDQ4PEBESExQVFhcYGRobHB0eHyA="
     = Ok k
     /\ List.length (private_bytes k) = 32)
  /\ decode_key Base64.b64decode "AQIDBAUGBwgJCgsMDQ4PEBESExQVFhcYGRobHB0eHw=="
     = Raise (ValueError key_length_message).
Proof.
  split.
  - destruct (@decode_key_keeps_the_last_bytes Base64.b64decode
                "AQIDBAUGBwgJCgsMDQ4PEBESExQVFhcYGRobHB0eHyA="
                (firstn 32 bytes_1_to_33)) as [H _].
    + vm_compute. reflexivity.
    + destruct H as (Hk & Hlen).
      * vm_compute. lia.
      * eexists. split; [exact Hk|exact Hlen].
  - destruct (@decode_key_keeps_the_last_bytes Base64.b64decode
                "AQIDBAUGBwgJCgsMDQ4PEBESExQVFhcYGRobHB0eHw=="
                (firstn 31 bytes_1_to_33)) as [_ H].
    + vm_compute. reflexivity.
    + apply H. vm_compute. lia.
Defined.

(** C9 as the specification has it fails: material of 33 bytes is too
    long, and [decode_key] returns the key made of its last 32 bytes
    instead of failing. *)
Lemma decode_key_accepts_longer_material :
  Base64.b64decode text_1_to_33 = Ok bytes_1_to_33
  /\ List.length bytes_1_to_33 = 33
  /\ decode_key Base64.b64decode text_1_to_33
     = Ok {| private_bytes := skipn 1 bytes_1_to_33 |}
  /\ decode_key Base64.b64decode text_1_to_33
     <> Raise (ValueError key_length_message).
Proof.
  assert (H : decode_key Base64.b64decode text_1_to_33
              = Ok {| private_bytes := skipn 1 bytes_1_to_33 |})
    by (vm_compute; reflexivity).
  split; [vm_compute; reflexivity|]. split; [reflexivity|].
  split; [exact H|]. rewrite H. discriminate.
Qed.

(** * Further properties of the importer *)

(** ** [mkdir], [move], [mksymlink] *)

Section Primitives.

Variable W : World.




End Primitives.


(** ** [deploy_histogram] *)

Section HistogramDeploy.

Variable W : World.

Definition histogram_path_of (pd : Path) : Path := pjoin pd [HISTOGRAM_STEM W].

(** X2: whenever [deploy_histogram] returns, whatever the listeners do,
    the histogram returned is the one [build_histogram_file] built at
    [processed_dir / HISTOGRAM_STEM], it is kept in the importer, it
    passed the assertion on the histogram role, the builder was the only
    filesystem call, and the events were START_HISTOGRAM_DEPLOY and
    END_HISTOGRAM_DEPLOY. *)
Theorem deploy_histogram_returns_the_built_histogram image s h :
  outcome (deploy_histogram W image s) = Ok h ->
  let r := deploy_histogram W image s in
  exists pd,
    processed_dir s = Some pd
    /\ build_histogram_file W image (histogram_path_of pd) = Ok h
    /\ has_histogram_role W (histogram_file h) = true
    /\ histogram (final r) = Some h
    /\ histogram_path (final r) = Some (histogram_path_of pd)
    /\ fs_ops (trace r) = [OpHistogram (histogram_path_of pd)]
    /\ emitted (trace r) = [START_HISTOGRAM_DEPLOY; END_HISTOGRAM_DEPLOY].
Proof.
  intros Hok r. subst r. revert h Hok. unfold histogram_path_of.
  change (wpe (deploy_histogram W image)
    (fun evs ops s' r =>
       forall h, r = Ok h ->
         exists pd,
           processed_dir s = Some pd
           /\ build_histogram_file W image (pjoin pd [HISTOGRAM_STEM W]) = Ok h
           /\ has_histogram_role W (histogram_file h) = true
           /\ histogram s' = Some h
           /\ histogram_path s' = Some (pjoin pd [HISTOGRAM_STEM W])
           /\ ops = [OpHistogram (pjoin pd [HISTOGRAM_STEM W])]
           /\ evs = [START_HISTOGRAM_DEPLOY; END_HISTOGRAM_DEPLOY]) s).
  wpe_run.
  all: intros h Hh; try discriminate Hh; injection Hh as <-.
  eexists. repeat (split; [reflexivity || eassumption|]). reflexivity.
Qed.

(** X3: when no handler of a listener raises and the processed directory
    is set, a builder that raises makes [deploy_histogram] raise without
    END_HISTOGRAM_DEPLOY and with the histogram unset as before. Only
    [FileNotFoundError] and [FileExistsError] are notified as
    ERROR_HISTOGRAM and raised as [FileErrorProblem] of the histogram
    path; any other exception, a plain [OSError] too, leaves as it is and
    without an error event. *)
Theorem deploy_histogram_wraps_missing_and_existing_files image s pd e :
  quiet (listeners s) ->
  processed_dir s = Some pd ->
  build_histogram_file W image (histogram_path_of pd) = Raise e ->
  let r := deploy_histogram W image s in
  histogram (final r) = histogram s
  /\ fs_ops (trace r) = [OpHistogram (histogram_path_of pd)]
  /\ if is_FileNotFound_or_Exists e
     then outcome r = Raise (FileErrorProblem (Some (histogram_path_of pd)))
          /\ emitted (trace r) = [START_HISTOGRAM_DEPLOY; ERROR_HISTOGRAM]
     else outcome r = Raise e
          /\ emitted (trace r) = [START_HISTOGRAM_DEPLOY].
Proof.
  intros Hq Hpd Hb r. subst r. unfold histogram_path_of in *.
  change (wpe (deploy_histogram W image)
    (fun evs ops s' r =>
       histogram s' = histogram s
       /\ ops = [OpHistogram (pjoin pd [HISTOGRAM_STEM W])]
       /\ if is_FileNotFound_or_Exists e
          then r = Raise (FileErrorProblem
                            (Some (pjoin pd [HISTOGRAM_STEM W])))
               /\ evs = [START_HISTOGRAM_DEPLOY; ERROR_HISTOGRAM]
          else r = Raise e /\ evs = [START_HISTOGRAM_DEPLOY]) s).
  wpe_run_with ltac:(rewrite ?Hpd, ?Hb; cbv beta iota).
  all: repeat split; reflexivity.
Qed.

End HistogramDeploy.

(** ** A run that returns *)

Section Children.

Variable W : World.

(** As [wp_register_children], with the number of registrations when the
    loop ends. *)
Lemma wp_register_all_children cytomine task prefer_copy children :
  forall tasks s (Q : _ -> _ -> result (list TaskCall) -> Prop),
  (forall t, fs_ops t = [] ->
     emitted t = repeat REGISTER_FILE (List.length children) ->
     Q t s (Ok (build_tasks cytomine task prefer_copy children tasks))) ->
  (forall t e, Q t s (Raise e)) ->
  wp (register_children cytomine task prefer_copy children tasks) Q s.
Proof.
  induction children as [|child rest IH]; intros tasks s Q Hok Hraise;
    cbn [register_children build_tasks fold_left].
  - wp_step. apply Hok; reflexivity.
  - do 4 wp_step.
    + apply IH.
      * intros t' Hf He. apply Hok; trace_norm; reflexivity.
      * intros t' e. apply Hraise.
    + apply Hraise.
Qed.

Lemma wpe_import_all_children collection prefer_copy s
    (Q : _ -> _ -> _ -> result (list Path) -> Prop) :
  Q (repeat REGISTER_FILE (List.length (get_extracted_children W collection)))
    [] s (Ok []) ->
  (forall evs ops e, Q evs ops s (Raise e)) ->
  wpe (import_collection W collection prefer_copy) Q s.
Proof.
  intros Hok Hraise.
  change (wp (import_collection W collection prefer_copy)
            (fun t s' r => Q (emitted t) (fs_ops t) s' r) s).
  unfold import_collection.
  do 3 wp_step. apply wp_register_all_children.
  - intros t Hf He. cbv beta iota. wp_step.
    apply wp_dispatch. intros t' r He' Hf'.
    destruct r as [[]|e]; cbv beta iota.
    + wp_step. rewrite !emitted_app, !fs_ops_app, He, He', Hf, Hf'.
      cbn [emitted fs_ops flat_map app]. rewrite app_nil_r. exact Hok.
    + apply Hraise.
  - intros t e. cbv beta iota. apply Hraise.
Qed.

End Children.

(** As [wpe_step], counting the children a collection registers. *)
Ltac wpe_count_step :=
  lazymatch goal with
  | |- wpe (import_collection _ _ _) _ _ =>
      apply wpe_import_all_children; [|intros ?evs ?ops ?e]; cbv beta iota
  | _ => wpe_step
  end.

Ltac wpe_count_run_with tac := repeat (wpe_count_step; try not_thrown; tac).

(** The events of the phases of an import, when nothing fails. *)
Definition extraction_events : list ImportEventType :=
  [START_DATA_EXTRACTION; MOVED_PENDING_FILE; END_DATA_EXTRACTION].

Definition detection_events : list ImportEventType :=
  [START_FORMAT_DETECTION; END_FORMAT_DETECTION].

Definition integrity_events : list ImportEventType :=
  [START_INTEGRITY_CHECK; END_INTEGRITY_CHECK].

(** The conversion to a spatial format: the converted file is detected
    and checked in its turn. *)
Definition conversion_events : list ImportEventType :=
  [START_CONVERSION; END_CONVERSION] ++ detection_events ++ integrity_events.

Definition spatial_events (converted : bool) : list ImportEventType :=
  [START_SPATIAL_DEPLOY]
  ++ (if converted then conversion_events else [])
  ++ [END_SPATIAL_DEPLOY].

Definition histogram_events : list ImportEventType :=
  [START_HISTOGRAM_DEPLOY; END_HISTOGRAM_DEPLOY].

(** The import of one image, [unpacked] from an archive or not. *)
Definition image_events (unpacked converted : bool) : list ImportEventType :=
  extraction_events ++ detection_events
  ++ (if unpacked then [START_UNPACKING; END_UNPACKING] else [])
  ++ integrity_events ++ spatial_events converted ++ histogram_events
  ++ [END_SUCCESSFUL_IMPORT].

(** The import of an archive that holds a collection of [children]. *)
Definition collection_events (children : nat) : list ImportEventType :=
  extraction_events ++ detection_events
  ++ [START_UNPACKING] ++ repeat REGISTER_FILE children ++ [END_UNPACKING].

Section Success.

Variable W : World.

(** The path of the original representation of a file of format [f]. *)
Definition original_path_of (f : Format) : Path :=
  pjoin (processed_dir_of W) [stem_dot (ORIGINAL_STEM W) (get_identifier f)].

(** X4: whenever [run] returns, whatever the listeners do, the events it
    notified are those of a complete import, in order and without any
    error event. When it returns a path, they are the phases of the
    import of one image, each started and ended: data extraction, format
    detection, unpacking if the upload was an archive, integrity check,
    spatial deployment, with a conversion if the format of the original
    needs one, histogram deployment, and END_SUCCESSFUL_IMPORT last. When
    it returns no path the upload was an archive of a collection: between
    START_UNPACKING and END_UNPACKING every child the archive holds was
    registered. *)
Theorem run_returns_after_a_complete_import prefer_copy s paths :
  outcome (run W prefer_copy s) = Ok paths ->
  let r := run W prefer_copy s in
  let up := upload_path_of W s in
  match paths with
  | [] =>
      exists a,
        importable_match W up = None
        /\ archive_from_path W up = Some a
        /\ emitted (trace r)
           = collection_events
               (List.length
                  (get_extracted_children W
                     (original_path_of (archive_format a))))
  | _ :: _ =>
      exists img,
        original (final r) = Some img
        /\ emitted (trace r)
           = image_events
               (match importable_match W up with
                | Some _ => false
                | None => true
                end)
               (need_conversion (image_format img))
  end.
Proof.
  intros Hok r up. subst r up. revert paths Hok.
  unfold original_path_of, processed_dir_of, upload_path_of, upload_dir_of.
  change (wpe (run W prefer_copy)
    (fun evs _ s' r =>
       forall paths, r = Ok paths ->
         match paths with
         | [] =>
             exists a,
               importable_match W
                 (pjoin
                    (pjoin (FILE_ROOT_PATH W)
                       [(UPLOAD_DIR_PREFIX W ++ unique_name_generator W)%string])
                    [upload_name (pending_name s) (pending_file s)]) = None
               /\ archive_from_path W
                    (pjoin
                       (pjoin (FILE_ROOT_PATH W)
                          [(UPLOAD_DIR_PREFIX W
                            ++ unique_name_generator W)%string])
                       [upload_name (pending_name s) (pending_file s)])
                  = Some a
               /\ evs
                  = collection_events
                      (List.length
                         (get_extracted_children W
                            (pjoin
                               (pjoin
                                  (pjoin (FILE_ROOT_PATH W)
                                     [(UPLOAD_DIR_PREFIX W
                                       ++ unique_name_generator W)%string])
                                  [PROCESSED_DIR W])
                               [stem_dot (ORIGINAL_STEM W)
                                  (get_identifier (archive_format a))])))
         | _ :: _ =>
             exists img,
               original s' = Some img
               /\ evs
                  = image_events
                      (match
                         importable_match W
                           (pjoin
                              (pjoin (FILE_ROOT_PATH W)
                                 [(UPLOAD_DIR_PREFIX W
                                   ++ unique_name_generator W)%string])
                              [upload_name (pending_name s) (pending_file s)])
                       with
                       | Some _ => false
                       | None => true
                       end)
                      (need_conversion (image_format img))
         end) s).
  destruct (importable_match W
              (pjoin
                 (pjoin (FILE_ROOT_PATH W)
                    [(UPLOAD_DIR_PREFIX W ++ unique_name_generator W)%string])
                 [upload_name (pending_name s) (pending_file s)])) eqn:Hm.
  all: wpe_count_run_with ltac:(rewrite ?Hm; cbv beta iota).
  all: intros paths Hp; try discriminate Hp; injection Hp as <-.
  all: cbn [option_map] in *.
  all: repeat match goal with
       | H : Some _ = Some _ |- _ => injection H as ?; subst
       | H : None = Some _ |- _ => discriminate H
       end.
  all: try (eexists; split; [state_refl|]; cbn [image_format];
            repeat match goal with
            | H : need_conversion _ = _ |- _ => rewrite H
            end; reflexivity).
  all: eexists; split; [reflexivity|]; split; [reflexivity|].
  all: unfold collection_events; cbn [app extraction_events detection_events].
  all: rewrite <- ?app_assoc, ?app_nil_r; reflexivity.
Qed.

End Success.

Lemma no_integrity_errors (errors : list string) :
  (0 <? List.length errors) = false -> errors = [].
Proof. destruct errors; [reflexivity | discriminate]. Qed.

Section Layout.

Variable W : World.

(** The importer [s'] holds a complete deployment under
    [upload_dir / PROCESSED_DIR], of the upload at [up], and [p] is the
    path to return for it. *)
Definition deployed (up : Path) (s' : FileImporter) (p : Path) : Prop :=
  let pd := processed_dir_of W in
  exists img sp ext h,
    upload_dir s' = Some (upload_dir_of W)
    /\ processed_dir s' = Some pd
    /\ upload_path s' = Some p
    /\ original s' = Some img
    /\ original_path s' = Some (image_path img)
    /\ image_path img = original_path_of W (image_format img)
    /\ is_spatial (image_format img) = true
    /\ check_integrity W img = []
    /\ spatial s' = Some sp
    /\ spatial_path s' = Some (image_path sp)
    /\ image_path sp = spatial_path_of W pd ext
    /\ has_spatial_role W (image_path sp) = true
    /\ histogram s' = Some h
    /\ histogram_path s' = Some (histogram_path_of W pd)
    /\ build_histogram_file W (get_spatial W img) (histogram_path_of W pd)
       = Ok h
    /\ has_histogram_role W (histogram_file h) = true
    /\ match importable_match W up with
       | Some f =>
           p = up
           /\ image_format img = f
           /\ has_original_role W (image_path img) = true
       | None => p = image_path img
       end.

(** X5: whenever [run] returns a path, whatever the listeners do, it
    returns that path alone and the importer holds a complete deployment
    under [upload_dir / PROCESSED_DIR]: the original image, at
    [ORIGINAL_STEM.identifier] of its format, which is spatial and passed
    the integrity check; the spatial image, at [SPATIAL_STEM.ext], which
    has the spatial role; and the histogram built at [HISTOGRAM_STEM] from
    the spatial image of the original, which has the histogram role. When
    the upload itself has an importable format the path returned is the
    upload path and the original has the original role; when the upload
    was an archive of one multi-file image the path returned is the path
    of the original, and the original role was not checked. *)
Theorem run_returns_a_deployed_image prefer_copy s p rest :
  outcome (run W prefer_copy s) = Ok (p :: rest) ->
  rest = []
  /\ deployed (upload_path_of W s) (final (run W prefer_copy s)) p.
Proof.
  revert p rest.
  change (wpe (run W prefer_copy)
            (fun _ _ s' r =>
               forall p rest, r = Ok (p :: rest) ->
                 rest = [] /\ deployed (upload_path_of W s) s' p) s).
  remember (importable_match W (upload_path_of W s)) as matched eqn:Hm.
  symmetry in Hm. unfold upload_path_of, upload_dir_of in Hm.
  destruct matched.
  all: wpe_run_with ltac:(rewrite ?Hm; cbv beta iota).
  all: intros p rest Hp; try discriminate Hp; injection Hp as <- <-.
  all: cbn [option_map] in *.
  all: repeat match goal with
       | H : Some _ = Some _ |- _ => injection H as ?; subst
       | H : None = Some _ |- _ => discriminate H
       | H : (0 <? List.length _) = false |- _ =>
           apply no_integrity_errors in H
       end.
  all: split; [reflexivity|].
  all: unfold deployed, histogram_path_of, spatial_path_of, original_path_of,
         processed_dir_of, upload_path_of, upload_dir_of; rewrite Hm.
  all: do 4 eexists.
  all: repeat (split; [first [state_refl | eassumption]|]).
  all: cbn [image_path]; first [reflexivity | assumption].
Qed.

End Layout.

(** ** A run that is refused after the relocation *)

(** The filesystem calls that bring the pending file to the upload path. *)
Definition relocation (W : World) (prefer_copy : bool) (s : FileImporter)
    : list FsOp :=
  let pf := pending_file s in
  let up := upload_path_of W s in
  OpMkdir (upload_dir_of W)
  :: (if prefer_copy then [OpCopy pf up]
      else OpMove pf up
           :: (if is_extracted W pf then [OpSymlink pf up] else [])).

Lemma path_eqb_child (p : Path) (x : string) :
  path_eqb p (pjoin p [x]) = false.
Proof.
  unfold path_eqb. destruct (path_eq_dec p (pjoin p [x])) as [H|]; auto.
  apply (f_equal (@List.length string)) in H.
  unfold pjoin in H. rewrite length_app in H. simpl in H. lia.
Qed.

(** The directory [d] is made by one of the calls. *)
Definition makes (d : Path) (op : FsOp) : bool :=
  match op with
  | OpMkdir d' => path_eqb d' d
  | _ => false
  end.

Lemma makes_none d ops : filter (makes d) ops = [] -> ~ In (OpMkdir d) ops.
Proof.
  intros H Hin.
  assert (Hf : In (OpMkdir d) (filter (makes d) ops)).
  { apply filter_In. split; [exact Hin | apply path_eqb_refl]. }
  rewrite H in Hf. exact Hf.
Qed.

Section Refusals.

Variable W : World.

(** X6: an upload that matches no importable format and is no archive is
    never imported: [run] does not return, and makes no processed
    directory. When moreover the relocation went through (the format
    detection was started) and no handler of a listener raises, [run]
    raises [NoMatchingFormatProblem] of the upload path after
    ERROR_NO_FORMAT and the final FILE_ERROR; the filesystem calls are
    those of the relocation and nothing undoes them: the pending file
    stays in the upload directory. *)
Theorem run_rejects_an_upload_of_unknown_format prefer_copy s :
  let up := upload_path_of W s in
  importable_match W up = None ->
  archive_from_path W up = None ->
  let r := run W prefer_copy s in
  (forall paths, outcome r <> Ok paths)
  /\ ~ In (OpMkdir (processed_dir_of W)) (fs_ops (trace r))
  /\ (quiet (listeners s) ->
      In START_FORMAT_DETECTION (emitted (trace r)) ->
      outcome r = Raise (NoMatchingFormatProblem (Some up))
      /\ emitted (trace r)
         = extraction_events
           ++ [START_FORMAT_DETECTION; ERROR_NO_FORMAT; FILE_ERROR]
      /\ fs_ops (trace r) = relocation W prefer_copy s
      /\ upload_path (final r) = Some up
      /\ processed_dir (final r) = processed_dir s).
Proof.
  intros up Hm Ha r. subst up r.
  unfold relocation, processed_dir_of, upload_path_of, upload_dir_of in *.
  cbv zeta.
  set (ud := pjoin (FILE_ROOT_PATH W)
               [(UPLOAD_DIR_PREFIX W ++ unique_name_generator W)%string]) in *.
  enough (Hwp : wpe (run W prefer_copy)
    (fun evs ops s' r =>
       (forall paths, r <> Ok paths)
       /\ filter (makes (pjoin ud [PROCESSED_DIR W])) ops = []
       /\ (quiet (listeners s) ->
           In START_FORMAT_DETECTION evs ->
           r = Raise (NoMatchingFormatProblem
                        (Some (pjoin ud
                                 [upload_name (pending_name s)
                                    (pending_file s)])))
           /\ evs = extraction_events
                    ++ [START_FORMAT_DETECTION; ERROR_NO_FORMAT; FILE_ERROR]
           /\ ops
              = OpMkdir ud
                :: (if prefer_copy
                    then [OpCopy (pending_file s)
                            (pjoin ud
                               [upload_name (pending_name s) (pending_file s)])]
                    else OpMove (pending_file s)
                           (pjoin ud
                              [upload_name (pending_name s) (pending_file s)])
                         :: (if is_extracted W (pending_file s)
                             then [OpSymlink (pending_file s)
                                     (pjoin ud
                                        [upload_name (pending_name s)
                                           (pending_file s)])]
                             else []))
           /\ upload_path s'
              = Some (pjoin ud
                        [upload_name (pending_name s) (pending_file s)])
           /\ processed_dir s' = processed_dir s)) s).
  { destruct Hwp as (H1 & H2 & H3). split; [exact H1|].
    split; [apply makes_none; exact H2 | exact H3]. }
  subst ud.
  destruct prefer_copy; destruct (is_extracted W (pending_file s)) eqn:Hx.
  all: cbn [negb andb].
  all: wpe_run_with ltac:(rewrite ?Hm, ?Ha, ?Hx; cbn [negb andb option_map]; cbv beta iota).
  all: split; [discriminate|].
  all: split; [cbn [app filter makes]; rewrite ?path_eqb_child; reflexivity|].
  all: intros Hq Hin;
    first [ not_thrown
          | exfalso; simpl in Hin; intuition discriminate
          | repeat split; first [reflexivity | state_refl] ].
Qed.

(** X7: an upload of an importable format whose original fails the
    integrity check is never deployed: [run] does not return and no event
    or artifact of spatial or histogram deployment occurs. When moreover
    the check was started and no handler of a listener raises, [run]
    raises [ImageParsingProblem] of the original after
    ERROR_INTEGRITY_CHECK and the final FILE_ERROR, and the importer keeps
    the image that failed as its original. *)
Theorem run_rejects_an_original_that_fails_the_integrity_check
    prefer_copy s f :
  let img := {| image_path := original_path_of W f; image_format := f |} in
  importable_match W (upload_path_of W s) = Some f ->
  check_integrity W img <> [] ->
  let r := run W prefer_copy s in
  (forall paths, outcome r <> Ok paths)
  /\ filter deployment_event (emitted (trace r)) = []
  /\ filter deployment_op (fs_ops (trace r)) = []
  /\ (quiet (listeners s) ->
      In START_INTEGRITY_CHECK (emitted (trace r)) ->
      outcome r = Raise (ImageParsingProblem (image_path img))
      /\ emitted (trace r)
         = extraction_events ++ detection_events
           ++ [START_INTEGRITY_CHECK; ERROR_INTEGRITY_CHECK; FILE_ERROR]
      /\ original (final r) = Some img).
Proof.
  intros img Hm Herr r. subst img r.
  unfold original_path_of, processed_dir_of, upload_path_of, upload_dir_of
    in *.
  assert (Hlen : (0 <? List.length
                         (check_integrity W
                            {| image_path :=
                                 pjoin
                                   (pjoin
                                      (pjoin (FILE_ROOT_PATH W)
                                         [(UPLOAD_DIR_PREFIX W
                                           ++ unique_name_generator W)%string])
                                      [PROCESSED_DIR W])
                                   [stem_dot (ORIGINAL_STEM W)
                                      (get_identifier f)];
                               image_format := f |})) = true).
  { destruct (check_integrity W _); [congruence | reflexivity]. }
  clear Herr.
  change (wpe (run W prefer_copy)
    (fun evs ops s' r =>
       (forall paths, r <> Ok paths)
       /\ filter deployment_event evs = []
       /\ filter deployment_op ops = []
       /\ (quiet (listeners s) ->
           In START_INTEGRITY_CHECK evs ->
           r = Raise (ImageParsingProblem
                        (image_path
                           {| image_path :=
                                pjoin
                                  (pjoin
                                     (pjoin (FILE_ROOT_PATH W)
                                        [(UPLOAD_DIR_PREFIX W
                                          ++ unique_name_generator W)%string])
                                     [PROCESSED_DIR W])
                                  [stem_dot (ORIGINAL_STEM W)
                                     (get_identifier f)];
                              image_format := f |}))
           /\ evs = extraction_events ++ detection_events
                    ++ [START_INTEGRITY_CHECK; ERROR_INTEGRITY_CHECK;
                        FILE_ERROR]
           /\ original s'
              = Some {| image_path :=
                          pjoin
                            (pjoin
                               (pjoin (FILE_ROOT_PATH W)
                                  [(UPLOAD_DIR_PREFIX W
                                    ++ unique_name_generator W)%string])
                               [PROCESSED_DIR W])
                            [stem_dot (ORIGINAL_STEM W) (get_identifier f)];
                        image_format := f |})) s).
  destruct prefer_copy.
  all: wpe_run_with ltac:(rewrite ?Hm, ?Hlen; cbv beta iota).
  all: split; [discriminate|].
  all: split; [reflexivity|]; split; [reflexivity|].
  all: intros Hq Hin;
    first [ not_thrown
          | exfalso; simpl in Hin; intuition discriminate
          | repeat split; first [reflexivity | state_refl] ].
Qed.

(** X8: when the extraction of an uploaded archive raises, [run] does not
    return and nothing of the archive is imported: no child is registered
    and END_UNPACKING is not notified. When moreover the unpacking was
    started and no handler of a listener raises, an [ArchiveError] is
    notified as ERROR_UNPACKING and raised as [FileErrorProblem] of the
    upload path, while any other exception of the extraction leaves [run]
    as it is, with the final FILE_ERROR only. *)
Theorem run_stops_at_an_archive_that_cannot_be_extracted prefer_copy s a e :
  let up := upload_path_of W s in
  importable_match W up = None ->
  archive_from_path W up = Some a ->
  extract a (original_path_of W (archive_format a)) = Some e ->
  let r := run W prefer_copy s in
  (forall paths, outcome r <> Ok paths)
  /\ ~ In REGISTER_FILE (emitted (trace r))
  /\ ~ In END_UNPACKING (emitted (trace r))
  /\ (quiet (listeners s) ->
      In START_UNPACKING (emitted (trace r)) ->
      if is_ArchiveError e
      then outcome r = Raise (FileErrorProblem (Some up))
           /\ emitted (trace r)
              = extraction_events ++ detection_events
                ++ [START_UNPACKING; ERROR_UNPACKING; FILE_ERROR]
      else outcome r = Raise e
           /\ emitted (trace r)
              = extraction_events ++ detection_events
                ++ [START_UNPACKING; FILE_ERROR]).
Proof.
  intros up Hm Ha He r. subst up r.
  unfold original_path_of, processed_dir_of, upload_path_of, upload_dir_of
    in *.
  enough (Hwp : wpe (run W prefer_copy)
    (fun evs ops s' r =>
       (forall paths, r <> Ok paths)
       /\ filter (event_eqb REGISTER_FILE) evs = []
       /\ filter (event_eqb END_UNPACKING) evs = []
       /\ (quiet (listeners s) ->
           In START_UNPACKING evs ->
           if is_ArchiveError e
           then r = Raise (FileErrorProblem
                             (Some (pjoin
                                      (pjoin (FILE_ROOT_PATH W)
                                         [(UPLOAD_DIR_PREFIX W
                                           ++ unique_name_generator W)%string])
                                      [upload_name (pending_name s)
                                         (pending_file s)])))
                /\ evs = extraction_events ++ detection_events
                         ++ [START_UNPACKING; ERROR_UNPACKING; FILE_ERROR]
           else r = Raise e
                /\ evs = extraction_events ++ detection_events
                         ++ [START_UNPACKING; FILE_ERROR])) s).
  { destruct Hwp as (H1 & H2 & H3 & H4). split; [exact H1|].
    split; [apply filter_nil_not_in; exact H2|].
    split; [apply filter_nil_not_in; exact H3 | exact H4]. }
  destruct prefer_copy; destruct (is_ArchiveError e) eqn:Hk.
  all: wpe_run_with ltac:(rewrite ?Hm, ?Ha, ?He, ?Hk; cbn [option_map];
                          cbv beta iota).
  all: split; [discriminate|].
  all: split; [reflexivity|]; split; [reflexivity|].
  all: intros Hq Hin;
    first [ not_thrown
          | exfalso; simpl in Hin; intuition discriminate
          | split; reflexivity ].
Qed.

End Refusals.

(** ** Spatial deployment by conversion *)

Section Conversion.

Variable W : World.

(** X9: whenever [deploy_spatial] returns for a format that needs a
    conversion, whatever the listeners do, the image returned is the
    converted file at [processed_dir / SPATIAL_STEM.ext], [ext] being the
    identifier of the conversion format: the conversion reported success
    and left a file there, the format of the image is the one detected
    anew on the converted file (not the format of the original), the image
    passed the integrity check, the conversion was the only filesystem
    call (no link to the original is made), and the events were those of
    a spatial deployment with a conversion. *)
Theorem deploy_spatial_returns_the_converted_image f s img :
  need_conversion f = true ->
  outcome (deploy_spatial W f s) = Ok img ->
  let r := deploy_spatial W f s in
  exists pd ext,
    processed_dir s = Some pd
    /\ conversion_identifier f = Ok ext
    /\ image_path img = spatial_path_of W pd ext
    /\ convert f (image_path img) = Ok true
    /\ path_exists W (image_path img) = true
    /\ spatial_readable_match W (image_path img) = Some (image_format img)
    /\ check_integrity W img = []
    /\ spatial_path (final r) = Some (image_path img)
    /\ fs_ops (trace r) = [OpConvert (image_path img)]
    /\ emitted (trace r) = spatial_events true.
Proof.
  intros Hneed Hok r. subst r. revert img Hok. unfold spatial_path_of.
  change (wpe (deploy_spatial W f)
    (fun evs ops s' r =>
       forall img, r = Ok img ->
         exists pd ext,
           processed_dir s = Some pd
           /\ conversion_identifier f = Ok ext
           /\ image_path img = pjoin pd [stem_dot (SPATIAL_STEM W) ext]
           /\ convert f (image_path img) = Ok true
           /\ path_exists W (image_path img) = true
           /\ spatial_readable_match W (image_path img)
              = Some (image_format img)
           /\ check_integrity W img = []
           /\ spatial_path s' = Some (image_path img)
           /\ ops = [OpConvert (image_path img)]
           /\ evs = spatial_events true) s).
  wpe_run_with ltac:(rewrite ?Hneed; cbv beta iota).
  all: intros img Himg; try discriminate Himg; injection Himg as <-.
  all: repeat match goal with
       | H : negb _ || negb _ = false |- _ =>
           apply orb_false_iff in H; rewrite !negb_false_iff in H;
           destruct H; subst
       | H : (0 <? List.length _) = false |- _ =>
           apply no_integrity_errors in H
       end.
  all: cbn [image_path image_format].
  all: do 2 eexists.
  all: repeat (split; [first [reflexivity | eassumption]|]).
  all: reflexivity.
Qed.

End Conversion.

(** ** The tasks of a collection *)

(** The tasks handed over by a call, to the workers or to the in-process
    import, in order. *)
Definition tasks_of (t : list Effect) : list TaskCall :=
  flat_map (fun e => match e with
                     | Submit tasks => tasks
                     | RunLocal _ call => [call]
                     | _ => []
                     end) t.

Lemma tasks_of_app t u : tasks_of (t ++ u) = tasks_of t ++ tasks_of u.
Proof. apply flat_map_app. Qed.

(** The task that imports [child] for an importer whose first
    [CytomineListener], if any, is [cytomine]. *)
Definition child_task (cytomine : option CytomineOps) (prefer_copy : bool)
    (children : list Path) (call : TaskCall) : Prop :=
  In (task_path call) children
  /\ match cytomine, call with
     | None, (IMPORT, ImportArgs child child_name copy) =>
         child_name = name child /\ copy = prefer_copy
     | Some c, (IMPORT_WITH_CYTOMINE,
                CytomineImportArgs auth child child_name listener copy) =>
         new_listener_from_registered_child c child = Ok listener
         /\ auth = child_auth listener
         /\ child_name = name child
         /\ copy = prefer_copy
     | _, _ => False
     end.

Section Tasks.

Variable W : World.

Lemma tasks_of_deliver method args ls :
  tasks_of (fst (deliver method args ls)) = [].
Proof.
  induction ls as [|l ls IH]; [reflexivity|]. cbn [deliver].
  destruct (handler l method args) as [| |e]; cbn [fst]; try exact IH.
  destruct (is_AttributeError e); cbn [fst]; [exact IH | reflexivity].
Qed.

Lemma register_children_hands_over_nothing cytomine task prefer_copy children :
  forall tasks s,
  exists t,
    tasks_of t = []
    /\ (register_children cytomine task prefer_copy children tasks s
        = {| trace := t; final := s;
             outcome :=
               Ok (build_tasks cytomine task prefer_copy children tasks) |}
        \/ exists e,
             register_children cytomine task prefer_copy children tasks s
             = {| trace := t; final := s; outcome := Raise e |}).
Proof.
  induction children as [|child rest IH]; intros tasks s.
  - exists []. split; [reflexivity|]. left. reflexivity.
  - cbn [register_children build_tasks fold_left].
    unfold bind, read, notify. cbn [trace final outcome app].
    pose proof (tasks_of_deliver REGISTER_FILE
                  [APath (Some child); APath (upload_path s)] (listeners s))
      as Hd.
    destruct (deliver REGISTER_FILE
                [APath (Some child); APath (upload_path s)] (listeners s))
      as [t [e|]]; cbn [fst snd] in *.
    + eexists. split; [|right; eexists; reflexivity]. exact Hd.
    + destruct (IH (add_task cytomine task prefer_copy child tasks) s)
        as (t' & Ht' & [Heq|[e Heq]]); rewrite Heq; cbn [trace final outcome].
      * eexists. split; [|left; reflexivity].
        change (tasks_of (Notify ?m ?a :: ?u)) with (tasks_of u).
        rewrite tasks_of_app, Hd, Ht'. reflexivity.
      * eexists. split; [|right; eexists; reflexivity].
        change (tasks_of (Notify ?m ?a :: ?u)) with (tasks_of u).
        rewrite tasks_of_app, Hd, Ht'. reflexivity.
Qed.

Lemma sequential_imports_runs_the_batch tasks : forall position s,
  incl (tasks_of (trace (sequential_imports W position tasks s))) tasks.
Proof.
  induction tasks as [|call rest IH]; intros position s.
  - intros x [].
  - cbn [sequential_imports]. unfold bind. cbn [tell trace final outcome].
    destruct (bg_task W call).
    + cbn [raise trace app]. intros x [<-|[]]. left. reflexivity.
    + cbn [app]. change (tasks_of (RunLocal ?i ?c :: ?t)) with (c :: tasks_of t).
      intros x [<-|Hx]; [left; reflexivity|].
      right. exact (IH _ _ _ Hx).
Qed.

Lemma tasks_of_workers positions : tasks_of (map RunWorker positions) = [].
Proof. induction positions as [|i rest IH]; [reflexivity|exact IH]. Qed.

Lemma dispatch_hands_over_the_batch tasks s :
  incl (tasks_of (trace (dispatch W tasks s))) tasks.
Proof.
  unfold dispatch. destruct (negb (task_queue_enabled W)).
  - apply sequential_imports_runs_the_batch.
  - unfold try_except, celery_block, bind.
    cbn [tell trace final outcome]. rewrite tell_all_run.
    cbn [trace final outcome].
    destruct (snd (celery_group W tasks)); cbn [raise ret trace final outcome].
    + rewrite !tasks_of_app, tasks_of_workers. cbn [tasks_of flat_map app].
      repeat rewrite app_nil_r.
      apply incl_app; [apply incl_refl|].
      apply sequential_imports_runs_the_batch.
    + rewrite !tasks_of_app, tasks_of_workers. cbn [tasks_of flat_map app].
      repeat rewrite app_nil_r. apply incl_refl.
Qed.

Lemma build_tasks_for_the_children cytomine prefer_copy children :
  forall known tasks,
  incl children known ->
  Forall (child_task cytomine prefer_copy known) tasks ->
  Forall (child_task cytomine prefer_copy known)
    (build_tasks cytomine
       (match cytomine with Some _ => IMPORT_WITH_CYTOMINE | None => IMPORT end)
       prefer_copy children tasks).
Proof.
  unfold build_tasks.
  induction children as [|child rest IH]; intros known tasks Hin Hall;
    cbn [fold_left]; [exact Hall|].
  apply IH; [intros x Hx; apply Hin; right; exact Hx|].
  assert (Hchild : In child known) by (apply Hin; left; reflexivity).
  unfold add_task. destruct cytomine as [c|].
  - destruct (new_listener_from_registered_child c child) as [l|] eqn:Hl;
      [|exact Hall].
    apply Forall_app. split; [exact Hall|].
    constructor; [|constructor].
    split; [exact Hchild|]. cbn. auto.
  - apply Forall_app. split; [exact Hall|].
    constructor; [|constructor].
    split; [exact Hchild|]. cbn. auto.
Qed.

(** X10: whatever the listeners and the task queue do, every task that
    [import_collection] hands over, to the workers or to the in-process
    import, imports a child of the collection under the child's own name
    and with the [prefer_copy] of the call. When the importer has a
    [CytomineListener] every task is a Cytomine import that carries the
    listener the first of them made for that child, and its credentials;
    otherwise every task is a plain import. *)
Theorem import_collection_hands_over_tasks_for_the_children
    collection prefer_copy s :
  Forall
    (child_task (find_cytomine (listeners s)) prefer_copy
       (get_extracted_children W collection))
    (tasks_of (trace (import_collection W collection prefer_copy s))).
Proof.
  unfold import_collection. unfold bind at 1. cbn [read trace final outcome app].
  cbv zeta.
  set (cytomine := find_cytomine (listeners s)).
  set (task := match cytomine with
               | Some _ => IMPORT_WITH_CYTOMINE
               | None => IMPORT
               end).
  destruct (@register_children_hands_over_nothing cytomine task prefer_copy
              (get_extracted_children W collection) [] s)
    as (t & Ht & [Heq|[e Heq]]).
  - unfold bind at 1. rewrite Heq. cbn [trace final outcome].
    rewrite tasks_of_app, Ht. cbn [app].
    unfold bind.
    pose proof (@dispatch_hands_over_the_batch
                  (build_tasks cytomine task prefer_copy
                     (get_extracted_children W collection) []) s) as Hd.
    destruct (outcome (dispatch W _ s)); cbn [trace ret app];
      rewrite ?app_nil_r.
    all: apply Forall_forall; intros call Hcall; apply Hd in Hcall.
    all: revert call Hcall; apply Forall_forall.
    all: apply build_tasks_for_the_children;
      [apply incl_refl | constructor].
  - unfold bind at 1. rewrite Heq. cbn [trace final outcome].
    rewrite Ht. constructor.
Qed.

End Tasks.

(** ** What [prefer_copy] keeps in place *)

Lemma parent_child (p : Path) (x : string) : parent (pjoin p [x]) = p.
Proof. unfold parent, pjoin. apply removelast_last. Qed.

(** The call moves nothing, unless from a place in [directory] to another
    place in [directory]. *)
Definition moves_within (directory : Path) (op : FsOp) : Prop :=
  match op with
  | OpMove origin dest => parent origin = directory /\ parent dest = directory
  | _ => True
  end.

Section Copy.

Variable W : World.

(** X11: with [prefer_copy], whatever the listeners do, [run] moves
    nothing out of its place but what it made itself: the only move there
    can be is the one that renames, inside the processed directory, the
    image extracted from an archive that holds one multi-file image
    (that call of [move] is made without [prefer_copy]); the pending file
    is copied and stays where it was. *)
Theorem run_with_prefer_copy_moves_no_pending_file s :
  Forall (moves_within (processed_dir_of W))
    (fs_ops (trace (run W true s))).
Proof.
  unfold processed_dir_of, upload_dir_of.
  change (wpe (run W true)
            (fun _ ops _ _ =>
               Forall
                 (moves_within
                    (pjoin
                       (pjoin (FILE_ROOT_PATH W)
                          [(UPLOAD_DIR_PREFIX W
                            ++ unique_name_generator W)%string])
                       [PROCESSED_DIR W])) ops) s).
  wpe_run.
  all: cbn [app].
  all: repeat (constructor; [cbn [moves_within]; rewrite ?parent_child; auto|]).
  all: constructor.
Qed.

End Copy.

(** * [FileImporter.import_from_path] *)

Section ImportFromPath.

Variable W : World.

(** The [try] block of [import_from_path]. *)
Definition import_from_path_body : M Path :=
  pf <- read pending_file;;
  notify START_DATA_EXTRACTION [APath (Some pf)];;
  let ud := pjoin (FILE_ROOT_PATH W)
              [(UPLOAD_DIR_PREFIX W ++ unique_name_generator W)%string] in
  modify (set_upload_dir (Some ud));;
  mkdir W ud;;
  pn <- read pending_name;;
  let up := pjoin ud [upload_name pn pf] in
  modify (set_upload_path (Some up));;
  mksymlink W up pf;;
  notify MOVED_PENDING_FILE [APath (Some pf); APath (Some up)];;
  notify END_DATA_EXTRACTION [APath (Some up)];;
  notify START_FORMAT_DETECTION [APath (Some up)];;
  match importable_match W up with
  | None =>
      notify ERROR_NO_FORMAT [APath (Some up)];;
      raise (NoMatchingFormatProblem (Some up))
  | Some format =>
      notify END_FORMAT_DETECTION [APath (Some up); AFormat format];;
      let pd := pjoin ud [PROCESSED_DIR W] in
      modify (set_processed_dir (Some pd));;
      mkdir W pd;;
      let op := pjoin pd [stem_dot (ORIGINAL_STEM W) (get_identifier format)] in
      modify (set_original_path (Some op));;
      mksymlink W op up;;
      assert_ (has_original_role W op);;
      notify START_INTEGRITY_CHECK [APath (Some op)];;
      let img := {| image_path := op; image_format := format |} in
      modify (set_original (Some img));;
      let errors := check_integrity W img in
      if 0 <? List.length errors then
        notify ERROR_INTEGRITY_CHECK [APath (Some op); AErrors errors];;
        raise (ImageParsingProblem op)
      else
        notify END_INTEGRITY_CHECK [AImage (Some img)];;
        (if negb (is_spatial format) then raise NotImplementedError
         else ret tt);;
        deploy_spatial W format;;
        deploy_histogram W (get_spatial W img);;
        notify END_SUCCESSFUL_IMPORT [APath (Some up); AImage (Some img)];;
        ret up
  end.

Definition import_from_path : M Path :=
  try_except import_from_path_body
    (fun e =>
       up <- read upload_path;;
       notify FILE_ERROR [APath up; AExn e];;
       raise e).

End ImportFromPath.

(** As [wpe_step], for [import_from_path] too. *)
Ltac wpe_path_step :=
  lazymatch goal with
  | |- wpe (import_from_path _) _ _ => unfold import_from_path
  | |- wpe (import_from_path_body _) _ _ => unfold import_from_path_body
  | _ => wpe_step
  end.

Ltac wpe_path_run_with tac := repeat (wpe_path_step; try not_thrown; tac).

(** The call carries the data of a file from a place to another. *)
Definition carries (op : FsOp) : bool :=
  match op with
  | OpMove _ _ | OpCopy _ _ | OpExtract _ => true
  | _ => false
  end.

Section InPlace.

Variable W : World.

(** X12: [import_from_path] imports the pending file where it is.
    Whatever the listeners do, it never moves, copies or extracts
    anything and never notifies FILE_NOT_FOUND: the pending file is not
    validated. When no handler of a listener raises, its first filesystem
    call makes the upload directory, also for a pending file that does
    not exist or lies in no sanctioned area; and when that directory could
    be made, the second one links the upload path to the pending file. *)
Theorem import_from_path_links_the_pending_file s :
  let r := import_from_path W s in
  let up := upload_path_of W s in
  filter carries (fs_ops (trace r)) = []
  /\ ~ In FILE_NOT_FOUND (emitted (trace r))
  /\ (quiet (listeners s) ->
      exists rest,
        fs_ops (trace r) = OpMkdir (upload_dir_of W) :: rest
        /\ (os_mkdir W (upload_dir_of W) = None ->
            exists rest',
              rest = OpSymlink up (pending_file s) :: rest')).
Proof.
  intros r up. subst r up. unfold upload_path_of, upload_dir_of.
  enough (Hwp : wpe (import_from_path W)
    (fun evs ops _ _ =>
       filter carries ops = []
       /\ filter (event_eqb FILE_NOT_FOUND) evs = []
       /\ (quiet (listeners s) ->
           exists rest,
             ops
             = OpMkdir
                 (pjoin (FILE_ROOT_PATH W)
                    [(UPLOAD_DIR_PREFIX W ++ unique_name_generator W)%string])
               :: rest
             /\ (os_mkdir W
                   (pjoin (FILE_ROOT_PATH W)
                      [(UPLOAD_DIR_PREFIX W
                        ++ unique_name_generator W)%string]) = None ->
                 exists rest',
                   rest
                   = OpSymlink
                       (pjoin
                          (pjoin (FILE_ROOT_PATH W)
                             [(UPLOAD_DIR_PREFIX W
                               ++ unique_name_generator W)%string])
                          [upload_name (pending_name s) (pending_file s)])
                       (pending_file s) :: rest'))) s).
  { destruct Hwp as (H1 & H2 & H3). split; [exact H1|].
    split; [apply filter_nil_not_in; exact H2 | exact H3]. }
  wpe_path_run_with idtac.
  all: split; [reflexivity|]; split; [reflexivity|].
  all: intros Hq; try not_thrown.
  all: cbn [app]; eexists; split; [reflexivity|].
  all: intros Hmk; try congruence; eexists; reflexivity.
Qed.

(** X13: whenever [import_from_path] returns, whatever the listeners do,
    it returns the upload path [upload_dir / name], which it linked to the
    pending file; the upload has an importable format; the importer holds
    a complete deployment of it under [upload_dir / PROCESSED_DIR]; and
    the events notified are those of the import of one image that was not
    unpacked, each phase started and ended, END_SUCCESSFUL_IMPORT last. *)
Theorem import_from_path_returns_the_upload_path s p :
  outcome (import_from_path W s) = Ok p ->
  let r := import_from_path W s in
  p = upload_path_of W s
  /\ os_symlink W p (pending_file s) = None
  /\ deployed W p (final r) p
  /\ exists f,
       importable_match W p = Some f
       /\ emitted (trace r) = image_events false (need_conversion f).
Proof.
  intros Hok r. subst r. revert p Hok.
  change (wpe (import_from_path W)
            (fun evs _ s' r =>
               forall p, r = Ok p ->
                 p = upload_path_of W s
                 /\ os_symlink W p (pending_file s) = None
                 /\ deployed W p s' p
                 /\ exists f,
                      importable_match W p = Some f
                      /\ evs = image_events false (need_conversion f)) s).
  wpe_path_run_with idtac.
  all: intros p Hp; try discriminate Hp; injection Hp as <-.
  all: repeat match goal with
       | H : (0 <? List.length _) = false |- _ =>
           apply no_integrity_errors in H
       | H : negb (is_spatial _) = false |- _ => apply negb_false_iff in H
       end.
  all: split; [reflexivity|]; split; [assumption|].
  all: split;
    [ unfold deployed, histogram_path_of, spatial_path_of, original_path_of,
        processed_dir_of, upload_path_of, upload_dir_of;
      match goal with H : importable_match _ _ = _ |- _ => rewrite H end;
      do 4 eexists;
      repeat (split; [first [state_refl | eassumption]|]);
      cbn [image_path]; first [reflexivity | assumption]
    | eexists; split; [eassumption|];
      match goal with H : need_conversion _ = _ |- _ => rewrite H end;
      reflexivity ].
Qed.

(** X14: [import_from_path] looks for no archive. An upload that matches
    no importable format is never imported, be it an archive or not: the
    call does not return and makes no processed directory; and when the
    format detection was started and no handler of a listener raises, it
    raises [NoMatchingFormatProblem] of the upload path after
    ERROR_NO_FORMAT and the final FILE_ERROR, the upload directory and the
    link to the pending file being all it made. *)
Theorem import_from_path_unpacks_no_archive s :
  let up := upload_path_of W s in
  importable_match W up = None ->
  let r := import_from_path W s in
  (forall p, outcome r <> Ok p)
  /\ ~ In (OpMkdir (processed_dir_of W)) (fs_ops (trace r))
  /\ ~ In START_UNPACKING (emitted (trace r))
  /\ (quiet (listeners s) ->
      In START_FORMAT_DETECTION (emitted (trace r)) ->
      outcome r = Raise (NoMatchingFormatProblem (Some up))
      /\ emitted (trace r)
         = extraction_events
           ++ [START_FORMAT_DETECTION; ERROR_NO_FORMAT; FILE_ERROR]
      /\ fs_ops (trace r)
         = [OpMkdir (upload_dir_of W); OpSymlink up (pending_file s)]).
Proof.
  intros up Hm r. subst up r.
  unfold processed_dir_of, upload_path_of, upload_dir_of in *.
  enough (Hwp : wpe (import_from_path W)
    (fun evs ops s' r =>
       (forall p, r <> Ok p)
       /\ filter (makes (pjoin
                           (pjoin (FILE_ROOT_PATH W)
                              [(UPLOAD_DIR_PREFIX W
                                ++ unique_name_generator W)%string])
                           [PROCESSED_DIR W])) ops = []
       /\ filter (event_eqb START_UNPACKING) evs = []
       /\ (quiet (listeners s) ->
           In START_FORMAT_DETECTION evs ->
           r = Raise (NoMatchingFormatProblem
                        (Some (pjoin
                                 (pjoin (FILE_ROOT_PATH W)
                                    [(UPLOAD_DIR_PREFIX W
                                      ++ unique_name_generator W)%string])
                                 [upload_name (pending_name s)
                                    (pending_file s)])))
           /\ evs = extraction_events
                    ++ [START_FORMAT_DETECTION; ERROR_NO_FORMAT; FILE_ERROR]
           /\ ops
              = [OpMkdir
                   (pjoin (FILE_ROOT_PATH W)
                      [(UPLOAD_DIR_PREFIX W ++ unique_name_generator W)%string]);
                 OpSymlink
                   (pjoin
                      (pjoin (FILE_ROOT_PATH W)
                         [(UPLOAD_DIR_PREFIX W
                           ++ unique_name_generator W)%string])
                      [upload_name (pending_name s) (pending_file s)])
                   (pending_file s)])) s).
  { destruct Hwp as (H1 & H2 & H3 & H4). split; [exact H1|].
    split; [apply makes_none; exact H2|].
    split; [apply filter_nil_not_in; exact H3 | exact H4]. }
  wpe_path_run_with ltac:(rewrite ?Hm; cbv beta iota).
  all: split; [discriminate|].
  all: split; [cbn [app filter makes]; rewrite ?path_eqb_child; reflexivity|].
  all: split; [reflexivity|].
  all: intros Hq Hin;
    first [ not_thrown
          | exfalso; simpl in Hin; intuition discriminate
          | repeat split; reflexivity ].
Qed.

End InPlace.

(** ** Worlds in which something fails *)

Module Faults.

(** [W], with another histogram builder. *)
Definition with_build_histogram_file
    (builder : option Image -> Path -> result Histogram) (W : World) : World :=
  {| FILE_ROOT_PATH := FILE_ROOT_PATH W;
     PENDING_PATH := PENDING_PATH W;
     WRITING_PATH := WRITING_PATH W;
     task_queue_enabled := task_queue_enabled W;
     UPLOAD_DIR_PREFIX := UPLOAD_DIR_PREFIX W;
     PROCESSED_DIR := PROCESSED_DIR W;
     EXTRACTED_DIR := EXTRACTED_DIR W;
     ORIGINAL_STEM := ORIGINAL_STEM W;
     SPATIAL_STEM := SPATIAL_STEM W;
     HISTOGRAM_STEM := HISTOGRAM_STEM W;
     unique_name_generator := unique_name_generator W;
     is_extracted := is_extracted W;
     path_exists := path_exists W;
     os_mkdir := os_mkdir W;
     os_symlink := os_symlink W;
     shutil_move := shutil_move W;
     shutil_copy := shutil_copy W;
     has_original_role := has_original_role W;
     has_spatial_role := has_spatial_role W;
     has_histogram_role := has_histogram_role W;
     get_extracted_children := get_extracted_children W;
     importable_match := importable_match W;
     spatial_readable_match := spatial_readable_match W;
     archive_from_path := archive_from_path W;
     check_integrity := check_integrity W;
     get_spatial := get_spatial W;
     build_histogram_file := builder;
     bg_task := bg_task W;
     celery_group := celery_group W |}.

(** [W], with another integrity check. *)
Definition with_check_integrity (check : Image -> list string) (W : World)
    : World :=
  {| FILE_ROOT_PATH := FILE_ROOT_PATH W;
     PENDING_PATH := PENDING_PATH W;
     WRITING_PATH := WRITING_PATH W;
     task_queue_enabled := task_queue_enabled W;
     UPLOAD_DIR_PREFIX := UPLOAD_DIR_PREFIX W;
     PROCESSED_DIR := PROCESSED_DIR W;
     EXTRACTED_DIR := EXTRACTED_DIR W;
     ORIGINAL_STEM := ORIGINAL_STEM W;
     SPATIAL_STEM := SPATIAL_STEM W;
     HISTOGRAM_STEM := HISTOGRAM_STEM W;
     unique_name_generator := unique_name_generator W;
     is_extracted := is_extracted W;
     path_exists := path_exists W;
     os_mkdir := os_mkdir W;
     os_symlink := os_symlink W;
     shutil_move := shutil_move W;
     shutil_copy := shutil_copy W;
     has_original_role := has_original_role W;
     has_spatial_role := has_spatial_role W;
     has_histogram_role := has_histogram_role W;
     get_extracted_children := get_extracted_children W;
     importable_match := importable_match W;
     spatial_readable_match := spatial_readable_match W;
     archive_from_path := archive_from_path W;
     check_integrity := check;
     get_spatial := get_spatial W;
     build_histogram_file := build_histogram_file W;
     bg_task := bg_task W;
     celery_group := celery_group W |}.

(** [W], with another [shutil.move]. *)
Definition with_shutil_move (mv : Path -> Path -> option exn) (W : World)
    : World :=
  {| FILE_ROOT_PATH := FILE_ROOT_PATH W;
     PENDING_PATH := PENDING_PATH W;
     WRITING_PATH := WRITING_PATH W;
     task_queue_enabled := task_queue_enabled W;
     UPLOAD_DIR_PREFIX := UPLOAD_DIR_PREFIX W;
     PROCESSED_DIR := PROCESSED_DIR W;
     EXTRACTED_DIR := EXTRACTED_DIR W;
     ORIGINAL_STEM := ORIGINAL_STEM W;
     SPATIAL_STEM := SPATIAL_STEM W;
     HISTOGRAM_STEM := HISTOGRAM_STEM W;
     unique_name_generator := unique_name_generator W;
     is_extracted := is_extracted W;
     path_exists := path_exists W;
     os_mkdir := os_mkdir W;
     os_symlink := os_symlink W;
     shutil_move := mv;
     shutil_copy := shutil_copy W;
     has_original_role := has_original_role W;
     has_spatial_role := has_spatial_role W;
     has_histogram_role := has_histogram_role W;
     get_extracted_children := get_extracted_children W;
     importable_match := importable_match W;
     spatial_readable_match := spatial_readable_match W;
     archive_from_path := archive_from_path W;
     check_integrity := check_integrity W;
     get_spatial := get_spatial W;
     build_histogram_file := build_histogram_file W;
     bg_task := bg_task W;
     celery_group := celery_group W |}.

(** Nothing can be moved: the target is on a device that is full. *)
Definition no_move : World :=
  with_shutil_move (fun _ _ => Some OSError) Demo.all_tiff.

(** The histogram file is already there. *)
Definition histogram_exists : World :=
  with_build_histogram_file (fun _ _ => Raise FileExistsError) Demo.all_tiff.

(** No image passes the integrity check. *)
Definition all_corrupt : World :=
  with_check_integrity (fun _ => ["no pixel data"]) Demo.all_tiff.

(** No file has a format, and none is an archive. *)
Definition no_format : World :=
  Demo.world false (fun _ => None) (fun _ => None) (fun _ => None) []
    (fun _ => None) (fun _ => ([], None)).

(** An archive that cannot be extracted. *)
Definition broken_zip : Archive :=
  {| archive_format := archive_format Demo.zip;
     extract := fun _ => Some ArchiveError |}.

(** Every file is the archive [broken_zip]. *)
Definition all_broken_zip : World :=
  Demo.world false (fun _ => None) (fun _ => None) (fun _ => Some broken_zip)
    [] (fun _ => None) (fun _ => ([], None)).

(** Every file is a [jpeg], to be converted. *)
Definition all_jpeg : World :=
  Demo.world false (fun _ => None) (fun _ => Some Demo.jpeg) (fun _ => None)
    [] (fun _ => None) (fun _ => ([], None)).

End Faults.

(** A slide in the pending area, and the importer that imports it. *)
Definition slide_importer : FileImporter :=
  new_importer Demo.slide None (Some [Demo.stdout]).

(** A histogram deployed under the processed directory. *)
Lemma deploy_histogram_returns_the_built_histogram_witness :
  let s := Demo.deploying [Demo.stdout] in
  let hp := ["data"; "upload0"; "processed"; "histogram"] in
  outcome (deploy_histogram Demo.all_tiff None s)
  = Ok {| histogram_file := hp |}
  /\ histogram (final (deploy_histogram Demo.all_tiff None s))
     = Some {| histogram_file := hp |}
  /\ emitted (trace (deploy_histogram Demo.all_tiff None s))
     = [START_HISTOGRAM_DEPLOY; END_HISTOGRAM_DEPLOY].
Proof.
  cbv zeta.
  assert (Hok : outcome (deploy_histogram Demo.all_tiff None
                           (Demo.deploying [Demo.stdout]))
                = Ok {| histogram_file :=
                          ["data"; "upload0"; "processed"; "histogram"] |})
    by (vm_compute; reflexivity).
  split; [exact Hok|].
  destruct (@deploy_histogram_returns_the_built_histogram Demo.all_tiff None
              (Demo.deploying [Demo.stdout]) _ Hok)
    as (pd & _ & _ & _ & Hh & _ & _ & Hev).
  split; [exact Hh | exact Hev].
Defined.

(** A histogram file that is already there. *)
Lemma deploy_histogram_wraps_missing_and_existing_files_witness :
  let s := Demo.deploying [Demo.stdout] in
  let r := deploy_histogram Faults.histogram_exists None s in
  outcome r
  = Raise (FileErrorProblem
             (Some ["data"; "upload0"; "processed"; "histogram"]))
  /\ emitted (trace r) = [START_HISTOGRAM_DEPLOY; ERROR_HISTOGRAM].
Proof.
  cbv zeta.
  destruct (@deploy_histogram_wraps_missing_and_existing_files
              Faults.histogram_exists None (Demo.deploying [Demo.stdout])
              ["data"; "upload0"; "processed"] FileExistsError
              quiet_stdout eq_refl eq_refl) as (_ & _ & H).
  exact H.
Defined.

(** The import of a slide from the pending area. *)
Lemma run_returns_after_a_complete_import_witness :
  outcome (run Demo.all_tiff false slide_importer)
  = Ok [["data"; "upload0"; "slide.tif"]]
  /\ exists img,
       original (final (run Demo.all_tiff false slide_importer)) = Some img
       /\ emitted (trace (run Demo.all_tiff false slide_importer))
          = image_events false (need_conversion (image_format img)).
Proof.
  assert (Hok : outcome (run Demo.all_tiff false slide_importer)
                = Ok [["data"; "upload0"; "slide.tif"]])
    by (vm_compute; reflexivity).
  split; [exact Hok|].
  exact (@run_returns_after_a_complete_import Demo.all_tiff false
           slide_importer _ Hok).
Defined.

Lemma run_returns_a_deployed_image_witness :
  outcome (run Demo.all_tiff false slide_importer)
  = Ok [["data"; "upload0"; "slide.tif"]]
  /\ deployed Demo.all_tiff (upload_path_of Demo.all_tiff slide_importer)
       (final (run Demo.all_tiff false slide_importer))
       ["data"; "upload0"; "slide.tif"].
Proof.
  assert (Hok : outcome (run Demo.all_tiff false slide_importer)
                = Ok [["data"; "upload0"; "slide.tif"]])
    by (vm_compute; reflexivity).
  split; [exact Hok|].
  exact (proj2 (@run_returns_a_deployed_image Demo.all_tiff false
                  slide_importer _ _ Hok)).
Defined.

(** A file that nothing recognises. *)
Lemma run_rejects_an_upload_of_unknown_format_witness :
  let r := run Faults.no_format false slide_importer in
  outcome r
  = Raise (NoMatchingFormatProblem (Some ["data"; "upload0"; "slide.tif"]))
  /\ fs_ops (trace r)
     = [OpMkdir ["data"; "upload0"];
        OpMove Demo.slide ["data"; "upload0"; "slide.tif"]].
Proof.
  cbv zeta.
  destruct (@run_rejects_an_upload_of_unknown_format Faults.no_format false
              slide_importer eq_refl eq_refl) as (_ & _ & H).
  destruct (H quiet_stdout) as (Ho & _ & Hops & _).
  - assert (Hev : emitted (trace (run Faults.no_format false slide_importer))
                  = extraction_events
                    ++ [START_FORMAT_DETECTION; ERROR_NO_FORMAT; FILE_ERROR])
      by (vm_compute; reflexivity).
    rewrite Hev. simpl. tauto.
  - split; [exact Ho | exact Hops].
Defined.

(** A slide whose integrity check reports an error. *)
Lemma run_rejects_an_original_that_fails_the_integrity_check_witness :
  let r := run Faults.all_corrupt false slide_importer in
  outcome r
  = Raise (ImageParsingProblem
             ["data"; "upload0"; "processed"; "original.TIFF"])
  /\ filter deployment_event (emitted (trace r)) = [].
Proof.
  cbv zeta.
  destruct (@run_rejects_an_original_that_fails_the_integrity_check
              Faults.all_corrupt false slide_importer Demo.tiff eq_refl)
    as (_ & Hev & _ & H).
  - discriminate.
  - split; [|exact Hev].
    destruct (H quiet_stdout) as (Ho & _).
    + assert (Hevs : emitted (trace (run Faults.all_corrupt false
                                       slide_importer))
                     = extraction_events ++ detection_events
                       ++ [START_INTEGRITY_CHECK; ERROR_INTEGRITY_CHECK;
                           FILE_ERROR])
        by (vm_compute; reflexivity).
      rewrite Hevs. simpl. tauto.
    + exact Ho.
Defined.

(** An archive whose extraction raises [ArchiveError]. *)
Lemma run_stops_at_an_archive_that_cannot_be_extracted_witness :
  let r := run Faults.all_broken_zip false slide_importer in
  outcome r = Raise (FileErrorProblem (Some ["data"; "upload0"; "slide.tif"]))
  /\ ~ In END_UNPACKING (emitted (trace r)).
Proof.
  cbv zeta.
  destruct (@run_stops_at_an_archive_that_cannot_be_extracted
              Faults.all_broken_zip false slide_importer Faults.broken_zip
              ArchiveError eq_refl eq_refl eq_refl) as (_ & _ & Hno & H).
  split; [|exact Hno].
  destruct (H quiet_stdout) as (Ho & _); [|exact Ho].
  assert (Hevs : emitted (trace (run Faults.all_broken_zip false
                                   slide_importer))
                 = extraction_events ++ detection_events
                   ++ [START_UNPACKING; ERROR_UNPACKING; FILE_ERROR])
    by (vm_compute; reflexivity).
  rewrite Hevs. simpl. tauto.
Defined.

(** A [jpeg] converted to a spatial format. *)
Lemma deploy_spatial_returns_the_converted_image_witness :
  let s := Demo.deploying [Demo.stdout] in
  let sp := ["data"; "upload0"; "processed"; "spatial.TIFF"] in
  outcome (deploy_spatial Demo.all_tiff Demo.jpeg s)
  = Ok {| image_path := sp; image_format := Demo.tiff |}
  /\ fs_ops (trace (deploy_spatial Demo.all_tiff Demo.jpeg s))
     = [OpConvert sp].
Proof.
  cbv zeta.
  assert (Hok : outcome (deploy_spatial Demo.all_tiff Demo.jpeg
                           (Demo.deploying [Demo.stdout]))
                = Ok {| image_path :=
                          ["data"; "upload0"; "processed"; "spatial.TIFF"];
                        image_format := Demo.tiff |})
    by (vm_compute; reflexivity).
  split; [exact Hok|].
  destruct (@deploy_spatial_returns_the_converted_image Demo.all_tiff
              Demo.jpeg (Demo.deploying [Demo.stdout]) _ eq_refl Hok)
    as (pd & ext & _ & _ & _ & _ & _ & _ & _ & _ & Hops & _).
  exact Hops.
Defined.

(** A dataset directory imported where it is. *)
Lemma import_from_path_returns_the_upload_path_witness :
  let s := new_importer ["dataset"; "images"; "slide"] (Some "slide")
             (Some [Demo.stdout]) in
  outcome (import_from_path Demo.all_tiff s)
  = Ok ["data"; "upload0"; "slide"]
  /\ emitted (trace (import_from_path Demo.all_tiff s))
     = image_events false false.
Proof.
  cbv zeta.
  assert (Hok : outcome (import_from_path Demo.all_tiff
                           (new_importer ["dataset"; "images"; "slide"]
                              (Some "slide") (Some [Demo.stdout])))
                = Ok ["data"; "upload0"; "slide"])
    by (vm_compute; reflexivity).
  split; [exact Hok|].
  destruct (@import_from_path_returns_the_upload_path Demo.all_tiff _ _ Hok)
    as (_ & _ & _ & f & Hf & Hev).
  injection Hf as <-. exact Hev.
Defined.

(** An archive in a dataset is not unpacked. *)
Lemma import_from_path_unpacks_no_archive_witness :
  let s := new_importer ["dataset"; "images"; "slides.zip"] None
             (Some [Demo.stdout]) in
  let w := Demo.archives_of false [Demo.child] (fun _ => None)
             (fun _ => ([], None)) in
  archive_from_path w (upload_path_of w s) = Some Demo.zip
  /\ outcome (import_from_path w s)
     = Raise (NoMatchingFormatProblem (Some ["data"; "upload0"; "slides.zip"]))
  /\ fs_ops (trace (import_from_path w s))
     = [OpMkdir ["data"; "upload0"];
        OpSymlink ["data"; "upload0"; "slides.zip"]
          ["dataset"; "images"; "slides.zip"]].
Proof.
  cbv zeta. split; [reflexivity|].
  destruct (@import_from_path_unpacks_no_archive
              (Demo.archives_of false [Demo.child] (fun _ => None)
                 (fun _ => ([], None)))
              (new_importer ["dataset"; "images"; "slides.zip"] None
                 (Some [Demo.stdout])) eq_refl) as (_ & _ & _ & H).
  destruct (H quiet_stdout) as (Ho & _ & Hops); [|split; [exact Ho|exact Hops]].
  match goal with
  | |- In _ ?evs =>
      assert (Hevs : evs
                     = extraction_events
                       ++ [START_FORMAT_DETECTION; ERROR_NO_FORMAT; FILE_ERROR])
        by (vm_compute; reflexivity);
      rewrite Hevs
  end.
  simpl. tauto.
Defined.

(** ** A relocation that fails *)

Section FailedRelocation.

Variable W : World.

(** X23: [run] cleans nothing up. For a pending file that passes the
    validation, when no handler of a listener raises and a filesystem
    call of the relocation fails with an exception [e] of the [OSError]
    family: if the upload directory cannot be made, [run] raises
    [FileErrorProblem] of that directory after two FILE_ERROR events (the
    one of [mkdir] and its own) and nothing else was touched; if the
    directory was made and the move (or the copy) fails, [run] raises
    [FileErrorProblem] of the pending file, the origin of the move, after
    FILE_NOT_MOVED and the final FILE_ERROR, and the upload directory it
    made is left behind: the failed move is its last filesystem call. *)
Theorem run_leaves_the_upload_directory_when_the_move_fails
    (prefer_copy : bool) (s : FileImporter) (e : exn) :
  quiet (listeners s) ->
  importable W (pending_file s) ->
  is_OSError e = true ->
  let pf := pending_file s in
  let ud := upload_dir_of W in
  let up := upload_path_of W s in
  let r := run W prefer_copy s in
  (os_mkdir W ud = Some e ->
   outcome r = Raise (FileErrorProblem (Some ud))
   /\ emitted (trace r) = [START_DATA_EXTRACTION; FILE_ERROR; FILE_ERROR]
   /\ fs_ops (trace r) = [OpMkdir ud]
   /\ upload_path (final r) = upload_path s)
  /\ (os_mkdir W ud = None ->
      (if prefer_copy then shutil_copy W pf up else shutil_move W pf up)
      = Some e ->
      outcome r = Raise (FileErrorProblem (Some pf))
      /\ emitted (trace r)
         = [START_DATA_EXTRACTION; FILE_NOT_MOVED; FILE_ERROR]
      /\ fs_ops (trace r)
         = [OpMkdir ud; if prefer_copy then OpCopy pf up else OpMove pf up]
      /\ upload_path (final r) = Some up).
Proof.
  intros Hq Himp He pf ud up r. subst pf ud up r.
  apply not_importable_false in Himp.
  unfold upload_path_of, upload_dir_of. split.
  - intros Hmk.
    change (wpe (run W prefer_copy)
      (fun evs ops s' r =>
         r = Raise (FileErrorProblem
                      (Some (pjoin (FILE_ROOT_PATH W)
                               [(UPLOAD_DIR_PREFIX W
                                 ++ unique_name_generator W)%string])))
         /\ evs = [START_DATA_EXTRACTION; FILE_ERROR; FILE_ERROR]
         /\ ops = [OpMkdir (pjoin (FILE_ROOT_PATH W)
                              [(UPLOAD_DIR_PREFIX W
                                ++ unique_name_generator W)%string])]
         /\ upload_path s' = upload_path s) s).
    wpe_run_with ltac:(rewrite ?Himp, ?Hmk, ?He; cbv beta iota).
    repeat split; reflexivity.
  - intros Hmk Hmv.
    change (wpe (run W prefer_copy)
      (fun evs ops s' r =>
         r = Raise (FileErrorProblem (Some (pending_file s)))
         /\ evs = [START_DATA_EXTRACTION; FILE_NOT_MOVED; FILE_ERROR]
         /\ ops
            = [OpMkdir (pjoin (FILE_ROOT_PATH W)
                          [(UPLOAD_DIR_PREFIX W
                            ++ unique_name_generator W)%string]);
               if prefer_copy
               then OpCopy (pending_file s)
                      (pjoin
                         (pjoin (FILE_ROOT_PATH W)
                            [(UPLOAD_DIR_PREFIX W
                              ++ unique_name_generator W)%string])
                         [upload_name (pending_name s) (pending_file s)])
               else OpMove (pending_file s)
                      (pjoin
                         (pjoin (FILE_ROOT_PATH W)
                            [(UPLOAD_DIR_PREFIX W
                              ++ unique_name_generator W)%string])
                         [upload_name (pending_name s) (pending_file s)])]
         /\ upload_path s'
            = Some (pjoin
                      (pjoin (FILE_ROOT_PATH W)
                         [(UPLOAD_DIR_PREFIX W
                           ++ unique_name_generator W)%string])
                      [upload_name (pending_name s) (pending_file s)])) s).
    destruct prefer_copy.
    all: wpe_run_with ltac:(rewrite ?Himp, ?Hmk, ?Hmv, ?He; cbv beta iota).
    all: repeat split; reflexivity.
Qed.

End FailedRelocation.

(** A world in which no directory can be made, and one in which nothing
    can be moved. *)
Lemma run_leaves_the_upload_directory_when_the_move_fails_witness :
  let r := run Demo.read_only false slide_importer in
  let r' := run Faults.no_move false slide_importer in
  (outcome r = Raise (FileErrorProblem (Some ["data"; "upload0"]))
   /\ emitted (trace r) = [START_DATA_EXTRACTION; FILE_ERROR; FILE_ERROR]
   /\ fs_ops (trace r) = [OpMkdir ["data"; "upload0"]])
  /\ (outcome r' = Raise (FileErrorProblem (Some Demo.slide))
      /\ emitted (trace r')
         = [START_DATA_EXTRACTION; FILE_NOT_MOVED; FILE_ERROR]
      /\ fs_ops (trace r')
         = [OpMkdir ["data"; "upload0"];
            OpMove Demo.slide ["data"; "upload0"; "slide.tif"]]).
Proof.
  cbv zeta.
  assert (Himp : forall w, PENDING_PATH w = Demo.pending ->
                           path_exists w Demo.slide = true ->
                           importable w (pending_file slide_importer)).
  { intros w Hp He. split; [right; left; rewrite Hp; reflexivity | exact He]. }
  split.
  - destruct (@run_leaves_the_upload_directory_when_the_move_fails
                Demo.read_only false slide_importer OSError quiet_stdout
                (Himp Demo.read_only eq_refl eq_refl) eq_refl) as (H & _).
    destruct (H eq_refl) as (H1 & H2 & H3 & _). auto.
  - destruct (@run_leaves_the_upload_directory_when_the_move_fails
                Faults.no_move false slide_importer OSError quiet_stdout
                (Himp Faults.no_move eq_refl eq_refl) eq_refl) as (_ & H).
    destruct (H eq_refl eq_refl) as (H1 & H2 & H3 & _). auto.
Defined.

(** * The key of the metadata files *)

Section DecodedKey.

Variable b64decode : string -> result (list Byte.byte).

(** X15: whatever [b64decode] does, [decode_key] never raises the
    [TypeError] of [PrivateKey]: it raises what [b64decode] raises,
    unchanged, or the [ValueError] about the length, and that only for
    material of fewer than [KEY_SIZE] bytes; and a key it returns has
    exactly [KEY_SIZE] bytes, which are the end of the decoded material. *)
Theorem decode_key_raises_no_type_error key :
  match decode_key b64decode key with
  | Ok k =>
      List.length (private_bytes k) = SecretBox.KEY_SIZE
      /\ exists front, b64decode key = Ok (front ++ private_bytes k)
  | Raise e =>
      b64decode key = Raise e
      \/ (e = ValueError key_length_message
          /\ exists decoded,
               b64decode key = Ok decoded
               /\ List.length decoded < SecretBox.KEY_SIZE)
  end.
Proof.
  unfold decode_key. destruct (b64decode key) as [decoded|e]; [|left; reflexivity].
  cbv zeta. unfold last_bytes, SecretBox.KEY_SIZE. cbn [Nat.eqb].
  destruct (le_lt_dec 32 (List.length decoded)) as [Hlen|Hlen].
  - assert (Hkey : List.length (skipn (List.length decoded - 32) decoded) = 32)
      by (rewrite length_skipn; lia).
    rewrite Hkey. cbn [Nat.eqb negb]. unfold new_PrivateKey. rewrite Hkey.
    cbn [Nat.eqb private_bytes]. split; [exact Hkey|].
    exists (firstn (List.length decoded - 32) decoded).
    rewrite firstn_skipn. reflexivity.
  - replace (List.length decoded - 32) with 0 by lia. cbn [skipn].
    destruct (List.length decoded =? 32) eqn:E.
    + apply Nat.eqb_eq in E. lia.
    + cbn [negb]. right. split; [reflexivity|]. exists decoded. auto.
Qed.

End DecodedKey.

(** * The import of a dataset: [get_folder_size], [run_import_from_path]

    The directory listing, the sizes of the files, the listeners and the
    uploaded files of Cytomine are not in the file: they are parameters.
    A path is absolute when its first component is the root. *)

Module Dataset.

(** [cytomine.models.UploadedFile], as [run_import_from_path] fills it. *)
Record UploadedFile : Type := {
  original_filename : string;
  filename : Path;
  size : nat;
  ext : string;
  content_type : string;
  id_storage : nat;
  id_user : nat;
  id_image_server : nat;
  status : nat
}.

Definition is_absolute (p : Path) : bool :=
  match p with
  | root :: _ => String.eqb root "/"
  | [] => false
  end.

(** [os.path.join] of two paths: an absolute second path stands alone. *)
Definition os_path_join (a b : Path) : Path :=
  if is_absolute b then b else pjoin a b.

(** An importer with its place in the sequence of the imports. *)
Definition ImportCall : Type := (nat * FileImporter)%type.

Section RunImportFromPath.

(** [UploadedFile.UPLOADED] *)
Variable UPLOADED : nat.
Variable StdoutListener : string -> ImportListener.
(** [CytomineListener(auth, uf, projects=ProjectCollection(),
    user_properties=iter([]))] *)
Variable CytomineListener :
  string * string * string -> UploadedFile -> ImportListener.
(** [Path.iterdir], [Path.is_dir], [os.walk], [os.path.getsize] *)
Variable iterdir : Path -> result (list Path).
Variable is_dir : Path -> bool.
Variable os_walk : Path -> list (Path * list string * list string).
Variable getsize : Path -> result nat.
(** The world in which the import at a position runs. *)
Variable world : nat -> World.

(** ** [get_folder_size] *)

(** The loop over the file names of a directory. *)
Fixpoint add_sizes (dirpath : Path) (filenames : list string)
    (total_size : nat) : result nat :=
  match filenames with
  | [] => Ok total_size
  | file :: rest =>
      let file_path := os_path_join dirpath [file] in
      match getsize file_path with
      | Ok n => add_sizes dirpath rest (total_size + n)
      | Raise e => Raise e
      end
  end.

(** The loop over the directories that [os.walk] yields. *)
Fixpoint walk_sizes (listing : list (Path * list string * list string))
    (total_size : nat) : result nat :=
  match listing with
  | [] => Ok total_size
  | (dirpath, _, filenames) :: rest =>
      match add_sizes dirpath filenames total_size with
      | Ok total => walk_sizes rest total
      | Raise e => Raise e
      end
  end.

Definition get_folder_size (folder_path : Path) : result nat :=
  let total_size := 0 in
  walk_sizes (os_walk folder_path) total_size.

(** ** [run_import_from_path] *)

(** The body of the loop over the items, for an item that is a
    directory: the importer that is run and the uploaded file, or the
    exception of [get_folder_size]. *)
Definition prepare (images_path item : Path)
    (cytomine_auth : string * string * string)
    (storage_id image_server_id user_id : nat)
    : result (UploadedFile * FileImporter) :=
  let image_path := os_path_join images_path item in
  match get_folder_size image_path with
  | Raise e => Raise e
  | Ok folder_size =>
      let uf := {| original_filename := name item;
                   filename := image_path;
                   size := folder_size;
                   ext := EmptyString;
                   content_type := EmptyString;
                   id_storage := storage_id;
                   id_user := user_id;
                   id_image_server := image_server_id;
                   status := UPLOADED |} in
      let listeners := [StdoutListener (name item);
                        CytomineListener cytomine_auth uf] in
      let fi := new_importer image_path (Some (name item)) (Some listeners) in
      Ok (uf, fi)
  end.

(** The loop over the items, from the import at [position] on: the
    importers that were run, and the list returned or the exception. *)
Fixpoint import_items (images_path : Path) (items : list Path)
    (cytomine_auth : string * string * string)
    (storage_id image_server_id user_id : nat)
    (position : nat) (uploaded_files : list UploadedFile)
    : list ImportCall * result (list UploadedFile) :=
  match items with
  | [] => ([], Ok uploaded_files)
  | item :: rest =>
      if negb (is_dir item) then
        import_items images_path rest cytomine_auth storage_id
          image_server_id user_id position uploaded_files
      else
        match prepare images_path item cytomine_auth storage_id
                image_server_id user_id with
        | Raise e => ([], Raise e)
        | Ok (uf, fi) =>
            match outcome (import_from_path (world position) fi) with
            | Raise e => ([(position, fi)], Raise e)
            | Ok _ =>
                let r := import_items images_path rest cytomine_auth
                           storage_id image_server_id user_id (S position)
                           (uploaded_files ++ [uf]) in
                ((position, fi) :: fst r, snd r)
            end
        end
  end.

Definition run_import_from_path (dataset_path : Path)
    (cytomine_auth : string * string * string)
    (storage_id image_server_id user_id : nat)
    : list ImportCall * result (list UploadedFile) :=
  let uploaded_files := [] in
  let images_path := os_path_join dataset_path ["images"] in
  match iterdir images_path with
  | Raise e => ([], Raise e)
  | Ok items =>
      import_items images_path items cytomine_auth storage_id image_server_id
        user_id 0 uploaded_files
  end.

(** ** Properties *)

(** The files of a listing, in the order of the walk. *)
Definition files_of (listing : list (Path * list string * list string))
    : list Path :=
  flat_map (fun entry =>
              match entry with
              | (dirpath, _, filenames) =>
                  map (fun file => os_path_join dirpath [file]) filenames
              end) listing.

Definition size_of (file : Path) : nat :=
  match getsize file with
  | Ok n => n
  | Raise _ => 0
  end.

Definition sized (file : Path) : Prop := exists n, getsize file = Ok n.

(** What a loop over [files] gives from [total]. *)
Definition sums (files : list Path) (total : nat) (r : result nat) : Prop :=
  match r with
  | Ok n => Forall sized files /\ n = total + list_sum (map size_of files)
  | Raise e =>
      exists before file after,
        files = before ++ file :: after
        /\ Forall sized before
        /\ getsize file = Raise e
  end.

Lemma sums_cons file files total n r :
  getsize file = Ok n ->
  sums files (total + n) r -> sums (file :: files) total r.
Proof.
  intros Hn. unfold sums. destruct r as [m|e].
  - intros (Hall & ->). split.
    + constructor; [exists n; exact Hn | exact Hall].
    + assert (Hs : size_of file = n) by (unfold size_of; rewrite Hn; reflexivity).
      change (list_sum (map size_of (file :: files)))
        with (size_of file + list_sum (map size_of files)).
      rewrite Hs. lia.
  - intros (before & bad & after & -> & Hall & Hbad).
    exists (file :: before), bad, after. split; [reflexivity|].
    split; [|exact Hbad]. constructor; [exists n; exact Hn | exact Hall].
Qed.

Lemma add_sizes_sums dirpath filenames : forall total,
  sums (map (fun file => os_path_join dirpath [file]) filenames) total
    (add_sizes dirpath filenames total).
Proof.
  induction filenames as [|file rest IH]; intros total; cbn [add_sizes map].
  - split; [constructor|]. cbn. lia.
  - cbv zeta. destruct (getsize (os_path_join dirpath [file])) as [n|e] eqn:E.
    + eapply sums_cons; [exact E | apply IH].
    + exists [], (os_path_join dirpath [file]),
        (map (fun file => os_path_join dirpath [file]) rest).
      split; [reflexivity|]. split; [constructor | exact E].
Qed.

Lemma sums_app files files' total r r' :
  sums files total r ->
  match r with
  | Ok n => sums files' n r'
  | Raise e => r' = Raise e
  end ->
  sums (files ++ files') total r'.
Proof.
  unfold sums. destruct r as [n|e].
  - intros (Hall & ->). destruct r' as [m|e'].
    + intros (Hall' & ->). split; [apply Forall_app; auto|].
      rewrite map_app, list_sum_app. lia.
    + intros (before & bad & after & -> & Hb & Hbad).
      exists (files ++ before), bad, after.
      split; [apply app_assoc|]. split; [apply Forall_app; auto | exact Hbad].
  - intros (before & bad & after & -> & Hb & Hbad) ->.
    exists before, bad, (after ++ files').
    split; [rewrite <- app_assoc; reflexivity|]. auto.
Qed.

Lemma walk_sizes_sums listing : forall total,
  sums (files_of listing) total (walk_sizes listing total).
Proof.
  induction listing as [|[[dirpath dirnames] filenames] rest IH];
    intros total; cbn [walk_sizes files_of flat_map].
  - split; [constructor|]. cbn. lia.
  - fold (files_of rest).
    eapply sums_app; [apply add_sizes_sums|].
    destruct (add_sizes dirpath filenames total) as [n|e];
      [apply IH | reflexivity].
Qed.

(** X16: [get_folder_size] gives the sum of the sizes of the files that
    [os.walk] lists under the folder, in any directory of it, and so 0
    for a folder in which the walk finds nothing (a folder that does not
    exist, too); the directories count for nothing. It guards no call: it
    raises what [os.path.getsize] raises for the first file of the walk
    that has no size, a link to nowhere for instance. *)
Theorem get_folder_size_sums_the_files folder_path :
  let files := files_of (os_walk folder_path) in
  match get_folder_size folder_path with
  | Ok total =>
      Forall sized files /\ total = list_sum (map size_of files)
  | Raise e =>
      exists before file after,
        files = before ++ file :: after
        /\ Forall sized before
        /\ getsize file = Raise e
  end.
Proof.
  cbv zeta. unfold get_folder_size.
  exact (walk_sizes_sums (os_walk folder_path) 0).
Qed.

(** The uploaded file and the importer made for a directory. *)
Definition prepared (images_path : Path)
    (cytomine_auth : string * string * string)
    (storage_id image_server_id user_id : nat)
    (item : Path) (uf : UploadedFile) (fi : FileImporter) : Prop :=
  let image_path := if is_absolute item then item
                    else pjoin images_path item in
  exists folder_size,
    get_folder_size image_path = Ok folder_size
    /\ uf = {| original_filename := name item;
               filename := image_path;
               size := folder_size;
               ext := EmptyString;
               content_type := EmptyString;
               id_storage := storage_id;
               id_user := user_id;
               id_image_server := image_server_id;
               status := UPLOADED |}
    /\ pending_file fi = image_path
    /\ pending_name fi = Some (name item)
    /\ listeners fi = [StdoutListener (name item);
                       CytomineListener cytomine_auth uf].

Section Loop.

Variables (images_path : Path) (cytomine_auth : string * string * string)
  (storage_id image_server_id user_id : nat).

(** The directory [item] is imported well at [position]: its size is
    found and its import returns. *)
Definition imports_well (position : nat) (item : Path) : Prop :=
  exists uf fi p,
    prepare images_path item cytomine_auth storage_id image_server_id user_id
    = Ok (uf, fi)
    /\ outcome (import_from_path (world position) fi) = Ok p.

(** The directories among the items are imported well from [position]
    on. *)
Fixpoint all_import_well (position : nat) (items : list Path) : Prop :=
  match items with
  | [] => True
  | item :: rest =>
      if is_dir item then
        imports_well position item /\ all_import_well (S position) rest
      else all_import_well position rest
  end.


Definition directories (items : list Path) : list Path := filter is_dir items.

Lemma prepare_prepared item uf fi :
  prepare images_path item cytomine_auth storage_id image_server_id user_id
  = Ok (uf, fi) ->
  prepared images_path cytomine_auth storage_id image_server_id user_id
    item uf fi.
Proof.
  unfold prepare, prepared, os_path_join. cbv zeta.
  destruct (get_folder_size (if is_absolute item then item
                             else pjoin images_path item)) as [n|];
    [|discriminate].
  intros [= <- <-]. exists n. repeat split; reflexivity.
Qed.

Lemma import_items_all_well items : forall position uploaded_files,
  all_import_well position items ->
  let r := import_items images_path items cytomine_auth storage_id
             image_server_id user_id position uploaded_files in
  exists ufs,
    snd r = Ok (uploaded_files ++ ufs)
    /\ map fst (fst r) = seq position (List.length (directories items))
    /\ Forall2 (fun item call =>
                  exists uf,
                    prepared images_path cytomine_auth storage_id
                      image_server_id user_id item uf (snd call))
         (directories items) (fst r)
    /\ Forall2 (fun item uf =>
                  exists fi,
                    prepared images_path cytomine_auth storage_id
                      image_server_id user_id item uf fi)
         (directories items) ufs.
Proof.
  induction items as [|item rest IH]; intros position uploaded_files Hall;
    cbn [import_items directories filter all_import_well] in *.
  - exists []. rewrite app_nil_r. repeat split; constructor.
  - destruct (is_dir item); cbn [negb].
    + destruct Hall as ((uf & fi & p & Hprep & Hok) & Hrest).
      rewrite Hprep, Hok.
      destruct (IH (S position) (uploaded_files ++ [uf]) Hrest)
        as (ufs & H1 & H2 & H3 & H4).
      cbv zeta in *. cbn [fst snd map List.length seq].
      exists (uf :: ufs). split; [|split; [|split]].
      * rewrite H1, <- app_assoc. reflexivity.
      * fold (directories rest). rewrite H2. reflexivity.
      * constructor; [|exact H3]. exists uf. cbn [snd].
        apply prepare_prepared. exact Hprep.
      * constructor; [|exact H4]. exists fi.
        apply prepare_prepared. exact Hprep.
    + apply IH. exact Hall.
Qed.

(** The files the importers of the calls import. *)
Definition imported (calls : list ImportCall) : list Path :=
  map (fun call => pending_file (snd call)) calls.



End Loop.

(** X17: when the images directory can be listed and every directory in
    it is imported well, [run_import_from_path] imports the directories
    of the listing, and nothing else of it, one after the other in the
    order of the listing, and returns one uploaded file for each, in that
    order. The file imported is the item itself when the item is an
    absolute path, and the item below the images directory otherwise; the
    uploaded file has that path as file name, the name of the item as
    original name, the size of the folder, and the status UPLOADED; and
    the importer imports under the name of the item, with a
    [StdoutListener] first and a [CytomineListener] for the uploaded
    file. *)
Theorem run_import_from_path_imports_the_directories
    dataset_path cytomine_auth storage_id image_server_id user_id items :
  let images_path := os_path_join dataset_path ["images"] in
  iterdir images_path = Ok items ->
  all_import_well images_path cytomine_auth storage_id image_server_id
    user_id 0 items ->
  let r := run_import_from_path dataset_path cytomine_auth storage_id
             image_server_id user_id in
  exists uploaded_files,
    snd r = Ok uploaded_files
    /\ map fst (fst r) = seq 0 (List.length (directories items))
    /\ Forall2 (fun item call =>
                  exists uf,
                    prepared images_path cytomine_auth storage_id
                      image_server_id user_id item uf (snd call))
         (directories items) (fst r)
    /\ Forall2 (fun item uf =>
                  exists fi,
                    prepared images_path cytomine_auth storage_id
                      image_server_id user_id item uf fi)
         (directories items) uploaded_files.
Proof.
  intros images_path Hiter Hall r. subst r images_path.
  unfold run_import_from_path. cbv zeta. rewrite Hiter.
  destruct (@import_items_all_well (os_path_join dataset_path ["images"])
              cytomine_auth storage_id image_server_id user_id items 0 []
              Hall) as (ufs & H1 & H2 & H3 & H4).
  exists ufs. auto.
Qed.


End RunImportFromPath.

End Dataset.

(** A dataset with one image directory and a file beside it. *)
Definition one_slide_dataset :
    list Dataset.ImportCall * result (list Dataset.UploadedFile) :=
  Dataset.run_import_from_path 0
    (fun item_name =>
       {| listener_name := item_name; handler := fun _ _ => Returns;
          cytomine_ops := None |})
    (fun _ _ => Demo.cytomine)
    (fun _ => Ok [["/"; "dataset"; "images"; "slide"];
                  ["/"; "dataset"; "images"; "README"]])
    (fun item => String.eqb (name item) "slide")
    (fun folder => [(folder, ["level0"], ["a.dcm"; "b.dcm"]);
                    (pjoin folder ["level0"], [], ["c.dcm"])])
    (fun _ => Ok 10)
    (fun _ => Demo.all_tiff)
    ["/"; "dataset"] ("public", "private", "host") 1 2 3.

Lemma run_import_from_path_imports_the_directories_witness :
  exists uploaded_files,
    snd one_slide_dataset = Ok uploaded_files
    /\ map fst (fst one_slide_dataset) = [0]
    /\ Forall2 (fun item uf =>
                  Dataset.filename uf = item
                  /\ Dataset.original_filename uf = name item
                  /\ Dataset.size uf = 30)
         [["/"; "dataset"; "images"; "slide"]] uploaded_files.
Proof.
  unfold one_slide_dataset.
  destruct (@Dataset.run_import_from_path_imports_the_directories 0
              (fun item_name =>
                 {| listener_name := item_name; handler := fun _ _ => Returns;
                    cytomine_ops := None |})
              (fun _ _ => Demo.cytomine)
              (fun _ => Ok [["/"; "dataset"; "images"; "slide"];
                            ["/"; "dataset"; "images"; "README"]])
              (fun item => String.eqb (name item) "slide")
              (fun folder => [(folder, ["level0"], ["a.dcm"; "b.dcm"]);
                              (pjoin folder ["level0"], [], ["c.dcm"])])
              (fun _ => Ok 10)
              (fun _ => Demo.all_tiff)
              ["/"; "dataset"] ("public", "private", "host") 1 2 3
              [["/"; "dataset"; "images"; "slide"];
               ["/"; "dataset"; "images"; "README"]])
    as (ufs & H1 & H2 & _ & H4).
  - reflexivity.
  - cbn. split; [|exact I].
    do 3 eexists. split; [reflexivity | vm_compute; reflexivity].
  - exists ufs. split; [exact H1|]. split; [exact H2|].
    cbn in H4. inversion H4 as [|item uf ? ? (fi & n & Hn & Huf & _) Hrest];
      subst.
    inversion Hrest; subst. constructor; [|constructor].
    cbn in Hn. injection Hn as <-. cbn. auto.
Defined.

(** * The query parameters: [pims/fastapi_tweaks.py]

    [request_params_to_args] replaces the function of the same name of
    FastAPI. The fields, the received parameters, the validation of
    pydantic and the csv reader are not in the file: a field and the
    received parameters are records of what the function asks them, the
    csv reader is a parameter. *)

Module FastapiTweaks.

Inductive QueryStyle : Type := form | space_delimited | pipe_delimited.

Definition query_style_to_delimiter (style : QueryStyle) : string :=
  match style with
  | form => ","
  | space_delimited => " "
  | pipe_delimited => "|"
  end.

Definition query_style : QueryStyle := form.
Definition query_explode : bool := false.

(** The values that go through the function. *)
Inductive Value : Type :=
| PyNone
| PyStr (s : string)
| PyList (items : list string)
| PyObject (repr : string).

Definition is_none (v : Value) : bool :=
  match v with PyNone => true | _ => false end.

Definition deepcopy (v : Value) : Value := v.

Inductive PydanticError : Type :=
| MissingError
| OtherError (message : string).

Record ErrorWrapper : Type := {
  exc : PydanticError;
  loc : string * string
}.

(** The second component of what [field.validate] returns: an
    [ErrorWrapper], a list of them, or anything else. *)
Inductive Validation : Type :=
| NoError
| OneError (e : ErrorWrapper)
| ErrorList (l : list ErrorWrapper).

(** A dict with string keys, in insertion order. *)
Definition Dict : Type := list (string * Value).

Fixpoint setitem (key : string) (v : Value) (d : Dict) : Dict :=
  match d with
  | [] => [(key, v)]
  | (k, w) :: rest =>
      if String.eqb k key then (k, v) :: rest else (k, w) :: setitem key v rest
  end.

Fixpoint getitem (key : string) (d : Dict) : option Value :=
  match d with
  | [] => None
  | (k, w) :: rest => if String.eqb k key then Some w else getitem key rest
  end.

Definition keys (d : Dict) : list string := map fst d.

Record ModelField : Type := {
  name : string;
  alias : string;
  required : bool;
  default : Value;
  (* isinstance(field.field_info, params.Param), ... params.Query) *)
  is_param : bool;
  is_query : bool;
  (* field.field_info.in_.value *)
  in_ : string;
  (* utils.is_scalar_sequence_field(field) *)
  is_scalar_sequence_field : bool;
  validate : Value -> Dict -> string * string -> result (Value * Validation)
}.

Record Received : Type := {
  (* isinstance(received_params, (QueryParams, Headers)) *)
  is_multi : bool;
  get : string -> Value;
  getlist : string -> list string
}.

Section RequestParams.

(** [list(csv.reader([value], delimiter=delimiter))[0]] *)
Variable csv_row : string -> Value -> result (list string).

(** The value of the field in the received parameters. *)
Definition received_value (field : ModelField) (received_params : Received)
    : result Value :=
  if is_scalar_sequence_field field && is_multi received_params then
    if is_query field && negb query_explode then
      let value := get received_params (alias field) in
      if negb (is_none value) then
        let delimiter := query_style_to_delimiter query_style in
        match csv_row delimiter value with
        | Ok row => Ok (PyList row)
        | Raise e => Raise e
        end
      else Ok value
    else
      match getlist received_params (alias field) with
      | [] => Ok (default field)
      | items => Ok (PyList items)
      end
  else Ok (get received_params (alias field)).

(** The loop over the fields, from the [values] and [errors] so far. *)
Fixpoint fill (required_params : list ModelField) (received_params : Received)
    (values : Dict) (errors : list ErrorWrapper)
    : result (Dict * list ErrorWrapper) :=
  match required_params with
  | [] => Ok (values, errors)
  | field :: rest =>
      if negb (is_param field) then Raise AssertionError
      else
        match received_value field received_params with
        | Raise e => Raise e
        | Ok value =>
            let location := (in_ field, alias field) in
            if is_none value then
              if required field then
                fill rest received_params values
                  (errors ++ [{| exc := MissingError; loc := location |}])
              else
                fill rest received_params
                  (setitem (name field) (deepcopy (default field)) values)
                  errors
            else
              match validate field value values location with
              | Raise e => Raise e
              | Ok (v_, OneError e) =>
                  fill rest received_params values (errors ++ [e])
              | Ok (v_, ErrorList l) =>
                  fill rest received_params values (errors ++ l)
              | Ok (v_, NoError) =>
                  fill rest received_params (setitem (name field) v_ values)
                    errors
              end
        end
  end.

Definition request_params_to_args (required_params : list ModelField)
    (received_params : Received) : result (Dict * list ErrorWrapper) :=
  fill required_params received_params [] [].

(** ** Properties *)

Lemma keys_setitem key v d :
  keys (setitem key v d) = if existsb (String.eqb key) (keys d) then keys d
                           else keys d ++ [key].
Proof.
  induction d as [|[k w] d IH]; [reflexivity|].
  cbn [setitem keys map fst existsb]. fold (keys d).
  rewrite (String.eqb_sym key k).
  destruct (String.eqb k key); cbn [orb keys map fst]; [reflexivity|].
  fold (keys (setitem key v d)). rewrite IH.
  destruct (existsb (String.eqb key) (keys d)); reflexivity.
Qed.

Lemma getitem_setitem key v d k :
  getitem k (setitem key v d)
  = if String.eqb key k then Some v else getitem k d.
Proof.
  induction d as [|[k' w] d IH]; cbn [setitem getitem].
  - destruct (String.eqb key k); reflexivity.
  - destruct (String.eqb k' key) eqn:E; cbn [getitem].
    + apply String.eqb_eq in E. subst k'.
      destruct (String.eqb key k); reflexivity.
    + destruct (String.eqb k' k) eqn:E'.
      * apply String.eqb_eq in E'. subst k'.
        rewrite String.eqb_sym, E. reflexivity.
      * exact IH.
Qed.

Lemma In_keys_setitem key v d k :
  In k (keys (setitem key v d)) <-> k = key \/ In k (keys d).
Proof.
  rewrite keys_setitem.
  destruct (existsb (String.eqb key) (keys d)) eqn:E.
  - split; [tauto|]. intros [->|H]; [|exact H].
    apply existsb_exists in E. destruct E as (x & Hx & Heq).
    apply String.eqb_eq in Heq. subst x. exact Hx.
  - rewrite in_app_iff. simpl. intuition.
Qed.

Lemma NoDup_keys_setitem key v d :
  NoDup (keys d) -> NoDup (keys (setitem key v d)).
Proof.
  intros H. rewrite keys_setitem.
  destruct (existsb (String.eqb key) (keys d)) eqn:E; [exact H|].
  apply NoDup_app; [exact H | repeat constructor; simpl; tauto|].
  intros x Hx [Heq|[]]. subst x.
  assert (Hex : existsb (String.eqb key) (keys d) = true).
  { apply existsb_exists. exists key.
    split; [exact Hx|apply String.eqb_refl]. }
  congruence.
Qed.

(** What a call of [fill] adds: keys that are names of its fields, and
    errors at the end. *)
Lemma fill_grows fields received_params :
  forall values errors values' errors',
  fill fields received_params values errors = Ok (values', errors') ->
  (forall k, In k (keys values') ->
     In k (keys values) \/ In k (map name fields))
  /\ (forall k, In k (keys values) -> In k (keys values'))
  /\ (NoDup (keys values) -> NoDup (keys values'))
  /\ exists more, errors' = errors ++ more.
Proof.
  induction fields as [|field rest IH]; intros values errors values' errors'.
  - intros [= <- <-]. split; [auto|]. split; [auto|]. split; [auto|].
    exists []. symmetry. apply app_nil_r.
  - cbn [fill map].
    destruct (is_param field); cbn [negb]; [|discriminate].
    destruct (received_value field received_params) as [value|]; [|discriminate].
    cbv zeta.
    assert (Hset : forall v,
              fill rest received_params (setitem (name field) v values) errors
              = Ok (values', errors') ->
              (forall k, In k (keys values') ->
                 In k (keys values) \/ name field = k \/ In k (map name rest))
              /\ (forall k, In k (keys values) -> In k (keys values'))
              /\ (NoDup (keys values) -> NoDup (keys values'))
              /\ exists more, errors' = errors ++ more).
    { intros v H. apply IH in H. destruct H as (H1 & H2 & H3 & H4).
      split; [|split; [|split]].
      - intros k Hk. apply H1 in Hk. rewrite In_keys_setitem in Hk.
        intuition.
      - intros k Hk. apply H2. apply In_keys_setitem. auto.
      - intros Hnd. apply H3. apply NoDup_keys_setitem. exact Hnd.
      - exact H4. }
    assert (Herr : forall l,
              fill rest received_params values (errors ++ l)
              = Ok (values', errors') ->
              (forall k, In k (keys values') ->
                 In k (keys values) \/ name field = k \/ In k (map name rest))
              /\ (forall k, In k (keys values) -> In k (keys values'))
              /\ (NoDup (keys values) -> NoDup (keys values'))
              /\ exists more, errors' = errors ++ more).
    { intros l H. apply IH in H. destruct H as (H1 & H2 & H3 & more & H4).
      split; [|split; [|split]].
      - intros k Hk. apply H1 in Hk. intuition.
      - exact H2.
      - exact H3.
      - exists (l ++ more). rewrite app_assoc. exact H4. }
    destruct (is_none value).
    + destruct (required field); [apply Herr | apply Hset].
    + destruct (validate field value values (in_ field, alias field))
        as [[v_ [|e|l]]|]; [apply Hset | apply Herr | apply Herr | discriminate].
Qed.

(** X20: the values [request_params_to_args] returns are a dict whose keys
    are names of the fields asked for: each key occurs once, and nothing
    is returned under the alias of a field or under any other key of the
    received parameters. *)
Theorem request_params_to_args_returns_values_of_the_fields
    required_params received_params values errors :
  request_params_to_args required_params received_params
  = Ok (values, errors) ->
  NoDup (keys values)
  /\ incl (keys values) (map name required_params).
Proof.
  unfold request_params_to_args. intros H. apply fill_grows in H.
  destruct H as (H1 & _ & H3 & _). split.
  - apply H3. constructor.
  - intros k Hk. destruct (H1 k Hk) as [[]|Hin]. exact Hin.
Qed.

(** [validate] never answers with an empty list of errors. *)
Definition reports_its_errors (field : ModelField) : Prop :=
  forall value values location v_,
    validate field value values location <> Ok (v_, ErrorList []).

Lemma fill_without_error fields received_params :
  Forall reports_its_errors fields ->
  forall values errors values',
  fill fields received_params values errors = Ok (values', errors) ->
  Forall (fun field => In (name field) (keys values')) fields.
Proof.
  induction fields as [|field rest IH]; intros Hrep values errors values';
    [constructor|].
  inversion Hrep as [|? ? Hfield Hrest]; subst.
  cbn [fill].
  destruct (is_param field); cbn [negb]; [|discriminate].
  destruct (received_value field received_params) as [value|]; [|discriminate].
  cbv zeta.
  assert (Hset : forall v,
            fill rest received_params (setitem (name field) v values) errors
            = Ok (values', errors) ->
            Forall (fun field => In (name field) (keys values'))
              (field :: rest)).
  { intros v H. constructor; [|exact (IH Hrest _ _ _ H)].
    apply fill_grows in H. destruct H as (_ & H2 & _).
    apply H2. apply In_keys_setitem. auto. }
  assert (Herr : forall l,
            l <> [] ->
            fill rest received_params values (errors ++ l)
            = Ok (values', errors) ->
            Forall (fun field => In (name field) (keys values'))
              (field :: rest)).
  { intros l Hl H. exfalso. apply fill_grows in H.
    destruct H as (_ & _ & _ & more & H).
    apply (f_equal (@List.length ErrorWrapper)) in H.
    rewrite !length_app in H. destruct l; [congruence|]. simpl in H. lia. }
  destruct (is_none value).
  - destruct (required field); [apply Herr; discriminate | apply Hset].
  - destruct (validate field value values (in_ field, alias field))
      as [[v_ [|e|l]]|] eqn:Hv;
      [apply Hset | apply Herr; discriminate | | discriminate].
    apply Herr. intros ->. exact (Hfield _ _ _ _ Hv).
Qed.

(** X21: when [request_params_to_args] returns no error, and the
    validation of a field never answers with an empty list of errors,
    every field asked for has a value in the dict returned. (A field
    whose validation answers with an empty list gets no value and no
    error.) *)
Theorem request_params_to_args_without_error_fills_every_field
    required_params received_params values :
  Forall reports_its_errors required_params ->
  request_params_to_args required_params received_params = Ok (values, []) ->
  Forall (fun field => getitem (name field) values <> None) required_params.
Proof.
  intros Hrep H.
  unfold request_params_to_args in H.
  apply (@fill_without_error _ _ Hrep) in H.
  apply Forall_forall. intros field Hin.
  rewrite Forall_forall in H. specialize (H field Hin).
  clear -H. induction values as [|[k w] d IH]; [destruct H|].
  cbn [getitem]. destruct (String.eqb k (name field)) eqn:E; [discriminate|].
  apply IH. destruct H as [H|H]; [|exact H].
  simpl in H. subst k. rewrite String.eqb_refl in E. discriminate.
Qed.

(** The field reads the list of the values received under its alias. *)
Definition reads_list (field : ModelField) (received_params : Received)
    : bool :=
  is_scalar_sequence_field field && is_multi received_params
  && negb (is_query field && negb query_explode).

(** Nothing was received for the field, which is a [Param]; a field that
    reads a list has no default. *)
Definition absent (received_params : Received) (field : ModelField) : Prop :=
  is_param field = true
  /\ get received_params (alias field) = PyNone
  /\ getlist received_params (alias field) = []
  /\ (reads_list field received_params = true -> default field = PyNone).

Definition missing (field : ModelField) : ErrorWrapper :=
  {| exc := MissingError; loc := (in_ field, alias field) |}.

(** The dict of the defaults of the fields, from [values]. *)
Definition with_defaults (fields : list ModelField) (values : Dict) : Dict :=
  fold_left (fun d field => setitem (name field) (default field) d)
    fields values.

Lemma fill_absent received_params fields :
  Forall (absent received_params) fields ->
  forall values errors,
  fill fields received_params values errors
  = Ok (with_defaults (filter (fun f => negb (required f)) fields) values,
        errors ++ map missing (filter required fields)).
Proof.
  induction fields as [|field rest IH]; intros Habs values errors.
  - cbn. rewrite app_nil_r. reflexivity.
  - inversion Habs as [|? ? (Hp & Hget & Hlist & Hdef) Hrest]; subst.
    cbn [fill filter]. rewrite Hp. cbn [negb].
    assert (Hv : received_value field received_params = Ok PyNone).
    { unfold received_value. unfold reads_list in Hdef.
      destruct (is_scalar_sequence_field field && is_multi received_params);
        [|rewrite Hget; reflexivity].
      destruct (is_query field && negb query_explode).
      - cbv zeta. rewrite Hget. reflexivity.
      - rewrite Hlist, Hdef; reflexivity. }
    rewrite Hv. cbv zeta. cbn [is_none].
    destruct (required field); cbn [negb with_defaults fold_left map].
    + rewrite (IH Hrest). rewrite <- app_assoc. reflexivity.
    + rewrite (IH Hrest). reflexivity.
Qed.

(** X19: when nothing was received for any of the fields,
    [request_params_to_args] reports every required field as missing, at
    the place and alias of the field and in the order of the fields, and
    reports nothing else; and the dict returned holds the default of
    every field that is not required, under the name of the field, and
    nothing for a required one unless a field that is not required has
    the same name. No field is validated. *)
Theorem request_params_to_args_reports_what_is_missing
    required_params received_params :
  Forall (absent received_params) required_params ->
  request_params_to_args required_params received_params
  = Ok (with_defaults
          (filter (fun f => negb (required f)) required_params) [],
        map missing (filter required required_params)).
Proof.
  intros H. unfold request_params_to_args.
  rewrite (fill_absent H). reflexivity.
Qed.

End RequestParams.

(** The sequences of the field, if it holds any, are query parameters. *)
Definition query_sequence (field : ModelField) : Prop :=
  is_scalar_sequence_field field = true -> is_query field = true.

Lemma received_value_of_query_sequence csv_row csv_row' field
    received_params received_params' :
  query_sequence field ->
  is_multi received_params = is_multi received_params' ->
  (forall key, get received_params key = get received_params' key) ->
  (forall value, csv_row "," value = csv_row' "," value) ->
  received_value csv_row field received_params
  = received_value csv_row' field received_params'.
Proof.
  intros Hq Hmulti Hget Hcsv. unfold received_value, query_sequence in *.
  rewrite <- Hmulti, <- Hget.
  destruct (is_scalar_sequence_field field); cbn [andb]; [|reflexivity].
  rewrite (Hq eq_refl). cbn [andb negb query_explode].
  destruct (is_multi received_params); [|reflexivity].
  cbv zeta. cbn [query_style_to_delimiter query_style].
  rewrite Hcsv. reflexivity.
Qed.

(** X22: when the sequences among the fields are all query parameters,
    what [request_params_to_args] returns depends on the received
    parameters through [get] alone, and on the csv reader through the
    rows it reads with the comma as delimiter alone: the list of the
    values received under a repeated key is never read, and the
    delimiters of the other query styles are never used. *)
Theorem request_params_to_args_reads_one_value_per_key
    csv_row csv_row' required_params received_params received_params' :
  Forall query_sequence required_params ->
  is_multi received_params = is_multi received_params' ->
  (forall key, get received_params key = get received_params' key) ->
  (forall value, csv_row "," value = csv_row' "," value) ->
  request_params_to_args csv_row required_params received_params
  = request_params_to_args csv_row' required_params received_params'.
Proof.
  intros Hq Hmulti Hget Hcsv. unfold request_params_to_args.
  generalize (@nil (string * Value)) (@nil ErrorWrapper).
  induction required_params as [|field rest IH]; intros values errors;
    [reflexivity|].
  inversion Hq as [|? ? Hfield Hrest]; subst.
  cbn [fill].
  rewrite (@received_value_of_query_sequence csv_row csv_row' field
             received_params received_params' Hfield Hmulti Hget Hcsv).
  destruct (is_param field); cbn [negb]; [|reflexivity].
  destruct (received_value csv_row' field received_params') as [value|];
    [|reflexivity].
  cbv zeta. destruct (is_none value).
  - destruct (required field); apply (IH Hrest).
  - destruct (validate field value values (in_ field, alias field))
      as [[v_ [|e|l]]|]; try reflexivity; apply (IH Hrest).
Qed.

(** *** An example *)

(** The cells of a text without quotes or line ends. *)
Fixpoint cells (delimiter : ascii) (text : string) (cell : string)
    : list string :=
  match text with
  | EmptyString => [cell]
  | String c rest =>
      if Ascii.eqb c delimiter then cell :: cells delimiter rest EmptyString
      else cells delimiter rest (cell ++ String c EmptyString)
  end.

(** The csv reader on such a text; the empty line has no cell. *)
Definition plain_csv_row (delimiter : string) (value : Value)
    : result (list string) :=
  match value, delimiter with
  | PyStr EmptyString, _ => Ok []
  | PyStr text, String d EmptyString => Ok (cells d text EmptyString)
  | _, _ => Raise (OtherException "csv.Error")
  end.

(** A field that accepts any value as it is. *)
Definition accepting (field_name : string) (is_required sequence : bool)
    (default_value : Value) : ModelField :=
  {| name := field_name; alias := field_name; required := is_required;
     default := default_value; is_param := true; is_query := true;
     in_ := "query"; is_scalar_sequence_field := sequence;
     validate := fun value _ _ => Ok (value, NoError) |}.

(** The fields of a tile request: the channels, a list; the zoom level;
    the gamma, with a default. *)
Definition tile_fields : list ModelField :=
  [accepting "channels" true true PyNone;
   accepting "zoom" true false PyNone;
   accepting "gammas" false true (PyObject "[]")].

(** The query [?channels=0,2&zoom=3]. *)
Definition tile_query : Received :=
  {| is_multi := true;
     get := fun key =>
              if String.eqb key "channels" then PyStr "0,2"
              else if String.eqb key "zoom" then PyStr "3"
              else PyNone;
     getlist := fun key =>
                  if String.eqb key "channels" then ["0,2"]
                  else if String.eqb key "zoom" then ["3"]
                  else [] |}.

(** The query [?channels=0&channels=2&zoom=3], as [get] shows it when it
    gives the last value of a repeated key. *)
Definition repeated_query : Received :=
  {| is_multi := true;
     get := fun key =>
              if String.eqb key "channels" then PyStr "2"
              else if String.eqb key "zoom" then PyStr "3"
              else PyNone;
     getlist := fun key =>
                  if String.eqb key "channels" then ["0"; "2"]
                  else if String.eqb key "zoom" then ["3"]
                  else [] |}.

(** The same [get], without the lists. *)
Definition last_values : Received :=
  {| is_multi := true; get := get repeated_query; getlist := fun _ => [] |}.

(** An empty query. *)
Definition no_query : Received :=
  {| is_multi := true; get := fun _ => PyNone; getlist := fun _ => [] |}.

End FastapiTweaks.

(** The empty query: the two required fields are missing, the third gets
    its default. *)
Lemma request_params_to_args_reports_what_is_missing_witness :
  FastapiTweaks.request_params_to_args FastapiTweaks.plain_csv_row
    FastapiTweaks.tile_fields FastapiTweaks.no_query
  = Ok ([("gammas", FastapiTweaks.PyObject "[]")],
        [{| FastapiTweaks.exc := FastapiTweaks.MissingError;
            FastapiTweaks.loc := ("query", "channels") |};
         {| FastapiTweaks.exc := FastapiTweaks.MissingError;
            FastapiTweaks.loc := ("query", "zoom") |}]).
Proof.
  apply (@FastapiTweaks.request_params_to_args_reports_what_is_missing
           FastapiTweaks.plain_csv_row FastapiTweaks.tile_fields
           FastapiTweaks.no_query).
  repeat constructor; intros H; discriminate H.
Defined.

(** The query [?channels=0,2&zoom=3]. *)
Lemma request_params_to_args_returns_values_of_the_fields_witness :
  FastapiTweaks.request_params_to_args FastapiTweaks.plain_csv_row
    FastapiTweaks.tile_fields FastapiTweaks.tile_query
  = Ok ([("channels", FastapiTweaks.PyList ["0"; "2"]);
         ("zoom", FastapiTweaks.PyStr "3");
         ("gammas", FastapiTweaks.PyObject "[]")], [])
  /\ NoDup ["channels"; "zoom"; "gammas"].
Proof.
  assert (H : FastapiTweaks.request_params_to_args FastapiTweaks.plain_csv_row
                FastapiTweaks.tile_fields FastapiTweaks.tile_query
              = Ok ([("channels", FastapiTweaks.PyList ["0"; "2"]);
                     ("zoom", FastapiTweaks.PyStr "3");
                     ("gammas", FastapiTweaks.PyObject "[]")], []))
    by (vm_compute; reflexivity).
  split; [exact H|].
  exact (proj1 (FastapiTweaks.request_params_to_args_returns_values_of_the_fields
                  _ _ _ H)).
Defined.

Lemma request_params_to_args_without_error_fills_every_field_witness :
  Forall
    (fun field =>
       FastapiTweaks.getitem (FastapiTweaks.name field)
         [("channels", FastapiTweaks.PyList ["0"; "2"]);
          ("zoom", FastapiTweaks.PyStr "3");
          ("gammas", FastapiTweaks.PyObject "[]")] <> None)
    FastapiTweaks.tile_fields.
Proof.
  apply (@FastapiTweaks.request_params_to_args_without_error_fills_every_field
           FastapiTweaks.plain_csv_row FastapiTweaks.tile_fields
           FastapiTweaks.tile_query).
  - repeat constructor; intros value values location v_ H; discriminate H.
  - vm_compute. reflexivity.
Defined.

(** The query [?channels=0&channels=2&zoom=3]: only the value that [get]
    gives for the channels is read. *)
Lemma request_params_to_args_reads_one_value_per_key_witness :
  FastapiTweaks.request_params_to_args FastapiTweaks.plain_csv_row
    FastapiTweaks.tile_fields FastapiTweaks.repeated_query
  = FastapiTweaks.request_params_to_args FastapiTweaks.plain_csv_row
      FastapiTweaks.tile_fields FastapiTweaks.last_values
  /\ FastapiTweaks.request_params_to_args FastapiTweaks.plain_csv_row
       FastapiTweaks.tile_fields FastapiTweaks.repeated_query
     = Ok ([("channels", FastapiTweaks.PyList ["2"]);
            ("zoom", FastapiTweaks.PyStr "3");
            ("gammas", FastapiTweaks.PyObject "[]")], []).
Proof.
  split; [|vm_compute; reflexivity].
  apply FastapiTweaks.request_params_to_args_reads_one_value_per_key.
  - repeat constructor.
  - reflexivity.
  - reflexivity.
  - reflexivity.
Defined.
